(** * code_agent: hybrid retrieval and task execution, checked against its specification

    A shallow embedding of the Go sources of the repository.  Each module
    below mirrors one source file (or one standard-library package the
    sources call), keeps the source's names, and is followed, in the second
    half of the file, by the statements proved about it.

    Conventions.
    - Go [string] is [string] (a sequence of bytes); [len] is [String.length].
    - Go [int] is a 64-bit two's-complement integer: a [Z] in
      [-2^63, 2^63) with the wrap-around of [+] written as [Int.add].
    - Go [float32] is IEEE-754 binary32, modelled bit-exactly with the
      standard library's [SpecFloat] at precision 24 and [emax] 128.
    - A Go [error] result is [option string] ([None] is [nil]); the string
      is [err.Error()].
    - The file system is a finite map from cleaned paths to file contents;
      directories, permissions and I/O faults are outside the model. *)

From Stdlib Require Import ZArith Lia Ascii String DecimalString Permutation.
From Stdlib Require Import SpecFloat.
From stdpp Require Import base option list gmap strings fin_maps sorting.

Local Open Scope Z_scope.

(* ===================================================================== *)
(** * Go's [strings] package (the functions the sources call)            *)
(* ===================================================================== *)

Module strings.

Definition len (s : string) : Z := Z.of_nat (String.length s).

(** [strings.HasPrefix(s, prefix)] *)
Fixpoint HasPrefix (s prefix : string) : bool :=
  match prefix, s with
  | EmptyString, _ => true
  | String _ _, EmptyString => false
  | String c p', String d s' => if Ascii.eqb c d then HasPrefix s' p' else false
  end.

(** [strings.Index(s, substr)]: byte offset of the first occurrence. *)
Fixpoint Index (s substr : string) : option nat :=
  if HasPrefix s substr then Some 0%nat
  else match s with
       | EmptyString => None
       | String _ s' => S <$> Index s' substr
       end.

(** [strings.Contains(s, substr)] *)
Definition Contains (s substr : string) : bool :=
  match Index s substr with Some _ => true | None => false end.

Fixpoint skip (n : nat) (s : string) : string :=
  match n, s with
  | O, _ => s
  | S _, EmptyString => EmptyString
  | S n', String _ s' => skip n' s'
  end.

(** [strings.Replace(s, old, new, 1)]: the first occurrence of [old] is
    replaced; an empty [old] matches at the start; [s] is returned as it
    is when [old] does not occur. *)
Fixpoint Replace1 (s old new : string) : string :=
  if HasPrefix s old then new +:+ skip (String.length old) s
  else match s with
       | EmptyString => EmptyString
       | String c s' => String c (Replace1 s' old new)
       end.

(** [strings.Split(s, sep)] for a one-byte separator. *)
Fixpoint Split (s : string) (sep : ascii) : list string :=
  match s with
  | EmptyString => [EmptyString]
  | String c s' =>
      if Ascii.eqb c sep then EmptyString :: Split s' sep
      else match Split s' sep with
           | l :: ls => String c l :: ls
           | [] => [String c EmptyString]
           end
  end.

(** [strings.Join(elems, sep)] *)
Definition Join (elems : list string) (sep : string) : string :=
  String.concat sep elems.

Definition lower (c : ascii) : ascii :=
  let n := nat_of_ascii c in
  if ((65 <=? n)%nat && (n <=? 90)%nat)%bool then ascii_of_nat (n + 32) else c.

(** [strings.ToLower]: exact on ASCII text; bytes above 127 are kept
    (Go maps non-ASCII upper-case runes to lower-case runes, which are
    never in [A-Z] either). *)
Fixpoint ToLower (s : string) : string :=
  match s with
  | EmptyString => EmptyString
  | String c s' => String (lower c) (ToLower s')
  end.

Definition rev (s : string) : string :=
  string_of_list_ascii (List.rev (list_ascii_of_string s)).

Definition byte (n : nat) : ascii := ascii_of_nat n.

(** The UTF-8 encodings of the runes for which [unicode.IsSpace] holds,
    beyond the six ASCII ones. *)
Definition space2 (a b : ascii) : bool :=
  (Ascii.eqb a (byte 194) && (Ascii.eqb b (byte 133) || Ascii.eqb b (byte 160)))%bool.

Definition space3 (a b c : ascii) : bool :=
  let x := nat_of_ascii a in let y := nat_of_ascii b in let z := nat_of_ascii c in
  ((x =? 225)%nat && (y =? 154)%nat && (z =? 128)%nat
   || (x =? 226)%nat && (y =? 128)%nat
      && (((128 <=? z)%nat && (z <=? 138)%nat) || (z =? 168)%nat || (z =? 169)%nat || (z =? 175)%nat)
   || (x =? 226)%nat && (y =? 129)%nat && (z =? 159)%nat
   || (x =? 227)%nat && (y =? 128)%nat && (z =? 128)%nat)%bool.

Fixpoint TrimLeftSpace (s : string) : string :=
  match s with
  | String a r1 =>
      if Ascii.is_space a then TrimLeftSpace r1
      else match r1 with
           | String b r2 =>
               if space2 a b then TrimLeftSpace r2
               else match r2 with
                    | String c r3 => if space3 a b c then TrimLeftSpace r3 else s
                    | EmptyString => s
                    end
           | EmptyString => s
           end
  | EmptyString => s
  end.

Fixpoint TrimRightSpaceRev (s : string) : string :=
  match s with
  | String a r1 =>
      if Ascii.is_space a then TrimRightSpaceRev r1
      else match r1 with
           | String b r2 =>
               if space2 b a then TrimRightSpaceRev r2
               else match r2 with
                    | String c r3 => if space3 c b a then TrimRightSpaceRev r3 else s
                    | EmptyString => s
                    end
           | EmptyString => s
           end
  | EmptyString => s
  end.

(** [strings.TrimSpace] *)
Definition TrimSpace (s : string) : string :=
  rev (TrimRightSpaceRev (rev (TrimLeftSpace s))).

(** [fmt.Sprintf("%d", n)] *)
Definition itoa (n : Z) : string := NilZero.string_of_int (Z.to_int n).

(** A text between double quotes. *)
Definition q (s : string) : string :=
  String (ascii_of_nat 34) EmptyString +:+ s +:+ String (ascii_of_nat 34) EmptyString.

End strings.

(* ===================================================================== *)
(** * Go's [path/filepath] on Unix                                       *)
(* ===================================================================== *)

Module filepath.

Definition IsAbs (path : string) : bool := strings.HasPrefix path "/".

(** One step of the lexical clean-up: [stack] holds the components kept
    so far, last one first. *)
Definition cleanStep (rooted : bool) (stack : list string) (c : string) : list string :=
  if (String.eqb c "" || String.eqb c ".")%bool then stack
  else if String.eqb c ".." then
    match stack with
    | top :: rest => if String.eqb top ".." then c :: stack else rest
    | [] => if rooted then [] else [c]
    end
  else c :: stack.

(** [filepath.Clean] *)
Definition Clean (path : string) : string :=
  if String.eqb path "" then "."
  else
    let rooted := IsAbs path in
    let stack := fold_left (cleanStep rooted) (strings.Split path "/"%char) [] in
    let out := strings.Join (List.rev stack) "/" in
    if rooted then "/" +:+ out
    else if String.eqb out "" then "." else out.

(** [filepath.Join(a, b)]: empty elements are ignored, the rest is
    joined with the separator and cleaned. *)
Definition Join (a b : string) : string :=
  if negb (String.eqb a "") then Clean (a +:+ "/" +:+ b)
  else if negb (String.eqb b "") then Clean b
  else "".

(** [filepath.Dir]: everything up to the last separator, cleaned. *)
Definition Dir (path : string) : string :=
  match List.rev (strings.Split path "/"%char) with
  | _ :: (_ :: _) as front => Clean (strings.Join (List.rev front) "/" +:+ "/")
  | _ => Clean ""
  end.

End filepath.

(* ===================================================================== *)
(** * Go's [int]                                                          *)
(* ===================================================================== *)

Module Int.

Definition min_int : Z := - 2 ^ 63.
Definition max_int : Z := 2 ^ 63 - 1.

Definition InRange (z : Z) : Prop := min_int <= z <= max_int.

(** Two's-complement wrap-around into 64 bits. *)
Definition wrap (z : Z) : Z := (z + 2 ^ 63) mod 2 ^ 64 - 2 ^ 63.

Definition add (a b : Z) : Z := wrap (a + b).
Definition mul (a b : Z) : Z := wrap (a * b).

End Int.

(* ===================================================================== *)
(** * The file system seen through Go's [os] package                     *)
(* ===================================================================== *)

Module os.

(** Regular files by cleaned path. *)
Abbreviation FS := (gmap string string).

Definition ReadFile (fs : FS) (name : string) : string + string :=
  match fs !! filepath.Clean name with
  | Some data => inl data
  | None => inr ("open " +:+ name +:+ ": no such file or directory")
  end.

Definition WriteFile (fs : FS) (name data : string) : FS * option string :=
  (<[filepath.Clean name := data]> fs, None).

Definition MkdirAll (fs : FS) (path : string) : FS * option string :=
  (fs, None).

Definition Remove (fs : FS) (name : string) : FS * option string :=
  match fs !! filepath.Clean name with
  | Some _ => (delete (filepath.Clean name) fs, None)
  | None => (fs, Some ("remove " +:+ name +:+ ": no such file or directory"))
  end.

(** What [exec.Command("bash", "-c", command)] with [cmd.Dir = workdir]
    and a deadline does to the files, and what [CombinedOutput]
    returns: the combined output and the error, if any. *)
Definition Bash : Type := FS -> string -> string -> Z -> FS * string * option string.

End os.

(* ===================================================================== *)
(** * Package [agent]: the task manager                                   *)
(* ===================================================================== *)

(** The three expressions [ParseTasksFromLLM] compiles, as matchers that
    return the first group of [FindStringSubmatch].  In Go's [regexp],
    [\s] is one of tab, newline, form feed, carriage return and space,
    [\d] an ASCII digit, and [.] any character but newline. *)
Module regexp.

Definition isSpace (c : ascii) : bool :=
  let n := nat_of_ascii c in
  ((n =? 9) || (n =? 10) || (n =? 12) || (n =? 13) || (n =? 32))%nat%bool.

Definition isDigit (c : ascii) : bool :=
  let n := nat_of_ascii c in ((48 <=? n) && (n <=? 57))%nat%bool.

Fixpoint skipSpace (s : string) : string :=
  match s with
  | String c r => if isSpace c then skipSpace r else s
  | EmptyString => s
  end.

(** The one-byte members of the class of [checkboxPattern]. *)
Definition checkboxByte (c : ascii) : bool :=
  (isSpace c || Ascii.eqb c "["%char || Ascii.eqb c "]"%char
   || Ascii.eqb c "x"%char || Ascii.eqb c "-"%char)%bool.

(** Its three-byte members: the UTF-8 encodings of U+2610, U+2611,
    U+2713 and U+2717. *)
Definition checkboxRune (a b c : ascii) : bool :=
  let x := nat_of_ascii a in let y := nat_of_ascii b in let z := nat_of_ascii c in
  ((x =? 226) && (((y =? 152) && ((z =? 144) || (z =? 145)))
                  || ((y =? 156) && ((z =? 147) || (z =? 151)))))%nat%bool.

(** The longest run of class members at the head of [s]: how many, the
    last one, and what follows. *)
Fixpoint checkboxRun (s : string) (count : nat) (last : string) : nat * string * string :=
  match s with
  | String a r1 =>
      if checkboxByte a then checkboxRun r1 (S count) (String a EmptyString)
      else match r1 with
           | String b (String c r3) =>
               if checkboxRune a b c
               then checkboxRun r3 (S count) (String a (String b (String c EmptyString)))
               else (count, last, s)
           | _ => (count, last, s)
           end
  | EmptyString => (count, last, s)
  end.

(** The group of a tail [\s+(.+)$] or of a greedy run followed by
    [(.+)$]: what follows the run, or the run's last member when the
    run reaches the end of the line and can give one member back. *)
Definition group (run : nat * string * string) (least : nat) : option string :=
  let '(count, last, rest) := run in
  if (count <? least)%nat then None
  else if negb (String.eqb rest "") then Some rest
  else if (least <? count)%nat then Some last
  else None.

Fixpoint spaceRun (s : string) (count : nat) (last : string) : nat * string * string :=
  match s with
  | String a r => if isSpace a then spaceRun r (S count) (String a EmptyString)
                  else (count, last, s)
  | EmptyString => (count, last, s)
  end.

Fixpoint skipDigits (s : string) : string :=
  match s with
  | String c r => if isDigit c then skipDigits r else s
  | EmptyString => s
  end.

(** [^[\s]*[☐☑✓✗\[\]x\s-]+\s*(.+)$] *)
Definition checkboxPattern (line : string) : option string :=
  group (checkboxRun line 0 "") 1.

(** [^[\s]*\d+\.\s+(.+)$] *)
Definition numberedPattern (line : string) : option string :=
  match skipSpace line with
  | String d r =>
      if isDigit d then
        match skipDigits r with
        | String "." r' => group (spaceRun r' 0 "") 1
        | _ => None
        end
      else None
  | EmptyString => None
  end.

(** [^[\s]*[-*•]\s+(.+)$] *)
Definition bulletPattern (line : string) : option string :=
  match skipSpace line with
  | String a r1 =>
      if (Ascii.eqb a "-"%char || Ascii.eqb a "*"%char)%bool then group (spaceRun r1 0 "") 1
      else match r1 with
           | String b (String c r3) =>
               if ((nat_of_ascii a =? 226) && (nat_of_ascii b =? 128)
                   && (nat_of_ascii c =? 162))%nat%bool
               then group (spaceRun r3 0 "") 1
               else None
           | _ => None
           end
  | EmptyString => None
  end.

End regexp.

Module tasks.

Definition TaskStatus : Type := string.

Definition TaskStatusPending : TaskStatus := "pending".
Definition TaskStatusInProgress : TaskStatus := "in_progress".
Definition TaskStatusCompleted : TaskStatus := "completed".
Definition TaskStatusBlocked : TaskStatus := "blocked".

Record Task : Type := {
  ID : Z;
  Description : string;
  Status : TaskStatus;
  Details : string;
  FilePath : string;
  Line : Z
}.

Record TaskBreakdown : Type := {
  UserPrompt : string;
  Summary : string;
  Tasks : list Task;
  TotalTasks : Z;
  Completed : Z;
  InProgress : Z;
  Pending : Z
}.

(** One iteration of the loop of [UpdateStats] over the three counters
    (completed, in progress, pending). *)
Definition countTask (acc : Z * Z * Z) (task : Task) : Z * Z * Z :=
  let '(completed, inProgress, pending) := acc in
  if String.eqb task.(Status) TaskStatusCompleted then (Int.add completed 1, inProgress, pending)
  else if String.eqb task.(Status) TaskStatusInProgress then (completed, Int.add inProgress 1, pending)
  else if String.eqb task.(Status) TaskStatusPending then (completed, inProgress, Int.add pending 1)
  else acc.

Definition UpdateStats (tb : TaskBreakdown) : TaskBreakdown :=
  let '(completed, inProgress, pending) := fold_left countTask tb.(Tasks) (0, 0, 0) in
  {| UserPrompt := tb.(UserPrompt);
     Summary := tb.(Summary);
     Tasks := tb.(Tasks);
     TotalTasks := tb.(TotalTasks);
     Completed := completed;
     InProgress := inProgress;
     Pending := pending |}.

Definition withStatus (task : Task) (status : TaskStatus) : Task :=
  {| ID := task.(ID);
     Description := task.(Description);
     Status := status;
     Details := task.(Details);
     FilePath := task.(FilePath);
     Line := task.(Line) |}.

(** [tb.Tasks[i].Status = status] at the first [i] whose task has the
    given id; [None] when the loop finds none. *)
Fixpoint setStatus (tasks : list Task) (taskID : Z) (status : TaskStatus) : option (list Task) :=
  match tasks with
  | [] => None
  | task :: rest =>
      if task.(ID) =? taskID then Some (withStatus task status :: rest)
      else cons task <$> setStatus rest taskID status
  end.

Definition withTasks (tb : TaskBreakdown) (tasks : list Task) : TaskBreakdown :=
  {| UserPrompt := tb.(UserPrompt);
     Summary := tb.(Summary);
     Tasks := tasks;
     TotalTasks := tb.(TotalTasks);
     Completed := tb.(Completed);
     InProgress := tb.(InProgress);
     Pending := tb.(Pending) |}.

Definition UpdateTaskStatus (tb : TaskBreakdown) (taskID : Z) (status : TaskStatus)
    : TaskBreakdown * option string :=
  match setStatus tb.(Tasks) taskID status with
  | Some tasks => (UpdateStats (withTasks tb tasks), None)
  | None => (tb, Some ("task with ID " +:+ strings.itoa taskID +:+ " not found"))
  end.


(** The body of the loop of [ParseTasksFromLLM] for one line; the state
    is the task list so far and the next id. *)
Definition parseLine (acc : list Task * Z) (line : string) : list Task * Z :=
  let '(tasks, taskID) := acc in
  let line := strings.TrimSpace line in
  if String.eqb line "" then acc
  else
    let status :=
      if (strings.Contains line "☑" || strings.Contains line "✓"
          || strings.Contains line "[x]")%bool
      then TaskStatusCompleted else TaskStatusPending in
    let matched :=
      match regexp.checkboxPattern line with
      | Some m => Some m
      | None =>
          match regexp.numberedPattern line with
          | Some m => Some m
          | None => regexp.bulletPattern line
          end
      end in
    match matched with
    | None => acc
    | Some m =>
        let description := strings.TrimSpace m in
        if negb (String.eqb description "") then
          (tasks ++ [ {| ID := taskID; Description := description; Status := status;
                         Details := ""; FilePath := ""; Line := 0 |} ],
           Int.add taskID 1)
        else acc
    end.

Definition ParseTasksFromLLM (llmResponse : string) : TaskBreakdown + string :=
  let lines := strings.Split llmResponse "010"%char in
  let '(tasks, _) := fold_left parseLine lines ([], 1) in
  match tasks with
  | [] => inr "no tasks found in LLM response"
  | _ :: _ =>
      inl (UpdateStats {| UserPrompt := "";
                          Summary := "";
                          Tasks := tasks;
                          TotalTasks := Z.of_nat (length tasks);
                          Completed := 0;
                          InProgress := 0;
                          Pending := 0 |})
  end.

Definition GenerateTaskPrompt (userPrompt projectContext : string) : string :=
  let q := strings.q in
  "You are a coding agent task planner. Given a user's request and project context, create a detailed task breakdown.

USER REQUEST:
" +:+ userPrompt +:+ "

PROJECT CONTEXT:
" +:+ projectContext +:+ "

Please create a detailed task breakdown in the following format:
☐ Task 1 description
☐ Task 2 description
☐ Task 3 description
...

IMPORTANT:
- Each task should be specific and actionable
- Include file paths when relevant (e.g., " +:+ q "Check schemas/patient.py for field definitions" +:+ ")
- Order tasks logically (investigation → implementation → testing)
- Be concise but clear
- Use checkbox format (☐) for pending tasks
- Focus on the most critical tasks first

Your task breakdown:".

End tasks.

(* ===================================================================== *)
(** * Package [agent]: actions (action.go)                                *)
(* ===================================================================== *)

Module action.

Definition ActionType : Type := string.

Definition ActionReadFile : ActionType := "read_file".
Definition ActionEditFile : ActionType := "edit_file".
Definition ActionCreateFile : ActionType := "create_file".
Definition ActionDeleteFile : ActionType := "delete_file".
Definition ActionRunCommand : ActionType := "run_command".
Definition ActionSearch : ActionType := "search".
Definition ActionAskUser : ActionType := "ask_user".
Definition ActionComplete : ActionType := "complete".
Definition ActionFail : ActionType := "fail".

Record TextEdit : Type := {
  OldText : string;
  NewText : string
}.

(** The field [Type] of the source is [Type_] here. *)
Record Action : Type := {
  Type_ : ActionType;
  Path : string;
  Edits : list TextEdit;
  Content : string;
  Command : string;
  Workdir : string;
  Query : string;
  Reason : string;
  Timeout : Z;
  Summary : string;
  Question : string
}.

(** [Duration] is wall-clock time and is left out. *)
Record ActionResult : Type := {
  Success : bool;
  Output : string;
  Error : string;
  FilesChanged : list string
}.

Record TaskExecution : Type := {
  Task : tasks.Task;
  Actions : list Action;
  Results : list ActionResult;
  Completed : bool;
  Failed : bool;
  FailureMsg : string
}.

End action.

(* ===================================================================== *)
(** * Package [indexer], as its callers see it                            *)
(* ===================================================================== *)

(** Package [indexer] is not among the sources.  The agent only searches
    an index for a symbol and prints the hits, and fetches and prints the
    context of a task, so a project index is represented by these two
    observations; a hit and a context are represented by their printed
    form. *)
Module indexer.

Definition SearchResult : Type := string.

Record ProjectIndex : Type := {
  SearchSymbol : string -> list SearchResult;
  FetchContext : string -> Z -> string
}.

Definition FormatSearchResult (r : SearchResult) : string := r.

(** [FormatContext] of what [FetchContext] returned. *)
Definition FormatContext (c : string) : string := c.

(** [Indexer.IndexProject]: the index of the files under a path, or an
    error. *)
Definition Indexer : Type := os.FS -> string -> ProjectIndex + string.

End indexer.

(* ===================================================================== *)
(** * Package [agent]: the executor                                       *)
(* ===================================================================== *)

Module executor.

Import action.

Record Executor : Type := {
  projectRoot : string;
  index : option indexer.ProjectIndex;
  dryRun : bool;
  blocklist : list string
}.

Record ExecutorConfig : Type := {
  ProjectRoot : string;
  Index : option indexer.ProjectIndex;
  DryRun : bool;
  Blocklist : list string
}.

Definition NewExecutor (cfg : ExecutorConfig) : Executor :=
  let blocked :=
    match cfg.(Blocklist) with
    | [] => [".env"; "id_rsa"; "id_dsa"; "secrets"; "config.yml"; "config.yaml"]
    | _ :: _ => cfg.(Blocklist)
    end in
  {| projectRoot := cfg.(ProjectRoot);
     index := cfg.(Index);
     dryRun := cfg.(DryRun);
     blocklist := blocked |}.

Definition abs (e : Executor) (path : string) : string :=
  if filepath.IsAbs path then path
  else filepath.Join e.(projectRoot) path.

Definition checkPath (e : Executor) (path : string) : option string :=
  let abs := abs e path in
  if negb (strings.HasPrefix abs (filepath.Clean e.(projectRoot))) then
    Some ("path " +:+ path +:+ " escapes project root")
  else if existsb (fun blocked => strings.Contains abs blocked) e.(blocklist) then
    Some ("path " +:+ path +:+ " is blocked")
  else None.

Definition result (success : bool) (output : string) (err : option string)
    (changed : list string) : ActionResult :=
  {| Success := success;
     Output := output;
     Error := match err with Some msg => msg | None => "" end;
     FilesChanged := changed |}.

(** The loop of the [edit_file] case: [inl content] after all edits,
    [inr err] at the first edit whose [old_text] is absent. *)
Fixpoint applyEdits (path content : string) (edits : list TextEdit) : string + string :=
  match edits with
  | [] => inl content
  | edit :: rest =>
      if negb (strings.Contains content edit.(OldText)) then
        inr ("old_text not found in " +:+ path)
      else applyEdits path (strings.Replace1 content edit.(OldText) edit.(NewText)) rest
  end.

Section Execute.

Variable bash : os.Bash.

Definition Execute (e : Executor) (fs : os.FS) (action : Action) : ActionResult * os.FS :=
  let type := action.(Type_) in
  if String.eqb type ActionReadFile then
    match os.ReadFile fs (abs e action.(Path)) with
    | inr err => (result false "" (Some err) [], fs)
    | inl content => (result true content None [], fs)
    end
  else if String.eqb type ActionCreateFile then
    match checkPath e action.(Path) with
    | Some err => (result false "" (Some err) [], fs)
    | None =>
        if e.(dryRun) then
          (result true ("[dry-run] would create " +:+ action.(Path)) None [], fs)
        else
          match os.MkdirAll fs (filepath.Dir (abs e action.(Path))) with
          | (fs1, Some err) => (result false "" (Some err) [], fs1)
          | (fs1, None) =>
              match os.WriteFile fs1 (abs e action.(Path)) action.(Content) with
              | (fs2, Some err) => (result false "" (Some err) [], fs2)
              | (fs2, None) =>
                  (result true ("created " +:+ action.(Path)) None [action.(Path)], fs2)
              end
          end
    end
  else if String.eqb type ActionEditFile then
    match checkPath e action.(Path) with
    | Some err => (result false "" (Some err) [], fs)
    | None =>
        match action.(Edits) with
        | [] => (result false "" (Some "no edits provided") [], fs)
        | _ :: _ =>
            let absPath := abs e action.(Path) in
            match os.ReadFile fs absPath with
            | inr err => (result false "" (Some err) [], fs)
            | inl data =>
                match applyEdits action.(Path) data action.(Edits) with
                | inr err => (result false "" (Some err) [], fs)
                | inl content =>
                    if e.(dryRun) then
                      (result true ("[dry-run] would edit " +:+ action.(Path)) None [], fs)
                    else
                      match os.WriteFile fs absPath content with
                      | (fs1, Some err) => (result false "" (Some err) [], fs1)
                      | (fs1, None) =>
                          (result true ("edited " +:+ action.(Path)) None [action.(Path)], fs1)
                      end
                end
            end
        end
    end
  else if String.eqb type ActionDeleteFile then
    match checkPath e action.(Path) with
    | Some err => (result false "" (Some err) [], fs)
    | None =>
        if e.(dryRun) then
          (result true ("[dry-run] would delete " +:+ action.(Path)) None [], fs)
        else
          match os.Remove fs (abs e action.(Path)) with
          | (fs1, Some err) => (result false "" (Some err) [], fs1)
          | (fs1, None) =>
              (result true ("deleted " +:+ action.(Path)) None [action.(Path)], fs1)
          end
    end
  else if String.eqb type ActionRunCommand then
    let workdir :=
      if String.eqb action.(Workdir) "" then e.(projectRoot) else action.(Workdir) in
    let timeout := Int.mul action.(Timeout) 1000000000 in
    let timeout := if timeout =? 0 then Int.mul 5 60000000000 else timeout in
    if e.(dryRun) then
      (result true ("[dry-run] would run '" +:+ action.(Command) +:+ "' (cwd="
                    +:+ workdir +:+ ")") None [], fs)
    else
      match bash fs action.(Command) workdir timeout with
      | (fs1, output, Some err) => (result false output (Some err) [], fs1)
      | (fs1, output, None) => (result true output None [], fs1)
      end
  else if String.eqb type ActionSearch then
    match e.(index) with
    | None => (result false "" (Some "search unavailable: index is nil") [], fs)
    | Some idx =>
        let results := indexer.SearchSymbol idx action.(Query) in
        (result true
           (String.concat "" (map (fun r => indexer.FormatSearchResult r +:+ String "010" "")
                                  results)) None [],
         fs)
    end
  else if String.eqb type ActionAskUser then
    (result false action.(Question) (Some "user input required") [], fs)
  else if String.eqb type ActionComplete then
    (result true action.(Summary) None [], fs)
  else if String.eqb type ActionFail then
    (result false "" (Some action.(Reason)) [], fs)
  else
    (result false "" (Some ("unsupported action type: " +:+ type)) [], fs).

End Execute.

End executor.

(* ===================================================================== *)
(** * Package [agent]: the LLM interface (llm_client.go)                  *)
(* ===================================================================== *)

Module llm_client.

Module Message.
Record t : Type := { Role : string; Content : string }.
End Message.

Record LLMResponse : Type := {
  Content : string;
  Provider : string;
  Model : string;
  TokensUsed : Z;
  FinishReason : string
}.

(** [LLMClient.Chat]: the answer, or an error, to the messages of the
    [n]-th call made so far; the call number stands for whatever else
    the provider's answer depends on. *)
Record LLMClient : Type := {
  Chat : nat -> list Message.t -> LLMResponse + string
}.

End llm_client.

(* ===================================================================== *)
(** * Package [agent]: the runner (runner.go) and [PlanTask]              *)
(* ===================================================================== *)

Module runner.

Import action llm_client.

Record RunOptions : Type := {
  DryRun : bool;
  MaxIterations : Z;
  MaxContextResults : Z
}.

Record RunResult : Type := {
  Plan : tasks.TaskBreakdown;
  Executions : list TaskExecution
}.

Record CodingAgent : Type := {
  llmClient : LLMClient;
  indexer : indexer.Indexer;
  projectPath : string
}.

(** What the agent acts on: the files, and how many calls the LLM has
    answered. *)
Record World : Type := {
  files : os.FS;
  calls : nat
}.

(** A call either returns or panics. *)
Inductive outcome (A : Type) : Type :=
| Returned (a : A)
| Panicked (msg : string).
Arguments Returned {A} a.
Arguments Panicked {A} msg.

Definition buildActionDecisionPrompt (taskDesc contextString : string) (history : list string)
    : string :=
  let q := strings.q in
  "CURRENT TASK:
" +:+ taskDesc +:+ "

PROJECT CONTEXT:
" +:+ contextString
  +:+ match history with
      | [] => ""
      | _ :: _ => "

PREVIOUS STEPS:
" +:+ String.concat "" (map (fun h => "- " +:+ h +:+ "
") history)
      end
  +:+ "

You can take exactly ONE of these actions:
- read_file: { " +:+ q "type" +:+ ": " +:+ q "read_file" +:+ ", " +:+ q "path" +:+ ": " +:+ q "<relative path>" +:+ " }
- edit_file: { " +:+ q "type" +:+ ": " +:+ q "edit_file" +:+ ", " +:+ q "path" +:+ ": " +:+ q "<relative path>" +:+ ", " +:+ q "edits" +:+ ": [{ " +:+ q "old_text" +:+ ": " +:+ q "..." +:+ ", " +:+ q "new_text" +:+ ": " +:+ q "..." +:+ " }] }
- create_file: { " +:+ q "type" +:+ ": " +:+ q "create_file" +:+ ", " +:+ q "path" +:+ ": " +:+ q "<relative path>" +:+ ", " +:+ q "content" +:+ ": " +:+ q "full file content" +:+ " }
- delete_file: { " +:+ q "type" +:+ ": " +:+ q "delete_file" +:+ ", " +:+ q "path" +:+ ": " +:+ q "<relative path>" +:+ " }
- run_command: { " +:+ q "type" +:+ ": " +:+ q "run_command" +:+ ", " +:+ q "command" +:+ ": " +:+ q "<shell command>" +:+ ", " +:+ q "workdir" +:+ ": " +:+ q "<dir>" +:+ ", " +:+ q "timeout" +:+ ": 120 }
- search: { " +:+ q "type" +:+ ": " +:+ q "search" +:+ ", " +:+ q "query" +:+ ": " +:+ q "<symbol or keyword>" +:+ " }
- ask_user: { " +:+ q "type" +:+ ": " +:+ q "ask_user" +:+ ", " +:+ q "question" +:+ ": " +:+ q "<clarifying question>" +:+ " }
- complete: { " +:+ q "type" +:+ ": " +:+ q "complete" +:+ ", " +:+ q "summary" +:+ ": " +:+ q "what you accomplished" +:+ " }
- fail: { " +:+ q "type" +:+ ": " +:+ q "fail" +:+ ", " +:+ q "reason" +:+ ": " +:+ q "why you cannot proceed" +:+ " }

Respond with a single JSON object describing the action.".

Definition summarizeStep (action : Action) (result : ActionResult) : string :=
  let status := if result.(Success) then "ok" else "err" in
  let output := strings.TrimSpace result.(Output) in
  let output :=
    if 240 <? strings.len output then String.substring 0 240 output +:+ "..." else output in
  action.(Type_) +:+ " " +:+ action.(Path) +:+ " → " +:+ status +:+ " (" +:+ output +:+ ")".

Section Run.

(** [json.Unmarshal] into an [Action]. *)
Variable jsonUnmarshal : string -> Action + string.
Variable bash : os.Bash.

Definition failedExecution (task : tasks.Task) (msg : string) : TaskExecution :=
  {| Task := task; Actions := []; Results := []; Completed := false; Failed := true;
     FailureMsg := msg |}.

(** The [for] loop of [executeTask] with [n] iterations left. *)
Fixpoint iterate (a : CodingAgent) (e : executor.Executor) (task : tasks.Task)
    (contextString : string) (n : nat) (w : World)
    (actions : list Action) (results : list ActionResult) (history : list string)
    : TaskExecution * World :=
  match n with
  | O =>
      ({| Task := task; Actions := actions; Results := results; Completed := false;
          Failed := true; FailureMsg := "max iterations reached before completion" |}, w)
  | S n' =>
      let prompt := buildActionDecisionPrompt task.(tasks.Description) contextString history in
      let answer :=
        a.(llmClient).(Chat) w.(calls)
          [ {| Message.Role := "system";
               Message.Content := "You are executing a coding task. Pick and emit ONE action in JSON. Do not add commentary outside JSON." |};
            {| Message.Role := "user"; Message.Content := prompt |} ] in
      let w := {| files := w.(files); calls := S w.(calls) |} in
      match answer with
      | inr err => (failedExecution task ("llm error: " +:+ err), w)
      | inl response =>
          match jsonUnmarshal (strings.TrimSpace response.(llm_client.Content)) with
          | inr err => (failedExecution task ("could not parse action JSON: " +:+ err), w)
          | inl action =>
              let actions := actions ++ [action] in
              let '(result, fs) := executor.Execute bash e w.(files) action in
              let w := {| files := fs; calls := w.(calls) |} in
              let results := results ++ [result] in
              let history := history ++ [summarizeStep action result] in
              if (String.eqb action.(Type_) ActionComplete
                  || String.eqb action.(Type_) ActionFail)%bool then
                ({| Task := task; Actions := actions; Results := results;
                    Completed := String.eqb action.(Type_) ActionComplete && result.(Success);
                    Failed := String.eqb action.(Type_) ActionFail || negb result.(Success);
                    FailureMsg := result.(Error) |}, w)
              else if negb result.(Success) then
                ({| Task := task; Actions := actions; Results := results;
                    Completed := false; Failed := true;
                    FailureMsg := result.(Error) |}, w)
              else iterate a e task contextString n' w actions results history
          end
      end
  end.

(** [make([]string, 0, maxIterations)] panics on a negative capacity. *)
Definition executeTask (a : CodingAgent) (w : World) (e : executor.Executor)
    (task : tasks.Task) (contextString : string) (maxIterations : Z)
    : outcome (TaskExecution * World) :=
  if maxIterations <? 0 then Panicked "runtime error: makeslice: cap out of range"
  else Returned (iterate a e task contextString (Z.to_nat maxIterations) w [] [] []).

Definition PlanTask (a : CodingAgent) (w : World) (userPrompt : string)
    : (tasks.TaskBreakdown + string) * World :=
  match a.(indexer) w.(files) a.(projectPath) with
  | inr err => (inr ("failed to index project: " +:+ err), w)
  | inl projIdx =>
      let projectContext := indexer.FetchContext projIdx userPrompt 10 in
      let contextStr := indexer.FormatContext projectContext in
      let taskPrompt := tasks.GenerateTaskPrompt userPrompt contextStr in
      let messages :=
        [ {| Message.Role := "system";
             Message.Content := "You are an expert coding assistant that helps break down development tasks into actionable steps." |};
          {| Message.Role := "user"; Message.Content := taskPrompt |} ] in
      let answer := a.(llmClient).(Chat) w.(calls) messages in
      let w := {| files := w.(files); calls := S w.(calls) |} in
      match answer with
      | inr err => (inr ("failed to get LLM response: " +:+ err), w)
      | inl response =>
          match tasks.ParseTasksFromLLM response.(llm_client.Content) with
          | inr err => (inr ("failed to parse tasks: " +:+ err), w)
          | inl breakdown =>
              (inl {| tasks.UserPrompt := userPrompt;
                      tasks.Summary := "Task breakdown for: " +:+ userPrompt;
                      tasks.Tasks := breakdown.(tasks.Tasks);
                      tasks.TotalTasks := breakdown.(tasks.TotalTasks);
                      tasks.Completed := breakdown.(tasks.Completed);
                      tasks.InProgress := breakdown.(tasks.InProgress);
                      tasks.Pending := breakdown.(tasks.Pending) |}, w)
          end
      end
  end.

(** The status the [switch] of [Run] gives a task after its execution. *)
Definition statusAfter (execResult : TaskExecution) : tasks.TaskStatus :=
  if execResult.(Completed) then tasks.TaskStatusCompleted
  else if execResult.(Failed) then tasks.TaskStatusBlocked
  else tasks.TaskStatusPending.

Definition withDetails (task : tasks.Task) (details : string) : tasks.Task :=
  {| tasks.ID := task.(tasks.ID);
     tasks.Description := task.(tasks.Description);
     tasks.Status := task.(tasks.Status);
     tasks.Details := details;
     tasks.FilePath := task.(tasks.FilePath);
     tasks.Line := task.(tasks.Line) |}.

(** The state of the loop of [Run] over the tasks of the plan. *)
Record RunState : Type := {
  st_plan : tasks.TaskBreakdown;
  st_world : World;
  st_executions : list TaskExecution
}.

(** The body of that loop for the task at index [i]. *)
Definition runTask (a : CodingAgent) (e : executor.Executor)
    (projectIndex : indexer.ProjectIndex) (opts : RunOptions)
    (st : outcome RunState) (i : nat) : outcome RunState :=
  match st with
  | Panicked msg => Panicked msg
  | Returned st =>
      match st.(st_plan).(tasks.Tasks) !! i with
      | None => Returned st
      | Some task =>
          let plan := fst (tasks.UpdateTaskStatus st.(st_plan) task.(tasks.ID)
                             tasks.TaskStatusInProgress) in
          let taskContext :=
            indexer.FetchContext projectIndex task.(tasks.Description)
              opts.(MaxContextResults) in
          let contextString := indexer.FormatContext taskContext in
          match executeTask a st.(st_world) e task contextString opts.(MaxIterations) with
          | Panicked msg => Panicked msg
          | Returned (execResult, w) =>
              let plan := fst (tasks.UpdateTaskStatus plan task.(tasks.ID)
                                 (statusAfter execResult)) in
              let details :=
                "Ran " +:+ strings.itoa (Z.of_nat (length execResult.(Actions)))
                +:+ " action(s)" in
              let plan :=
                tasks.withTasks plan
                  (alter (fun t => withDetails t details) i plan.(tasks.Tasks)) in
              Returned {| st_plan := plan; st_world := w;
                          st_executions := st.(st_executions) ++ [execResult] |}
          end
      end
  end.

Definition withDefaults (opts : RunOptions) : RunOptions :=
  {| DryRun := opts.(DryRun);
     MaxIterations := if opts.(MaxIterations) <=? 0 then 25 else opts.(MaxIterations);
     MaxContextResults :=
       if opts.(MaxContextResults) <=? 0 then 8 else opts.(MaxContextResults) |}.

Definition Run (a : CodingAgent) (w : World) (userPrompt : string) (opts : RunOptions)
    : outcome ((RunResult + string) * World) :=
  let opts := withDefaults opts in
  match a.(indexer) w.(files) a.(projectPath) with
  | inr err => Returned (inr ("failed to index project: " +:+ err), w)
  | inl projectIndex =>
      match PlanTask a w userPrompt with
      | (inr err, w) => Returned (inr err, w)
      | (inl plan, w) =>
          let e := executor.NewExecutor
                     {| executor.ProjectRoot := a.(projectPath);
                        executor.Index := Some projectIndex;
                        executor.DryRun := opts.(DryRun);
                        executor.Blocklist := [] |} in
          let n := length plan.(tasks.Tasks) in
          match fold_left (runTask a e projectIndex opts) (seq 0 n)
                  (Returned {| st_plan := plan; st_world := w; st_executions := [] |}) with
          | Panicked msg => Panicked msg
          | Returned st =>
              Returned (inl {| Plan := tasks.UpdateStats st.(st_plan);
                               Executions := st.(st_executions) |}, st.(st_world))
          end
      end
  end.

End Run.

End runner.

(* ===================================================================== *)
(** * Go's [crypto/sha256] and [encoding/hex]                             *)
(* ===================================================================== *)

Module sha256.

Definition w32 (z : Z) : Z := z mod 2 ^ 32.
Definition add32 (a b : Z) : Z := w32 (a + b).
Definition rotr (n x : Z) : Z := Z.lor (Z.shiftr x n) (w32 (Z.shiftl x (32 - n))).

(** The primes below [n], smallest first. *)
Definition primesBelow (n : nat) : list Z :=
List.filter (fun p => forallb (fun d => negb (p mod d =? 0)) (map Z.of_nat (seq 2 (Z.to_nat p - 2))))
            (map Z.of_nat (seq 2 (n - 2))).

(** The integer cube root of [x], found bit by bit from bit [n] down. *)
Fixpoint cubeRoot (n : nat) (x r : Z) : Z :=
match n with
| O => r
| S n' =>
    let r' := r + 2 ^ Z.of_nat n' in
    cubeRoot n' x (if r' * r' * r' <=? x then r' else r)
end.

(** The round constants: the first 32 bits of the fractional parts of
    the cube roots of the first 64 primes. *)
Definition K : list Z :=
Eval vm_compute in map (fun p => w32 (cubeRoot 36 (p * 2 ^ 96) 0)) (primesBelow 312).

(** The initial hash value: the first 32 bits of the fractional parts of
    the square roots of the first 8 primes. *)
Definition H0 : list Z :=
Eval vm_compute in map (fun p => w32 (Z.sqrt (p * 2 ^ 64))) (primesBelow 20).

(** The bytes of a string. *)
Definition bytes (s : string) : list Z :=
  map (fun c => Z.of_nat (nat_of_ascii c)) (list_ascii_of_string s).

(** Big-endian bytes of [z], [n] of them. *)
Fixpoint be (n : nat) (z : Z) : list Z :=
  match n with
  | O => []
  | S n' => be n' (Z.shiftr z 8) ++ [z mod 256]
  end.

Definition pad (msg : list Z) : list Z :=
  let l := Z.of_nat (length msg) in
  let zeros := Z.to_nat ((55 - l) mod 64) in
  msg ++ [128] ++ repeat 0 zeros ++ be 8 (8 * l).

Fixpoint words (n : nat) (bs : list Z) : list Z :=
  match n with
  | O => []
  | S n' =>
      match bs with
      | a :: b :: c :: d :: rest =>
          (Z.shiftl a 24 + Z.shiftl b 16 + Z.shiftl c 8 + d) :: words n' rest
      | _ => []
      end
  end.

Definition sigma0 (x : Z) : Z := Z.lxor (Z.lxor (rotr 7 x) (rotr 18 x)) (Z.shiftr x 3).
Definition sigma1 (x : Z) : Z := Z.lxor (Z.lxor (rotr 17 x) (rotr 19 x)) (Z.shiftr x 10).
Definition Sigma0 (x : Z) : Z := Z.lxor (Z.lxor (rotr 2 x) (rotr 13 x)) (rotr 22 x).
Definition Sigma1 (x : Z) : Z := Z.lxor (Z.lxor (rotr 6 x) (rotr 11 x)) (rotr 25 x).
Definition Ch (x y z : Z) : Z := Z.lxor (Z.land x y) (Z.land (Z.lxor x (2 ^ 32 - 1)) z).
Definition Maj (x y z : Z) : Z := Z.lxor (Z.lxor (Z.land x y) (Z.land x z)) (Z.land y z).

(** The message schedule, latest word first; [n] words are still to be
    added. *)
Fixpoint schedule (n : nat) (w : list Z) : list Z :=
  match n with
  | O => w
  | S n' =>
      let x := add32 (add32 (sigma1 (nth 1 w 0)) (nth 6 w 0))
                     (add32 (sigma0 (nth 14 w 0)) (nth 15 w 0)) in
      schedule n' (x :: w)
  end.

Definition round (st : list Z) (kw : Z * Z) : list Z :=
  match st with
  | [a; b; c; d; e; f; g; h] =>
      let t1 := add32 (add32 (add32 h (Sigma1 e)) (add32 (Ch e f g) (fst kw))) (snd kw) in
      let t2 := add32 (Sigma0 a) (Maj a b c) in
      [add32 t1 t2; a; b; c; add32 d t1; e; f; g]
  | _ => st
  end.

Definition block (h : list Z) (bs : list Z) : list Z :=
  let w := List.rev (schedule 48 (List.rev (words 16 bs))) in
  let st := fold_left round (combine K w) h in
  map (fun p => add32 (fst p) (snd p)) (combine h st).

Fixpoint blocks (n : nat) (h : list Z) (bs : list Z) : list Z :=
  match n with
  | O => h
  | S n' => blocks n' (block h (take 64 bs)) (drop 64 bs)
  end.

(** [sha256.Sum256] *)
Definition Sum (msg : list Z) : list Z :=
  let p := pad msg in
  flat_map (be 4) (blocks (length p / 64) H0 p).

Definition hexdigit (n : Z) : ascii :=
  ascii_of_nat (Z.to_nat (if n <? 10 then 48 + n else 87 + n)).

(** [hex.EncodeToString] *)
Definition EncodeToString (bs : list Z) : string :=
  string_of_list_ascii (flat_map (fun b => [hexdigit (b / 16); hexdigit (b mod 16)]) bs).

End sha256.

(* ===================================================================== *)
(** * Go's [float32]                                                      *)
(* ===================================================================== *)

Module float32.

Definition prec : Z := 24.
Definition emax : Z := 128.

Definition t : Type := spec_float.

Definition mul (a b : t) : t := SFmul prec emax a b.

(** [a > b] *)
Definition gt (a b : t) : bool := SFltb b a.

(** The [float32] nearest to the constant [n / d] (ties to even), as
    the compiler converts an untyped constant. *)
Definition const (n d : Z) : t :=
  SFdiv prec emax (binary_normalize prec emax n 0 false) (binary_normalize prec emax d 0 false).

End float32.

(* ===================================================================== *)
(** * Package [rag]: chunks and results (types.go)                        *)
(* ===================================================================== *)

Module rag.

Record Chunk : Type := {
  ID : string;
  FilePath : string;
  StartLine : Z;
EndLine : Z;
ChunkType : string;
SymbolName : string;
Language : string;
Content : string;
TokenCount : Z;
Hash : string
}.

Definition computeHash (content : string) : string :=
  sha256.EncodeToString (sha256.Sum (sha256.bytes content)).

Definition estimateTokens (text : string) : Z :=
  Z.quot (strings.len text) 4.

Definition NewChunk (filePath content chunkType symbolName language : string)
    (startLine endLine : Z) : Chunk :=
  let hash := computeHash content in
  {| ID := String.substring 0 16 hash;
     FilePath := filePath;
     StartLine := startLine;
EndLine := endLine;
ChunkType := chunkType;
SymbolName := symbolName;
Language := language;
Content := content;
TokenCount := estimateTokens content;
Hash := hash |}.

Module SearchResult.
Record t : Type := {
  Chunk : Chunk;
  Score : float32.t;
  Source : string
}.
End SearchResult.

Module LineRange.
(** The field [End] of the source is [End_] here. *)
Record t : Type := { Start : Z; End_ : Z }.
End LineRange.

Module FileResult.
Record t : Type := {
  Path : string;
  Content : string;
  Relevance : float32.t;
  Source : string;
  Highlights : list LineRange.t;
  Chunks : list Chunk
}.
End FileResult.

Module Sources.
Record t : Type := { Indexer : Z; RAG : Z }.
End Sources.

Module HybridResult.
Record t : Type := {
  Files : list FileResult.t;
  TotalTokens : Z;
  QueryType : string;
  Sources : Sources.t
}.
End HybridResult.

End rag.

(* ===================================================================== *)
(** * Package [rag]: the oversize split of the chunker (chunker.go)       *)
(* ===================================================================== *)

(** Indices into a slice and the part counter stay below the length of
    the slice and are natural numbers; line numbers are [int]s. *)
Module chunker.

Import rag.

Definition maxChunkSize : Z := 4000.
Definition overlapLines : nat := 10.

Definition linesPerChunk : nat :=
  let n := Z.to_nat (Z.quot maxChunkSize 40) in
  if (100 <? n)%nat then 100%nat else n.

(** The values [i] takes in [for i := 0; i < n; i += stride]. *)
Definition loopIndices (n stride : nat) : list nat :=
  map (fun k => (k * stride)%nat) (seq 0 (Nat.div (n + stride - 1) stride)).

(** The state of the loop of [splitLargeChunk]; [stopped] is set by
    [break]. *)
Record SplitState : Type := {
  chunks : list Chunk;
  partNum : nat;
  stopped : bool
}.

(** The body of that loop at index [i]. *)
Definition splitStep (filePath chunkType symbolName language : string) (start : Z)
    (lines : list string) (st : SplitState) (i : nat) : SplitState :=
  if st.(stopped) then st
  else
    let endIdx := (i + linesPerChunk)%nat in
    let endIdx := if (length lines <? endIdx)%nat then length lines else endIdx in
    let subContent := strings.Join (take (endIdx - i) (drop i lines)) (String "010" "") in
    if strings.len (strings.TrimSpace subContent) <? 20 then st
    else
      let partSymbol :=
        if ((1 <? st.(partNum))%nat || (endIdx <? length lines)%nat)%bool
        then symbolName +:+ "_part" +:+ strings.itoa (Z.of_nat st.(partNum))
        else symbolName in
      let chunk :=
        NewChunk filePath subContent chunkType partSymbol language
          (Int.add start (Z.of_nat i))
          (Int.add (Int.add start (Z.of_nat endIdx)) (-1)) in
      {| chunks := st.(chunks) ++ [chunk];
         partNum := S st.(partNum);
         stopped := (length lines <=? endIdx)%nat |}.

Definition splitLargeChunk (filePath content chunkType symbolName language : string)
    (start end_ : Z) : list Chunk :=
  if strings.len content <=? maxChunkSize then
    [NewChunk filePath content chunkType symbolName language start end_]
  else
    let lines := strings.Split content "010"%char in
    let st :=
      fold_left (splitStep filePath chunkType symbolName language start lines)
        (loopIndices (length lines) (linesPerChunk - overlapLines))
        {| chunks := []; partNum := 1; stopped := false |} in
    st.(chunks).

End chunker.

(* ===================================================================== *)
(** * Package [rag]: the SQLite vector store                              *)
(* ===================================================================== *)

(** The database is its one table, [chunks], as a finite map from the
    primary key [id] to the other columns.  A transaction works on a copy
    of the table that [Commit] installs and [Rollback] drops.  A vector
    is carried as the bit patterns [math.Float32bits] gives its
    components. *)
Module store.

Import rag.

Record Row : Type := {
  file_path : string;
  start_line : Z;
  end_line : Z;
  chunk_type : string;
  symbol_name : string;
  language : string;
  content : string;
  token_count : Z;
  hash : string;
  embedding : list Z
}.

Record SQLiteVectorStore : Type := {
  db : gmap string Row;
  dims : Z
}.

(** The database calls of [InsertBatch] that can fail, each with the
    error it returns, if any; [exec_error i] is for the statement of
    the [i]-th chunk. *)
Record Faults : Type := {
  begin_error : option string;
  prepare_error : option string;
  exec_error : nat -> option string;
  commit_error : option string
}.

Definition noFaults : Faults :=
  {| begin_error := None; prepare_error := None; exec_error := fun _ => None;
     commit_error := None |}.

(** [binary.LittleEndian.PutUint32] *)
Definition PutUint32 (v : Z) : list Z :=
  [v mod 256; (v / 256) mod 256; (v / 65536) mod 256; (v / 16777216) mod 256].

Definition encodeEmbedding (vec : list Z) : list Z := flat_map PutUint32 vec.

Definition rowOf (chunk : Chunk) (blob : list Z) : Row :=
  {| file_path := chunk.(FilePath);
     start_line := chunk.(StartLine);
     end_line := chunk.(EndLine);
     chunk_type := chunk.(ChunkType);
     symbol_name := chunk.(SymbolName);
     language := chunk.(Language);
     content := chunk.(Content);
     token_count := chunk.(TokenCount);
     hash := chunk.(Hash);
     embedding := blob |}.

(** The loop of [InsertBatch] inside the transaction [tx], from the
    [i]-th chunk on: the table to commit, or the error after which the
    transaction is rolled back. *)
Fixpoint insertAll (f : Faults) (dims : Z) (i : nat) (batch : list (Chunk * list Z))
    (tx : gmap string Row) : gmap string Row + string :=
  match batch with
  | [] => inl tx
  | (chunk, emb) :: rest =>
      if negb (Z.of_nat (length emb) =? dims) then
        inr ("embedding dims mismatch: expected " +:+ strings.itoa dims +:+ " got "
             +:+ strings.itoa (Z.of_nat (length emb)))
      else
        match f.(exec_error) i with
        | Some err => inr ("insert chunk " +:+ chunk.(FilePath) +:+ ": " +:+ err)
        | None =>
            insertAll f dims (S i) rest
              (<[chunk.(ID) := rowOf chunk (encodeEmbedding emb)]> tx)
        end
  end.

Definition InsertBatch (f : Faults) (s : SQLiteVectorStore) (chunks : list Chunk)
    (embeddings : list (list Z)) : SQLiteVectorStore * option string :=
  if negb (length chunks =? length embeddings)%nat then
    (s, Some ("chunks and embeddings length mismatch: "
              +:+ strings.itoa (Z.of_nat (length chunks)) +:+ " vs "
              +:+ strings.itoa (Z.of_nat (length embeddings))))
  else
    match f.(begin_error) with
    | Some err => (s, Some ("begin tx: " +:+ err))
    | None =>
        match f.(prepare_error) with
        | Some err => (s, Some ("prepare insert: " +:+ err))
        | None =>
            match insertAll f s.(dims) 0 (zip chunks embeddings) s.(db) with
            | inr err => (s, Some err)
            | inl tx =>
                match f.(commit_error) with
                | Some err => (s, Some ("commit: " +:+ err))
                | None => ({| db := tx; dims := s.(dims) |}, None)
                end
            end
        end
    end.

Definition Insert (f : Faults) (s : SQLiteVectorStore) (chunk : Chunk) (embedding : list Z)
    : SQLiteVectorStore * option string :=
  InsertBatch f s [chunk] [embedding].

Definition Count (s : SQLiteVectorStore) : Z := Z.of_nat (size s.(db)).

Definition Delete (s : SQLiteVectorStore) (filePath : string) : SQLiteVectorStore :=
  {| db := filter (fun kv => kv.2.(file_path) <> filePath) s.(db); dims := s.(dims) |}.

Definition Clear (s : SQLiteVectorStore) : SQLiteVectorStore :=
  {| db := ∅; dims := s.(dims) |}.

End store.

(* ===================================================================== *)
(** * Package [retrieval]: the query analyzer (query_analyzer.go)         *)
(* ===================================================================== *)

Module query_analyzer.

Definition QueryType : Type := string.

Definition StructuralQuery : QueryType := "structural".
Definition SemanticQuery : QueryType := "semantic".
Definition HybridQuery : QueryType := "hybrid".

Definition isUpper (c : ascii) : bool :=
  let n := nat_of_ascii c in ((65 <=? n) && (n <=? 90))%nat%bool.

Definition isAlnum (c : ascii) : bool :=
  let n := nat_of_ascii c in
  (((65 <=? n) && (n <=? 90)) || ((97 <=? n) && (n <=? 122)) || ((48 <=? n) && (n <=? 57)))%nat%bool.

(** [symbolPattern.FindAllString(s, -1)] for the expression
    [[A-Z][a-zA-Z0-9]*]: the successive leftmost longest matches.
    [cur] is the match being read, if any. *)
Fixpoint FindAllString (s : string) (cur : option string) : list string :=
  match s with
  | EmptyString => match cur with Some m => [m] | None => [] end
  | String c r =>
      match cur with
      | Some m =>
          if isAlnum c then FindAllString r (Some (m +:+ String c EmptyString))
          else m :: FindAllString r None
      | None =>
          if isUpper c then FindAllString r (Some (String c EmptyString))
          else FindAllString r None
      end
  end.

Record QueryAnalyzer : Type := {
  conceptWords : list string;
  behaviorWords : list string;
  callGraphWords : list string
}.

Definition NewQueryAnalyzer : QueryAnalyzer :=
  {| conceptWords := ["how"; "where"; "why"; "find"; "search"; "explain"; "show me"];
     behaviorWords := ["handle"; "process"; "validate"; "check"; "manage"; "create"; "update";
                       "delete"];
     callGraphWords := ["calls"; "called by"; "uses"; "used by"; "depends on"; "imports"] |}.

Definition commonWords : gmap string bool :=
  list_to_map [("I", true); ("A", true); ("The", true); ("This", true); ("That", true);
               ("What", true); ("How", true); ("Where", true); ("Why", true)].

Definition hasSymbols (qa : QueryAnalyzer) (query : string) : bool :=
  let matches := FindAllString query None in
  existsb (fun m => negb (default false (commonWords !! m)) && (1 <? strings.len m))%bool
          matches.

Definition containsAny (qa : QueryAnalyzer) (text : string) (words : list string) : bool :=
  existsb (fun word => strings.Contains text word) words.

Definition Classify (qa : QueryAnalyzer) (query : string) : QueryType :=
  let query := strings.ToLower query in
  let hasSymbol := hasSymbols qa query in
  let hasFilePath :=
    (strings.Contains query "/" || strings.Contains query ".go"
     || strings.Contains query ".py")%bool in
  let hasCallGraph := containsAny qa query qa.(callGraphWords) in
  let hasConcept := containsAny qa query qa.(conceptWords) in
  let hasBehavior := containsAny qa query qa.(behaviorWords) in
  if ((hasSymbol || hasFilePath || hasCallGraph) && negb hasConcept && negb hasBehavior)%bool
  then StructuralQuery
  else if ((hasConcept || hasBehavior) && negb hasSymbol && negb hasFilePath)%bool
  then SemanticQuery
  else HybridQuery.

End query_analyzer.

(* ===================================================================== *)
(** * Package [retrieval]: the result merger (merger.go)                  *)
(* ===================================================================== *)

Module merger.

Import rag.

Record ResultMerger : Type := { maxTokens : Z }.

Definition NewResultMerger (maxTokens : Z) : ResultMerger := {| maxTokens := maxTokens |}.

Definition max (a b : float32.t) : float32.t := if float32.gt a b then a else b.

(** The constants [1.2], [1.3] and [0.9] at type [float32]. *)
Definition c1_2 : float32.t := Eval vm_compute in float32.const 12 10.
Definition c1_3 : float32.t := Eval vm_compute in float32.const 13 10.
Definition c0_9 : float32.t := Eval vm_compute in float32.const 9 10.

(** What the two loops of [Merge] build: the map from path to file
    result and the two counters. *)
Record MergeState : Type := {
  fileMap : gmap string FileResult.t;
  sources : Sources.t
}.

(** The body of the loop over the RAG results. *)
Definition addRAG (st : MergeState) (res : SearchResult.t) : MergeState :=
  let chunk := res.(SearchResult.Chunk) in
  let filePath := chunk.(FilePath) in
  match st.(fileMap) !! filePath with
  | Some existing =>
      {| fileMap :=
           <[filePath :=
               {| FileResult.Path := existing.(FileResult.Path);
                  FileResult.Content := existing.(FileResult.Content);
                  FileResult.Relevance :=
                    float32.mul (max existing.(FileResult.Relevance) res.(SearchResult.Score))
                                c1_2;
                  FileResult.Source := "both";
                  FileResult.Highlights := existing.(FileResult.Highlights);
                  FileResult.Chunks := existing.(FileResult.Chunks) ++ [chunk] |}]>
             st.(fileMap);
         sources := st.(sources) |}
  | None =>
      {| fileMap :=
           <[filePath :=
               {| FileResult.Path := filePath;
                  FileResult.Content := "";
                  FileResult.Relevance := res.(SearchResult.Score);
                  FileResult.Source := "rag";
                  FileResult.Highlights :=
                    [ {| LineRange.Start := chunk.(StartLine);
                         LineRange.End_ := chunk.(EndLine) |} ];
                  FileResult.Chunks := [chunk] |}]>
             st.(fileMap);
         sources := {| Sources.Indexer := st.(sources).(Sources.Indexer);
                       Sources.RAG := Int.add st.(sources).(Sources.RAG) 1 |} |}
  end.

(** The body of the loop over the paths of the indexer. *)
Definition addIndexer (st : MergeState) (filePath : string) : MergeState :=
  match st.(fileMap) !! filePath with
  | Some existing =>
      {| fileMap :=
           <[filePath :=
               {| FileResult.Path := existing.(FileResult.Path);
                  FileResult.Content := existing.(FileResult.Content);
                  FileResult.Relevance := float32.mul existing.(FileResult.Relevance) c1_3;
                  FileResult.Source := "both";
                  FileResult.Highlights := existing.(FileResult.Highlights);
                  FileResult.Chunks := existing.(FileResult.Chunks) |}]>
             st.(fileMap);
         sources := st.(sources) |}
  | None =>
      {| fileMap :=
           <[filePath :=
               {| FileResult.Path := filePath;
                  FileResult.Content := "";
                  FileResult.Relevance := c0_9;
                  FileResult.Source := "indexer";
                  FileResult.Highlights := [];
                  FileResult.Chunks := [] |}]>
             st.(fileMap);
         sources := {| Sources.Indexer := Int.add st.(sources).(Sources.Indexer) 1;
                       Sources.RAG := st.(sources).(Sources.RAG) |} |}
  end.

(** The token estimate [truncateToTokenBudget] computes for a file. *)
Definition fileTokens (fileResult : FileResult.t) : Z :=
  let fileTokens :=
    fold_left (fun acc chunk => Int.add acc chunk.(TokenCount)) fileResult.(FileResult.Chunks) 0 in
  if fileTokens =? 0 then 500 else fileTokens.

(** The loop of [truncateToTokenBudget]. *)
Fixpoint truncateLoop (m : ResultMerger) (files : list FileResult.t) (totalTokens : Z)
    (truncated : list FileResult.t) : list FileResult.t * Z :=
  match files with
  | [] => (truncated, totalTokens)
  | fileResult :: rest =>
      let fileTokens := fileTokens fileResult in
      if m.(maxTokens) <? Int.add totalTokens fileTokens then (truncated, totalTokens)
      else truncateLoop m rest (Int.add totalTokens fileTokens) (truncated ++ [fileResult])
  end.

Definition truncateToTokenBudget (m : ResultMerger) (result : HybridResult.t) : HybridResult.t :=
  let '(truncated, totalTokens) := truncateLoop m result.(HybridResult.Files) 0 [] in
  {| HybridResult.Files := truncated;
     HybridResult.TotalTokens := totalTokens;
     HybridResult.QueryType := result.(HybridResult.QueryType);
     HybridResult.Sources := result.(HybridResult.Sources) |}.

Section Merge.

(** The order in which [range] visits the values of the map: any. *)
Variable rangeMap : gmap string FileResult.t -> list FileResult.t.

(** [sort.Slice]: some rearrangement of the slice, in order when
    [less] is an order. *)
Variable sortSlice :
  (FileResult.t -> FileResult.t -> bool) -> list FileResult.t -> list FileResult.t.

Definition Merge (m : ResultMerger) (ragResults : list SearchResult.t)
    (indexerFiles : list string) : HybridResult.t :=
  let st := {| fileMap := ∅; sources := {| Sources.Indexer := 0; Sources.RAG := 0 |} |} in
  let st := fold_left addRAG ragResults st in
  let st := fold_left addIndexer indexerFiles st in
  let files := rangeMap st.(fileMap) in
  let files :=
    sortSlice (fun fi fj => float32.gt fi.(FileResult.Relevance) fj.(FileResult.Relevance))
              files in
  truncateToTokenBudget m
    {| HybridResult.Files := files;
       HybridResult.TotalTokens := 0;
       HybridResult.QueryType := "";
       HybridResult.Sources := st.(sources) |}.

End Merge.

(** One admissible behaviour of [range] and [sort.Slice], to run
    [Merge] on examples: paths in the order of the map's keys, and a
    stable insertion sort. *)
Definition rangeByKey (m : gmap string FileResult.t) : list FileResult.t :=
  (map_to_list m).*2.

Fixpoint insertSorted (less : FileResult.t -> FileResult.t -> bool) (x : FileResult.t)
    (l : list FileResult.t) : list FileResult.t :=
  match l with
  | [] => [x]
  | y :: l' => if less y x then y :: insertSorted less x l' else x :: l
  end.

Definition insertionSort (less : FileResult.t -> FileResult.t -> bool)
    (l : list FileResult.t) : list FileResult.t :=
  foldr (insertSorted less) [] l.

End merger.

(* ===================================================================== *)
(** * Go's [float64] and [math]                                           *)
(* ===================================================================== *)

(** Each floating-point operation rounds on its own (to nearest, ties
    to even), as the compiler emits them for amd64; no product is fused
    with a sum. *)
Module float64.

Definition prec : Z := 53.
Definition emax : Z := 1024.

Definition t : Type := spec_float.

(** [float64(x)] for a [float32]: exact. *)
Definition of_float32 (x : float32.t) : t :=
  match x with
  | S754_finite s m e => binary_normalize prec emax (cond_Zopp s (Zpos m)) e s
  | _ => x
  end.

(** [float32(x)] for a [float64]: rounded. *)
Definition to_float32 (x : t) : float32.t :=
  match x with
  | S754_finite s m e => binary_normalize float32.prec float32.emax (cond_Zopp s (Zpos m)) e s
  | _ => x
  end.

End float64.

Module math.

(** [math.Sqrt] *)
Definition Sqrt (x : float64.t) : float64.t := SFsqrt float64.prec float64.emax x.

(** [math.MaxFloat32] as a [float32] *)
Definition MaxFloat32 : float32.t := S754_finite false (2 ^ 24 - 1) 104.

(** [math.Float32frombits] *)
Definition Float32frombits (b : Z) : float32.t :=
  let s := Z.testbit b 31 in
  let e := (b / 2 ^ 23) mod 256 in
  let m := b mod 2 ^ 23 in
  if e =? 255 then (if m =? 0 then S754_infinity s else S754_nan)
  else if e =? 0 then
    match m with
    | Zpos p => S754_finite s p (-149)
    | _ => S754_zero s
    end
  else
    match m + 2 ^ 23 with
    | Zpos p => S754_finite s p (e - 150)
    | _ => S754_nan
    end.

End math.

(* ===================================================================== *)
(** * Package [rag]: similarity of vectors                                *)
(* ===================================================================== *)

Module vectors.

Definition zero : float32.t := S754_zero false.

Definition add (a b : float32.t) : float32.t := SFadd float32.prec float32.emax a b.
Definition sub (a b : float32.t) : float32.t := SFsub float32.prec float32.emax a b.
Definition div (a b : float32.t) : float32.t := SFdiv float32.prec float32.emax a b.

(** [float32(math.Sqrt(float64(x)))] *)
Definition sqrt (x : float32.t) : float32.t :=
  float64.to_float32 (math.Sqrt (float64.of_float32 x)).

(** The body of the loop of [cosineSimilarity], on the components at
    one index. *)
Definition cosineStep (acc : float32.t * float32.t * float32.t) (xy : float32.t * float32.t)
    : float32.t * float32.t * float32.t :=
  let '(dotProduct, normA, normB) := acc in
  let '(x, y) := xy in
  (add dotProduct (float32.mul x y), add normA (float32.mul x x), add normB (float32.mul y y)).

Definition cosineSimilarity (a b : list float32.t) : float32.t :=
  if negb (length a =? length b)%nat then zero
  else
    let '(dotProduct, normA, normB) := fold_left cosineStep (zip a b) (zero, zero, zero) in
    if (SFeqb normA zero || SFeqb normB zero)%bool then zero
    else div dotProduct (float32.mul (sqrt normA) (sqrt normB)).

Definition euclideanDistance (a b : list float32.t) : float32.t :=
  if negb (length a =? length b)%nat then math.MaxFloat32
  else
    let sum :=
      fold_left (fun sum xy => let diff := sub xy.1 xy.2 in add sum (float32.mul diff diff))
                (zip a b) zero in
    sqrt sum.

End vectors.

(* ===================================================================== *)
(** * Package [rag]: reading the SQLite vector store                      *)
(* ===================================================================== *)

Module store_search.

Import rag store runner.

(** The most bytes the runtime grants one allocation (64-bit Linux);
    [make] panics beyond it. *)
Definition maxAlloc : Z := 2 ^ 48.

(** [binary.LittleEndian.Uint32] of four bytes. *)
Definition Uint32 (b0 b1 b2 b3 : Z) : Z := b0 + 256 * b1 + 65536 * b2 + 16777216 * b3.

(** The loop of [decodeEmbedding]: one word for every four bytes. *)
Fixpoint decodeWords (data : list Z) : list Z :=
  match data with
  | b0 :: b1 :: b2 :: b3 :: rest => Uint32 b0 b1 b2 b3 :: decodeWords rest
  | _ => []
  end.

(** [decodeEmbedding]; the vector is carried as the bit patterns of its
    components, as in [encodeEmbedding]. *)
Definition decodeEmbedding (data : list Z) (dims : Z) : outcome (list Z + string) :=
  if negb (Z.of_nat (length data) =? Int.mul dims 4) then
    Returned (inr ("embedding length mismatch: want " +:+ strings.itoa (Int.mul dims 4)
                   +:+ " bytes got " +:+ strings.itoa (Z.of_nat (length data))))
  else if ((dims <? 0) || (maxAlloc <? 4 * dims))%bool then
    Panicked "runtime error: makeslice: len out of range"
  else Returned (inl (decodeWords data)).

(** The database calls of [Search] that can fail; [scan_error i] is
    for the [i]-th row read. *)
Record ReadFaults : Type := {
  query_error : option string;
  scan_error : nat -> option string;
  rows_error : option string
}.

Definition noReadFaults : ReadFaults :=
  {| query_error := None; scan_error := fun _ => None; rows_error := None |}.

Definition chunkOf (id : string) (row : Row) : Chunk :=
  {| ID := id;
     FilePath := row.(file_path);
     StartLine := row.(start_line);
     EndLine := row.(end_line);
     ChunkType := row.(chunk_type);
     SymbolName := row.(symbol_name);
     Language := row.(language);
     Content := row.(content);
     TokenCount := row.(token_count);
     Hash := row.(hash) |}.

(** The loop of [Search] over the rows, from the [i]-th on. *)
Fixpoint scanRows (f : ReadFaults) (dims : Z) (queryEmbedding : list Z) (i : nat)
    (rows : list (string * Row)) (results : list SearchResult.t)
    : outcome (list SearchResult.t + string) :=
  match rows with
  | [] => Returned (inl results)
  | (id, row) :: rest =>
      match f.(scan_error) i with
      | Some err => Returned (inr ("scan chunk: " +:+ err))
      | None =>
          match decodeEmbedding row.(embedding) dims with
          | Panicked msg => Panicked msg
          | Returned (inr err) => Returned (inr ("decode embedding: " +:+ err))
          | Returned (inl vec) =>
              let score :=
                vectors.cosineSimilarity (math.Float32frombits <$> queryEmbedding)
                                         (math.Float32frombits <$> vec) in
              scanRows f dims queryEmbedding (S i) rest
                (results ++ [ {| SearchResult.Chunk := chunkOf id row;
                                 SearchResult.Score := score;
                                 SearchResult.Source := "rag" |} ])
          end
      end
  end.

Section Search.

(** The order in which the query returns the rows: any. *)
Variable selectAll : gmap string Row -> list (string * Row).

(** [sort.Slice]: some rearrangement of the slice. *)
Variable sortSlice :
  (SearchResult.t -> SearchResult.t -> bool) -> list SearchResult.t -> list SearchResult.t.

Definition Search (f : ReadFaults) (s : SQLiteVectorStore) (queryEmbedding : list Z) (topK : Z)
    : outcome (list SearchResult.t + string) :=
  match f.(query_error) with
  | Some err => Returned (inr ("select embeddings: " +:+ err))
  | None =>
      if ((topK <? 0) || (maxAlloc <? 8 * topK))%bool then
        Panicked "runtime error: makeslice: cap out of range"
      else
        match scanRows f s.(dims) queryEmbedding 0 (selectAll s.(db)) [] with
        | Panicked msg => Panicked msg
        | Returned (inr err) => Returned (inr err)
        | Returned (inl results) =>
            match f.(rows_error) with
            | Some err => Returned (inr ("iterate rows: " +:+ err))
            | None =>
                let results :=
                  if (1 <? length results)%nat then
                    sortSlice (fun ri rj => float32.gt ri.(SearchResult.Score)
                                                       rj.(SearchResult.Score)) results
                  else results in
                let topK :=
                  if Z.of_nat (length results) <? topK then Z.of_nat (length results) else topK in
                Returned (inl (take (Z.to_nat topK) results))
            end
        end
  end.

End Search.

End store_search.

(* ===================================================================== *)
(** * The MCP server: the execution log (cmd/mcp-server/main.go)          *)
(* ===================================================================== *)

Module mcp_server.

Import action runner.

(** The body of the inner loop of [formatExecutionLog] for the action
    at index [i]; [e.Results[i]] panics when there is no such result. *)
Definition logAction (results : list ActionResult) (b : outcome string) (ia : nat * Action)
    : outcome string :=
  match b with
  | Panicked msg => Panicked msg
  | Returned b =>
      match results !! ia.1 with
      | None =>
          Panicked ("runtime error: index out of range [" +:+ strings.itoa (Z.of_nat ia.1)
                    +:+ "] with length " +:+ strings.itoa (Z.of_nat (length results)))
      | Some res =>
          let out := strings.TrimSpace res.(Output) in
          let out :=
            if 160 <? strings.len out then String.substring 0 160 out +:+ "..." else out in
          let b :=
            b +:+ "  • " +:+ ia.2.(Type_) +:+ " " +:+ ia.2.(Path) +:+ " -> "
              +:+ (if res.(Success) then "true" else "false") +:+ "
" in
          let b := if negb (String.eqb out "") then b +:+ "    " +:+ out +:+ "
" else b in
          let b :=
            if negb (String.eqb res.(Error) "") then b +:+ "    error: " +:+ res.(Error) +:+ "
"
            else b in
          Returned b
      end
  end.

(** The body of the outer loop. *)
Definition logExecution (b : outcome string) (e : TaskExecution) : outcome string :=
  match b with
  | Panicked msg => Panicked msg
  | Returned b =>
      let status :=
        if e.(Completed) then "done" else if e.(Failed) then "failed" else "pending" in
      let b := b +:+ "- " +:+ e.(Task).(tasks.Description) +:+ " [" +:+ status +:+ "]
" in
      match fold_left (logAction e.(Results)) (imap pair e.(Actions)) (Returned b) with
      | Panicked msg => Panicked msg
      | Returned b =>
          Returned (if negb (String.eqb e.(FailureMsg) "")
                    then b +:+ "  failure: " +:+ e.(FailureMsg) +:+ "
"
                    else b)
      end
  end.

Definition formatExecutionLog (exec : list TaskExecution) : outcome string :=
  fold_left logExecution exec (Returned "Execution log:
").

End mcp_server.

(* ===================================================================== *)
(** * Package [rag]: the chunkers (chunker.go)                            *)
(* ===================================================================== *)

Module chunkers.

Import rag chunker runner.

(** [strings.TrimLeft(s, " \t")] *)
Fixpoint TrimLeftBlank (s : string) : string :=
  match s with
  | String c r =>
      if (Ascii.eqb c " "%char || Ascii.eqb c "009"%char)%bool then TrimLeftBlank r else s
  | EmptyString => s
  end.

Definition leadingIndent (s : string) : Z :=
  strings.len s - strings.len (TrimLeftBlank s).

(** [strings.TrimSuffix(s, ":")] *)
Definition TrimSuffixColon (s : string) : string :=
  match strings.rev s with
  | String c r => if Ascii.eqb c ":"%char then strings.rev r else s
  | EmptyString => s
  end.

Definition extractPythonName (signature : string) : string :=
  let sig := strings.TrimSpace signature in
  let sig := TrimSuffixColon sig in
  let sig :=
    match strings.Index sig "(" with
    | Some idx => String.substring 0 idx sig
    | None => sig
    end in
  strings.TrimSpace sig.

(** [lines[startLine-1:endLine]] panics when the slice would end
    before it starts. *)
Definition extractLines (content : string) (startLine endLine : Z) : outcome string :=
  let lines := strings.Split content "010"%char in
  if ((startLine <? 1) || (Z.of_nat (length lines) <? startLine))%bool then Returned ""
  else
    let endLine := if Z.of_nat (length lines) <? endLine then Z.of_nat (length lines)
                   else endLine in
    if endLine <? startLine - 1 then
      Panicked ("runtime error: slice bounds out of range [" +:+ strings.itoa (startLine - 1)
                +:+ ":" +:+ strings.itoa endLine +:+ "]")
    else
      Returned (strings.Join (take (Z.to_nat (endLine - (startLine - 1)))
                                   (drop (Z.to_nat (startLine - 1)) lines))
                             (String "010" "")).

(** ** The sliding window *)

Definition chunkSize : nat := 50.
Definition overlap : nat := 10.
Definition stride : nat := chunkSize - overlap.

(** The state of the loop of [genericSlidingChunks]; [stopped] is set
    by [break]. *)
Record WindowState : Type := {
  chunks : list Chunk;
  stopped : bool
}.

(** The body of that loop at index [i]. *)
Definition windowStep (filePath lang : string) (lines : list string) (st : WindowState)
    (i : nat) : WindowState :=
  if st.(stopped) then st
  else
    let end_ := (i + chunkSize)%nat in
    let end_ := if (length lines <? end_)%nat then length lines else end_ in
    let chunkContent := strings.Join (take (end_ - i) (drop i lines)) (String "010" "") in
    if strings.len (strings.TrimSpace chunkContent) <? 50 then st
    else
      let chunk :=
        NewChunk filePath chunkContent "block" "" lang (Int.add (Z.of_nat i) 1) (Z.of_nat end_) in
      {| chunks := st.(chunks) ++ [chunk];
         stopped := (length lines <=? end_)%nat |}.

Definition genericSlidingChunks (filePath content lang : string) : list Chunk :=
  let lines := strings.Split content "010"%char in
  (fold_left (windowStep filePath lang lines) (loopIndices (length lines) stride)
     {| chunks := []; stopped := false |}).(chunks).


(** ** The Python chunker *)

(** The loop over the lines above a definition, nearest first: how
    many of them are decorators at the indent of the definition. *)
Fixpoint decorators (above : list string) (baseIndent : Z) : nat :=
  match above with
  | [] => O
  | l :: rest =>
      let decTrim := strings.TrimSpace l in
      if String.eqb decTrim "" then O
      else if (strings.HasPrefix decTrim "@" && (leadingIndent l =? baseIndent))%bool
      then S (decorators rest baseIndent)
      else O
  end.

(** The loop over the lines below a definition, from index [j]: the
    index after the last line of its block. *)
Fixpoint blockEnd (below : list string) (baseIndent : Z) (j endIdx : nat) : nat :=
  match below with
  | [] => endIdx
  | next :: rest =>
      let trimNext := strings.TrimSpace next in
      if (String.eqb trimNext "" || strings.HasPrefix trimNext "#")%bool
      then blockEnd rest baseIndent (S j) endIdx
      else if ((leadingIndent next <=? baseIndent) && negb (strings.HasPrefix trimNext "@"))%bool
      then endIdx
      else blockEnd rest baseIndent (S j) (S j)
  end.

(** The kind and name of the definition a line opens, if it opens one. *)
Definition definition (line : string) : option (string * string) :=
  let trimmed := strings.TrimSpace line in
  if strings.HasPrefix trimmed "class " then
    Some ("class", extractPythonName (strings.skip 6 trimmed))
  else if strings.HasPrefix trimmed "def " then
    Some (if 0 <? leadingIndent line then "method" else "function",
          extractPythonName (strings.skip 4 trimmed))
  else None.

(** The outer loop of [PythonChunker.ChunkFile] at index [i]; every
    round moves [i] forward, so as many rounds as there are lines
    suffice. *)
Fixpoint pythonLoop (rounds : nat) (filePath : string) (lines : list string) (i : nat)
    (chunks : list Chunk) : list Chunk :=
  match rounds with
  | O => chunks
  | S rounds' =>
      match lines !! i with
      | None => chunks
      | Some line =>
          if String.eqb (strings.TrimSpace line) "" then
            pythonLoop rounds' filePath lines (S i) chunks
          else
            match definition line with
            | None => pythonLoop rounds' filePath lines (S i) chunks
            | Some (chunkType, symbolName) =>
                let baseIndent := leadingIndent line in
                let startIdx := (i - decorators (List.rev (take i lines)) baseIndent)%nat in
                let endIdx := blockEnd (drop (S i) lines) baseIndent (S i) (S i) in
                let chunkContent :=
                  strings.Join (take (endIdx - startIdx) (drop startIdx lines))
                               (String "010" "") in
                if strings.len (strings.TrimSpace chunkContent) <? 20 then
                  pythonLoop rounds' filePath lines (S i) chunks
                else
                  let subChunks :=
                    splitLargeChunk filePath chunkContent chunkType symbolName "python"
                      (Int.add (Z.of_nat startIdx) 1) (Z.of_nat endIdx) in
                  pythonLoop rounds' filePath lines endIdx (chunks ++ subChunks)
            end
      end
  end.

Definition PythonChunkFile (filePath content : string) : list Chunk :=
  let lines := strings.Split content "010"%char in
  match pythonLoop (length lines) filePath lines 0 [] with
  | [] => genericSlidingChunks filePath content "python"
  | chunks => chunks
  end.

End chunkers.

(* ===================================================================== *)
(** * Package [rag]: the indexer of files                                 *)
(* ===================================================================== *)

Module rag_indexer.

Import rag chunker chunkers store store_search runner.

(** The loop of [filepath.Ext] over the path, last byte first: the
    suffix from the last dot of the last element on. *)
Fixpoint extFrom (reversed suffix : string) : string :=
  match reversed with
  | EmptyString => ""
  | String c r =>
      if Ascii.eqb c "/"%char then ""
      else if Ascii.eqb c "."%char then String c suffix
      else extFrom r (String c suffix)
  end.

(** [filepath.Ext] *)
Definition Ext (path : string) : string := extFrom (strings.rev path) "".

Definition batchSize : nat := 10.

(** The state of the loop of [IndexFile] over the batches; [failure]
    is the error it returns with. *)
Record IndexState : Type := {
  vectorStore : SQLiteVectorStore;
  failure : option string
}.

Section Indexer.

(** [GoChunker.ChunkFile], which reads the file with [go/parser]; it
    returns no error on any path. *)
Variable goChunkFile : string -> string -> list Chunk.

(** The embedder. *)
Variable EmbedBatch : list string -> list (list Z) + string.
Variable Embed : string -> list Z + string.

(** The database calls that fail in the [InsertBatch] of the batch
    that starts at a chunk. *)
Variable faults : nat -> Faults.

Variable selectAll : gmap string Row -> list (string * Row).
Variable sortSlice :
  (SearchResult.t -> SearchResult.t -> bool) -> list SearchResult.t -> list SearchResult.t.

(** [ChunkerFactory(filePath).ChunkFile]: every file that is not
    Python goes to the chunker of Go. *)
Definition ChunkerFactory (filePath : string) : string -> string -> list Chunk :=
  let ext := Ext filePath in
  if String.eqb ext ".go" then goChunkFile
  else if String.eqb ext ".py" then PythonChunkFile
  else goChunkFile.

(** The body of the loop of [IndexFile] for the batch from index [i]. *)
Definition indexStep (chunks : list Chunk) (st : IndexState) (i : nat) : IndexState :=
  match st.(failure) with
  | Some _ => st
  | None =>
      let end_ := (i + batchSize)%nat in
      let end_ := if (length chunks <? end_)%nat then length chunks else end_ in
      let batch := take (end_ - i) (drop i chunks) in
      let texts := Content <$> batch in
      match EmbedBatch texts with
      | inr err =>
          {| vectorStore := st.(vectorStore);
             failure := Some ("failed to generate embeddings: " +:+ err) |}
      | inl embeddings =>
          match InsertBatch (faults i) st.(vectorStore) batch embeddings with
          | (s, Some err) =>
              {| vectorStore := s; failure := Some ("failed to store embeddings: " +:+ err) |}
          | (s, None) => {| vectorStore := s; failure := None |}
          end
      end
  end.

(** [IndexFile]: the chunks or the error, and the store afterwards. *)
Definition IndexFile (fs : os.FS) (s : SQLiteVectorStore) (filePath : string)
    : (list Chunk + string) * SQLiteVectorStore :=
  match os.ReadFile fs filePath with
  | inr err => (inr ("failed to read file: " +:+ err), s)
  | inl content =>
      let chunks := ChunkerFactory filePath filePath content in
      match chunks with
      | [] => (inl [], s)
      | _ =>
          let st :=
            fold_left (indexStep chunks) (loopIndices (length chunks) batchSize)
              {| vectorStore := s; failure := None |} in
          match st.(failure) with
          | Some err => (inr err, st.(vectorStore))
          | None => (inl chunks, st.(vectorStore))
          end
      end
  end.

(** [RAGIndexer.RemoveFile] *)
Definition RemoveFile (s : SQLiteVectorStore) (filePath : string) : SQLiteVectorStore :=
  Delete s filePath.

(** [RAGIndexer.Search] *)
Definition Search (f : ReadFaults) (s : SQLiteVectorStore) (query : string) (topK : Z)
    : outcome (list SearchResult.t + string) :=
  match Embed query with
  | inr err => Returned (inr ("failed to embed query: " +:+ err))
  | inl queryEmbedding =>
      match store_search.Search selectAll sortSlice f s queryEmbedding topK with
      | Panicked msg => Panicked msg
      | Returned (inr err) => Returned (inr ("search failed: " +:+ err))
      | Returned (inl results) => Returned (inl results)
      end
  end.

End Indexer.

End rag_indexer.

(* ********************************************************************* *)
(** * Part two: what the code guarantees                                  *)
(* ********************************************************************* *)

(* ===================================================================== *)
(** * Facts about the string functions                                    *)
(* ===================================================================== *)

Module strings_facts.

Import strings.

Lemma HasPrefix_app (p s : string) : HasPrefix (p +:+ s) p = true.
Proof.
  induction p as [|c p IH]; simpl.
  - by destruct s.
  - by rewrite Ascii.eqb_refl.
Qed.

Lemma Index_unfold (s substr : string) :
  Index s substr =
    if HasPrefix s substr then Some 0%nat
    else match s with
         | EmptyString => None
         | String _ s' => S <$> Index s' substr
         end.
Proof. by destruct s. Qed.

Lemma Contains_app (p s : string) : Contains (p +:+ s) p = true.
Proof. unfold Contains. by rewrite Index_unfold, HasPrefix_app. Qed.

Lemma Replace1_unfold (s old new : string) :
  Replace1 s old new =
    if HasPrefix s old then new +:+ skip (String.length old) s
    else match s with
         | EmptyString => EmptyString
         | String c s' => String c (Replace1 s' old new)
         end.
Proof. by destruct s. Qed.

(** [Index] finds an occurrence, and no earlier offset has one. *)
Lemma Index_first (s substr : string) (i : nat) :
  Index s substr = Some i ->
  HasPrefix (skip i s) substr = true
  /\ forall j, (j < i)%nat -> HasPrefix (skip j s) substr = false.
Proof.
  revert i. induction s as [|c s IH]; intros i; rewrite Index_unfold.
  - destruct (HasPrefix "" substr) eqn:E; [|done].
    intros [= <-]. split; [done | lia].
  - destruct (HasPrefix (String c s) substr) eqn:E.
    + intros [= <-]. split; [done | lia].
    + destruct (Index s substr) as [k|] eqn:Ek; [|done].
      intros [= <-]. destruct (IH k eq_refl) as [Hk Hlt]. split; [done|].
      intros [|j] Hj; [done|]. apply Hlt. lia.
Qed.

Lemma Index_None (s substr : string) :
  Index s substr = None -> forall j, HasPrefix (skip j s) substr = false.
Proof.
  induction s as [|c s IH]; rewrite Index_unfold.
  - destruct (HasPrefix "" substr) eqn:E; [done|]. intros _ [|j]; done.
  - destruct (HasPrefix (String c s) substr) eqn:E; [done|].
    destruct (Index s substr) eqn:Ek; [done|].
    intros _ [|j]; [done|]. by apply IH.
Qed.

(** [Replace1] rewrites the occurrence [Index] finds and nothing else. *)
Lemma Replace1_at_Index (s old new : string) (i : nat) :
  Index s old = Some i ->
  Replace1 s old new = String.substring 0 i s +:+ new +:+ skip (i + String.length old) s.
Proof.
  revert i. induction s as [|c s IH]; intros i; rewrite Index_unfold, Replace1_unfold.
  - destruct (HasPrefix "" old); [|done]. by intros [= <-].
  - destruct (HasPrefix (String c s) old) eqn:E.
    + by intros [= <-].
    + destruct (Index s old) as [k|] eqn:Ek; [|done].
      intros [= <-]. simpl. by rewrite (IH k eq_refl).
Qed.

Lemma Replace1_absent (s old new : string) :
  Index s old = None -> Replace1 s old new = s.
Proof.
  induction s as [|c s IH]; rewrite Index_unfold, Replace1_unfold.
  - by destruct (HasPrefix "" old).
  - destruct (HasPrefix (String c s) old); [done|].
    destruct (Index s old) eqn:Ek; [done|]. intros _. by rewrite IH.
Qed.

End strings_facts.

(* ===================================================================== *)
(** * Facts about [int]                                                   *)
(* ===================================================================== *)

Module Int_facts.

(** Within the range of [int] nothing wraps. *)
Lemma wrap_small (z : Z) : Int.min_int <= z <= Int.max_int -> Int.wrap z = z.
Proof.
  unfold Int.wrap, Int.min_int, Int.max_int. intros H. rewrite Z.mod_small; lia.
Qed.

End Int_facts.

(* ===================================================================== *)
(** * The executor: path safety and [edit_file]                           *)
(* ===================================================================== *)

Module executor_spec.

Import action executor.

(** The path of the action resolves outside the cleaned project root. *)
Definition escapes (e : Executor) (path : string) : Prop :=
  strings.HasPrefix (abs e path) (filepath.Clean e.(projectRoot)) = false.

Definition readOutside : Action :=
  {| Type_ := ActionReadFile; Path := "../outside/notes.txt"; Edits := []; Content := "";
     Command := ""; Workdir := ""; Query := ""; Reason := ""; Timeout := 0; Summary := "";
     Question := "" |}.

Definition sandbox : Executor :=
  NewExecutor {| ProjectRoot := "/home/u/proj"; Index := None; DryRun := false;
                 Blocklist := [] |}.

Definition disk : os.FS := {[ "/home/u/outside/notes.txt" := "private" ]}.

Section Safety.

Variable bash : os.Bash.

(** The three cases that call [checkPath] reject an escaping path
    and leave the files alone. *)
Lemma escaping_write_rejected (e : Executor) (fs : os.FS) (a : Action) :
  a.(Type_) = ActionCreateFile \/ a.(Type_) = ActionEditFile \/ a.(Type_) = ActionDeleteFile ->
  escapes e a.(Path) ->
  Execute bash e fs a
  = (result false "" (Some ("path " +:+ a.(Path) +:+ " escapes project root")) [], fs).
Proof.
  unfold escapes. intros Ht He.
  assert (Hc : checkPath e a.(Path) = Some ("path " +:+ a.(Path) +:+ " escapes project root")).
  { unfold checkPath. by rewrite He. }
  unfold Execute. destruct Ht as [-> | [-> | ->]]; simpl; by rewrite Hc.
Qed.

(** C1, at the input on which the code departs from it: a
    [read_file] action whose path resolves outside the project root
    is not rejected.  [Execute] returns success with the content of
    the outside file, although [checkPath] reports the very same path
    as escaping. *)
Theorem read_file_outside_root_succeeds :
  escapes sandbox readOutside.(Path)
  /\ checkPath sandbox readOutside.(Path)
     = Some "path ../outside/notes.txt escapes project root"
  /\ Execute bash sandbox disk readOutside = (result true "private" None [], disk).
Proof. by vm_compute. Qed.

End Safety.

(** ** [edit_file] *)

(** The content after the edits, each applied to the result of the
    ones before it. *)
Definition edited (content : string) (edits : list TextEdit) : string :=
  fold_left (fun c ed => strings.Replace1 c ed.(OldText) ed.(NewText)) edits content.

(** Some edit's [old_text] does not occur in the content as edited so
    far. *)
Definition misses (content : string) (edits : list TextEdit) : Prop :=
  exists k ed, edits !! k = Some ed
    /\ strings.Contains (edited content (take k edits)) ed.(OldText) = false.

Lemma misses_cons (content : string) (ed : TextEdit) (rest : list TextEdit) :
  misses content (ed :: rest) <->
  strings.Contains content ed.(OldText) = false
  \/ misses (strings.Replace1 content ed.(OldText) ed.(NewText)) rest.
Proof.
  split.
  - intros ([|k] & ed' & Hk & Hc); simpl in *.
    + left. by simplify_eq.
    + right. by exists k, ed'.
  - intros [Hc | (k & ed' & Hk & Hc)].
    + by exists 0%nat, ed.
    + by exists (S k), ed'.
Qed.

Lemma misses_nil (content : string) : ~ misses content [].
Proof. by intros (k & ed & Hk & _). Qed.

Lemma applyEdits_spec (path content : string) (edits : list TextEdit) :
  match applyEdits path content edits with
  | inl c => ~ misses content edits /\ c = edited content edits
  | inr err => misses content edits /\ err = "old_text not found in " +:+ path
  end.
Proof.
  revert content. induction edits as [|ed rest IH]; intros content; simpl.
  - split; [apply misses_nil | done].
  - destruct (strings.Contains content ed.(OldText)) eqn:Hc; simpl.
    + specialize (IH (strings.Replace1 content ed.(OldText) ed.(NewText))).
      destruct (applyEdits _ _ rest) as [c|err]; destruct IH as [IH1 IH2].
      * split; [|done]. rewrite misses_cons. intros [?|?]; [congruence | done].
      * split; [|done]. rewrite misses_cons. by right.
    + split; [|done]. rewrite misses_cons. by left.
Qed.

Section EditFile.

Variable bash : os.Bash.

(** C7.  An [edit_file] action with no edits fails.  When the path
    passes [checkPath] and the file can be read, the action fails
    with an error containing "old_text not found" exactly when some
    edit's [old_text] is absent from the content as edited so far,
    and then nothing is written; otherwise it succeeds, every edit
    having replaced the first occurrence of its [old_text], in
    order, and the new content is written unless the executor is in
    dry-run, where the files stay as they are. *)
Theorem edit_file_contract (e : Executor) (fs : os.FS) (a : Action) :
  a.(Type_) = ActionEditFile ->
  let r := Execute bash e fs a in
  (a.(Edits) = [] -> r.1.(Success) = false /\ r.2 = fs)
  /\ (checkPath e a.(Path) = None -> a.(Edits) <> [] ->
      forall data, os.ReadFile fs (abs e a.(Path)) = inl data ->
      (strings.Contains r.1.(Error) "old_text not found" = true <-> misses data a.(Edits))
      /\ (misses data a.(Edits) -> r.1.(Success) = false /\ r.2 = fs)
      /\ (~ misses data a.(Edits) ->
          r.1.(Success) = true
          /\ r.2 = if e.(dryRun) then fs
                   else <[filepath.Clean (abs e a.(Path)) := edited data a.(Edits)]> fs))
  /\ (forall content old new i,
        strings.Index content old = Some i ->
        strings.Replace1 content old new
        = String.substring 0 i content +:+ new
          +:+ strings.skip (i + String.length old) content
        /\ forall j, (j < i)%nat -> strings.HasPrefix (strings.skip j content) old = false).
Proof.
  intros Ht r. subst r. unfold Execute. rewrite Ht. simpl String.eqb. cbv iota.
  split; [|split].
  - intros ->. by destruct (checkPath e a.(Path)).
  - intros -> Hne data ->.
    destruct a.(Edits) as [|ed rest] eqn:He; [done|]. rewrite <- He. clear He Hne.
    pose proof (applyEdits_spec a.(Path) data a.(Edits)) as Hs.
    destruct (applyEdits a.(Path) data a.(Edits)) as [c|err]; destruct Hs as [Hm ->].
    + destruct e.(dryRun); simpl.
      * split; [|done]. split; [by vm_compute | done].
      * split; [|done]. split; [by vm_compute | done].
    + simpl. split; [|split].
      * split; [done|]. intros _.
        apply (strings_facts.Contains_app "old_text not found" (" in " +:+ a.(Path))).
      * done.
      * done.
  - intros content old new i Hi. split.
    + by apply strings_facts.Replace1_at_Index.
    + by apply strings_facts.Index_first.
Qed.

End EditFile.

(** A shell that does nothing, for the examples. *)
Definition idleBash : os.Bash := fun fs _ _ _ => (fs, "", None).

Definition greeting : Action :=
  {| Type_ := ActionEditFile; Path := "hello.txt";
     Edits := [ {| OldText := "hi"; NewText := "hello" |};
                {| OldText := "lo"; NewText := "p" |} ];
     Content := ""; Command := ""; Workdir := ""; Query := ""; Reason := ""; Timeout := 0;
     Summary := ""; Question := "" |}.

Definition greetingDisk : os.FS := {[ "/home/u/proj/hello.txt" := "oh hi, hi" ]}.

Lemma edit_file_contract_witness :
  greeting.(Type_) = ActionEditFile
  /\ (Execute idleBash sandbox greetingDisk greeting).1.(Success) = true
  /\ (Execute idleBash sandbox greetingDisk greeting).2
     = <[ "/home/u/proj/hello.txt" := "oh help, hi" ]> greetingDisk.
Proof.
  split; [reflexivity|].
  destruct (edit_file_contract idleBash sandbox greetingDisk greeting eq_refl) as (_ & H & _).
  destruct (H eq_refl ltac:(done) "oh hi, hi" eq_refl) as (_ & _ & Hok).
  apply Hok. intros Hm.
  pose proof (applyEdits_spec "hello.txt" "oh hi, hi" greeting.(Edits)) as Hs.
  vm_compute in Hs. by destruct Hs.
Defined.

End executor_spec.

(* ===================================================================== *)
(** * The query analyzer                                                  *)
(* ===================================================================== *)

Module query_analyzer_spec.

Import query_analyzer.




(** C2, on the queries of the truth table: [Classify] answers hybrid
    for "UserModel" and for "callers of parseConfig", and semantic for
    "how does UserModel handle auth", where the table says
    structural, structural and hybrid; the other two rows are as the
    table has them.  On the queries as typed, [hasSymbols] does find
    the symbols. *)
Theorem classify_truth_table :
  map (Classify NewQueryAnalyzer)
      ["UserModel"; "show me how login works"; "how does UserModel handle auth";
       "callers of parseConfig"; "handle expired tokens"]
  = [HybridQuery; SemanticQuery; SemanticQuery; HybridQuery; SemanticQuery]
  /\ map (hasSymbols NewQueryAnalyzer)
         ["UserModel"; "how does UserModel handle auth"; "callers of parseConfig"]
     = [true; true; true].
Proof. by vm_compute. Qed.

End query_analyzer_spec.

(* ===================================================================== *)
(** * The task manager: the counters of a plan                            *)
(* ===================================================================== *)

Module tasks_spec.

Import tasks.














Definition oneTask : Task :=
  {| ID := 1; Description := "write the parser"; Status := TaskStatusPending; Details := "";
     FilePath := ""; Line := 0 |}.





End tasks_spec.

(* ===================================================================== *)
(** * The runner: the iteration cap                                       *)
(* ===================================================================== *)

Module runner_spec.

Import action llm_client runner.



Definition capMessage : string := "max iterations reached before completion".

Section Cap.

Variable jsonUnmarshal : string -> Action + string.
Variable bash : os.Bash.
Variable a : CodingAgent.
Variable e : executor.Executor.
Variable task : tasks.Task.
Variable contextString : string.




End Cap.

Section RunCap.

Variable jsonUnmarshal : string -> Action + string.
Variable bash : os.Bash.
Variable a : CodingAgent.





End RunCap.


(** The cap does get exhausted: an LLM that keeps asking for a search
    runs into it. *)
Definition searching : Action :=
{| Type_ := ActionSearch; Path := ""; Edits := []; action.Content := ""; Command := ""; Workdir := "";
   Query := "Merge"; Reason := ""; Timeout := 0; Summary := ""; Question := "" |}.

Definition stubbornAgent : CodingAgent :=
{| llmClient := {| Chat := fun _ _ => inl {| llm_client.Content := "search"; Provider := "";
                                              Model := ""; TokensUsed := 0;
                                              FinishReason := "" |} |};
   indexer := fun _ _ => inr "no index";
   projectPath := "/home/u/proj" |}.

Definition indexed : executor.Executor :=
executor.NewExecutor
  {| executor.ProjectRoot := "/home/u/proj";
     executor.Index := Some {| indexer.SearchSymbol := fun _ => ["merger.go: Merge"];
                               indexer.FetchContext := fun _ _ => "" |};
     executor.DryRun := true; executor.Blocklist := [] |}.

Example cap_exhausted :
  match executeTask (fun _ => inl searching) executor_spec.idleBash stubbornAgent
          {| files := ∅; calls := 0 |} indexed tasks_spec.oneTask "" 3 with
  | Returned (exec, w') =>
      length exec.(Actions) = 3%nat /\ w'.(calls) = 3%nat
      /\ exec.(Failed) = true /\ exec.(FailureMsg) = capMessage
  | Panicked _ => False
  end.
Proof. by vm_compute. Qed.

End runner_spec.

(* ===================================================================== *)
(** * The vector store: dimension check and upsert by id                  *)
(* ===================================================================== *)

Module store_spec.

Import rag store.

(** The loop commits only when every vector has the store's dimension. *)
Lemma insertAll_dims (f : Faults) (dims : Z) (i : nat) (batch : list (Chunk * list Z))
    (tx tx' : gmap string Row) :
  insertAll f dims i batch tx = inl tx' ->
  Forall (fun p => Z.of_nat (length p.2) = dims) batch.
Proof.
  revert i tx. induction batch as [|[chunk emb] batch IH]; intros i tx; simpl; [done|].
  destruct (Z.of_nat (length emb) =? dims) eqn:E; simpl; [|done].
  destruct (exec_error f i); [done|].
  intros H. constructor; [simpl; lia | by eapply IH].
Qed.

(** Without faults, and with vectors of the right dimension, the loop
    upserts the rows in order. *)
Lemma insertAll_noFaults (dims : Z) (i : nat) (batch : list (Chunk * list Z))
    (tx : gmap string Row) :
  Forall (fun p => Z.of_nat (length p.2) = dims) batch ->
  insertAll noFaults dims i batch tx
  = inl (fold_left (fun m p => <[p.1.(ID) := rowOf p.1 (encodeEmbedding p.2)]> m) batch tx).
Proof.
  revert i tx. induction batch as [|[chunk emb] batch IH]; intros i tx H; simpl; [done|].
  apply Forall_cons in H as [Hd H]. simpl in Hd. rewrite Hd, Z.eqb_refl. simpl.
  by apply IH.
Qed.

(** C6.  When some vector of the batch has a length other than the
    store's dimension, [InsertBatch] returns an error and the store is
    the one it was called on, whichever database calls fail or not. *)
Theorem InsertBatch_dimension_mismatch (f : Faults) (s : SQLiteVectorStore)
    (chunks : list Chunk) (embeddings : list (list Z)) :
  Exists (fun emb => Z.of_nat (length emb) <> s.(dims)) embeddings ->
  exists err, InsertBatch f s chunks embeddings = (s, Some err).
Proof.
  intros Hbad. unfold InsertBatch.
  destruct (length chunks =? length embeddings)%nat eqn:Hlen; simpl; [|by eexists].
  destruct (begin_error f); [by eexists|].
  destruct (prepare_error f); [by eexists|].
  destruct (insertAll f s.(dims) 0 (zip chunks embeddings) s.(db)) as [tx|err] eqn:Hins;
    [|by eexists].
  exfalso. apply insertAll_dims in Hins.
  apply Nat.eqb_eq in Hlen.
  apply Exists_exists in Hbad as (emb & Hin & Hne).
  apply list_elem_of_lookup in Hin as [k Hk].
  destruct (lookup_lt_is_Some_2 chunks k) as [c Hc].
  { rewrite Hlen. by eapply lookup_lt_Some. }
  rewrite Forall_lookup in Hins.
  specialize (Hins k (c, emb)). simpl in Hins. apply Hne, Hins.
  rewrite lookup_zip_with, Hc. simpl. by rewrite Hk.
Qed.

Definition sampleChunk : Chunk := NewChunk "a.go" "func A() {}" "function" "A" "go" 1 1.

Definition emptyStore : SQLiteVectorStore := {| db := ∅; dims := 3 |}.

Lemma InsertBatch_dimension_mismatch_witness :
  Exists (fun emb => Z.of_nat (length emb) <> emptyStore.(dims)) [[0; 0; 0]; [0; 0]]
  /\ exists err,
       InsertBatch noFaults emptyStore [sampleChunk; sampleChunk] [[0; 0; 0]; [0; 0]]
       = (emptyStore, Some err).
Proof.
  assert (H : Exists (fun emb => Z.of_nat (length emb) <> emptyStore.(dims))
                     [[0; 0; 0]; [0; 0]]).
  { apply Exists_cons_tl, Exists_cons_hd. simpl. lia. }
  split; [exact H|].
  exact (InsertBatch_dimension_mismatch noFaults emptyStore [sampleChunk; sampleChunk]
           [[0; 0; 0]; [0; 0]] H).
Defined.

(** C10.  The id of a chunk is the first 16 hexadecimal digits of the
    SHA-256 of its content, whatever its path, lines, kind, symbol and
    language, so two chunks with the same content have the same id;
    inserting one and then the other, with vectors of the store's
    dimension, leaves under that id the row of the second and raises
    [Count] by at most one. *)
Theorem same_content_same_row (s : SQLiteVectorStore) (content : string)
    (path1 type1 symbol1 lang1 path2 type2 symbol2 lang2 : string)
    (start1 end1 start2 end2 : Z) (v1 v2 : list Z) :
  Z.of_nat (length v1) = s.(dims) -> Z.of_nat (length v2) = s.(dims) ->
  let c1 := NewChunk path1 content type1 symbol1 lang1 start1 end1 in
  let c2 := NewChunk path2 content type2 symbol2 lang2 start2 end2 in
  let s1 := (Insert noFaults s c1 v1).1 in
  let s2 := (Insert noFaults s1 c2 v2).1 in
  c1.(ID) = String.substring 0 16 (sha256.EncodeToString (sha256.Sum (sha256.bytes content)))
  /\ c1.(ID) = c2.(ID)
  /\ (Insert noFaults s c1 v1).2 = None /\ (Insert noFaults s1 c2 v2).2 = None
  /\ s2.(db) = <[c2.(ID) := rowOf c2 (encodeEmbedding v2)]> s.(db)
  /\ s2.(db) !! c1.(ID) = Some (rowOf c2 (encodeEmbedding v2))
  /\ Count s2 <= Count s + 1
  /\ (InsertBatch noFaults s [c1; c2] [v1; v2]).1 = s2.
Proof.
  intros H1 H2 c1 c2 s1 s2.
  assert (Hid : c1.(ID) = c2.(ID)) by done.
  assert (E1 : Insert noFaults s c1 v1
               = ({| db := <[c1.(ID) := rowOf c1 (encodeEmbedding v1)]> s.(db);
                     dims := s.(dims) |}, None)).
  { unfold Insert, InsertBatch. simpl. by rewrite H1, Z.eqb_refl. }
  assert (E2 : Insert noFaults s1 c2 v2
               = ({| db := <[c2.(ID) := rowOf c2 (encodeEmbedding v2)]> s1.(db);
                     dims := s1.(dims) |}, None)).
  { unfold Insert, InsertBatch. subst s1. rewrite E1. simpl. by rewrite H2, Z.eqb_refl. }
  assert (Hdb : s2.(db) = <[c2.(ID) := rowOf c2 (encodeEmbedding v2)]> s.(db)).
  { subst s2. rewrite E2. subst s1. rewrite E1. cbn [fst db]. rewrite <- Hid.
    apply insert_insert_eq. }
  refine (conj eq_refl (conj Hid (conj _ (conj _ (conj Hdb (conj _ (conj _ _))))))).
  - by rewrite E1.
  - by rewrite E2.
  - rewrite Hdb, Hid. apply lookup_insert_eq.
  - unfold Count. rewrite Hdb.
    destruct (s.(db) !! c2.(ID)) as [row|] eqn:Hl.
    + rewrite map_size_insert_Some by done. lia.
    + rewrite map_size_insert_None by done. lia.
  - unfold InsertBatch. simpl. rewrite H1, H2, !Z.eqb_refl. simpl.
    subst s2. rewrite E2. subst s1. rewrite E1. done.
Qed.

Lemma same_content_same_row_witness :
  let c1 := NewChunk "a.go" "return nil" "function" "A" "go" 10 10 in
  let c2 := NewChunk "b.py" "return nil" "method" "B.b" "python" 3 3 in
  let s2 := (Insert noFaults (Insert noFaults emptyStore c1 [1; 2; 3]).1 c2 [4; 5; 6]).1 in
  Z.of_nat (length [1; 2; 3]) = emptyStore.(dims)
  /\ c1.(ID) = c2.(ID)
  /\ s2.(db) !! c1.(ID) = Some (rowOf c2 (encodeEmbedding [4; 5; 6]))
  /\ Count s2 <= Count emptyStore + 1.
Proof.
  intros c1 c2 s2.
  destruct (same_content_same_row emptyStore "return nil" "a.go" "function" "A" "go"
              "b.py" "method" "B.b" "python" 10 10 3 3 [1; 2; 3] [4; 5; 6] eq_refl eq_refl)
    as (_ & Hid & _ & _ & _ & Hrow & Hcount & _).
  split; [reflexivity|]. split; [exact Hid|]. split; [exact Hrow | exact Hcount].
Defined.

End store_spec.

(* ===================================================================== *)
(** * The result merger: the token budget                                 *)
(* ===================================================================== *)

Module merger_budget.

Import rag merger.

Definition sumZ (l : list Z) : Z := foldr Z.add 0 l.

(** The token count of a file as the specification defines it: the sum
    of the token estimates of its chunks, or 500 when it has none. *)
Definition tokensOf (f : FileResult.t) : Z :=
match f.(FileResult.Chunks) with
| [] => 500
| _ :: _ => sumZ (TokenCount <$> f.(FileResult.Chunks))
end.

Definition weight (files : list FileResult.t) : Z := sumZ (tokensOf <$> files).

(** The budget property of the specification. *)
Definition withinBudget (m : ResultMerger) (r : HybridResult.t) : Prop :=
weight r.(HybridResult.Files) <= m.(maxTokens)
/\ r.(HybridResult.TotalTokens) = weight r.(HybridResult.Files).

(** Every chunk has a token estimate of at least one. *)
Definition positiveChunks (f : FileResult.t) : Prop :=
Forall (fun c => 1 <= c.(TokenCount)) f.(FileResult.Chunks).

Lemma sumZ_app (l1 l2 : list Z) : sumZ (l1 ++ l2) = sumZ l1 + sumZ l2.
Proof. induction l1 as [|x l1 IH]; simpl; lia. Qed.

Lemma sumZ_perm (l1 l2 : list Z) : l1 ≡ₚ l2 -> sumZ l1 = sumZ l2.
Proof. induction 1; simpl; lia. Qed.

Lemma weight_perm (l1 l2 : list FileResult.t) : l1 ≡ₚ l2 -> weight l1 = weight l2.
Proof. intros H. unfold weight. apply sumZ_perm. by rewrite H. Qed.

Lemma weight_app (l1 l2 : list FileResult.t) : weight (l1 ++ l2) = weight l1 + weight l2.
Proof. unfold weight. by rewrite fmap_app, sumZ_app. Qed.

Lemma sumZ_positive (cs : list Chunk) :
  Forall (fun c => 1 <= c.(TokenCount)) cs -> Z.of_nat (length cs) <= sumZ (TokenCount <$> cs).
Proof. induction 1 as [|c cs Hc _ IH]; csimpl; lia. Qed.

Lemma fold_add_tokens (cs : list Chunk) (acc : Z) :
  Forall (fun c => 1 <= c.(TokenCount)) cs ->
  0 <= acc -> acc + sumZ (TokenCount <$> cs) <= Int.max_int ->
  fold_left (fun a c => Int.add a c.(TokenCount)) cs acc = acc + sumZ (TokenCount <$> cs).
Proof.
  assert (Hmin : Int.min_int = - 2 ^ 63) by done.
  intros H. revert acc. induction H as [|c cs Hc Hcs IH]; intros acc Ha Hb; csimpl in *; [lia|].
  pose proof (sumZ_positive cs Hcs).
  unfold Int.add at 2. rewrite Int_facts.wrap_small by lia. rewrite IH; lia.
Qed.

Lemma tokensOf_positive (f : FileResult.t) : positiveChunks f -> 1 <= tokensOf f.
Proof.
  unfold positiveChunks, tokensOf. destruct f.(FileResult.Chunks) as [|c cs]; [lia|].
  intros H. pose proof (sumZ_positive _ H). csimpl in *. lia.
Qed.

(** On files with positive chunks, and short of overflow, the estimate
    the code computes is the count of the specification. *)
Lemma fileTokens_tokensOf (f : FileResult.t) :
  positiveChunks f -> tokensOf f <= Int.max_int -> fileTokens f = tokensOf f.
Proof.
  intros Hp Hb. pose proof (tokensOf_positive f Hp) as H1. unfold fileTokens.
  unfold positiveChunks, tokensOf in *.
  destruct f.(FileResult.Chunks) as [|c cs] eqn:E; [done|].
  rewrite fold_add_tokens by (done || lia).
  destruct (0 + sumZ (TokenCount <$> c :: cs) =? 0) eqn:E0; lia.
Qed.

Lemma weight_nonneg (l : list FileResult.t) : Forall positiveChunks l -> 0 <= weight l.
Proof.
  induction 1 as [|f l Hf _ IH]; unfold weight in *; csimpl; [lia|].
  pose proof (tokensOf_positive f Hf). lia.
Qed.

(** The loop of the truncation keeps a prefix whose weight is the
    running total and within the budget. *)
Lemma truncateLoop_weight (m : ResultMerger) (files acc : list FileResult.t) (total : Z) :
  Forall positiveChunks files ->
  total = weight acc -> 0 <= total <= m.(maxTokens) ->
  total + weight files <= Int.max_int ->
  let r := truncateLoop m files total acc in
  r.2 = weight r.1 /\ r.2 <= m.(maxTokens) /\ exists rest, acc ++ files = r.1 ++ rest.
Proof.
  assert (Hmin : Int.min_int = - 2 ^ 63) by done.
  intros H. revert acc total.
  induction H as [|f files Hf Hfs IH]; intros acc total Ht Hb Ho; simpl.
  - split; [done|]. split; [lia|]. by exists [].
  - pose proof (tokensOf_positive f Hf) as Hp. pose proof (weight_nonneg files Hfs) as Hw.
    change (weight (f :: files)) with (tokensOf f + weight files) in Ho.
    rewrite fileTokens_tokensOf by (done || lia).
    unfold Int.add. rewrite Int_facts.wrap_small by lia.
    destruct (m.(maxTokens) <? total + tokensOf f) eqn:E; simpl.
    + split; [done|]. split; [lia|]. by exists (f :: files).
    + specialize (IH (acc ++ [f]) (total + tokensOf f)).
      destruct IH as (H1 & H2 & rest & H3).
      * rewrite weight_app. unfold weight at 2. csimpl. lia.
      * lia.
      * lia.
      * split; [done|]. split; [done|]. exists rest. by rewrite <- H3, <- app_assoc.
Qed.

(** ** The two loops of [Merge] *)

Definition mapWeight (fm : gmap string FileResult.t) : Z := weight (map_to_list fm).*2.

Definition positiveMap (fm : gmap string FileResult.t) : Prop :=
map_Forall (fun _ f => positiveChunks f) fm.

Lemma mapWeight_insert_None (fm : gmap string FileResult.t) (k : string) (f : FileResult.t) :
  fm !! k = None -> mapWeight (<[k := f]> fm) = tokensOf f + mapWeight fm.
Proof.
  intros H. unfold mapWeight.
  rewrite (weight_perm _ (f :: (map_to_list fm).*2)); [done|].
  by rewrite map_to_list_insert.
Qed.

Lemma mapWeight_insert_Some (fm : gmap string FileResult.t) (k : string)
    (old f : FileResult.t) :
  fm !! k = Some old -> mapWeight (<[k := f]> fm) = tokensOf f + mapWeight fm - tokensOf old.
Proof.
  intros H. rewrite <- insert_delete_eq.
  rewrite mapWeight_insert_None by apply lookup_delete_eq.
  unfold mapWeight at 2.
  rewrite (weight_perm (map_to_list fm).*2 (old :: (map_to_list (delete k fm)).*2)).
  - unfold mapWeight, weight. csimpl. lia.
  - by rewrite <- (map_to_list_delete fm k old H).
Qed.

Lemma addRAG_weight (st : MergeState) (res : SearchResult.t) :
  positiveMap st.(fileMap) -> 1 <= res.(SearchResult.Chunk).(TokenCount) ->
  positiveMap (addRAG st res).(fileMap)
  /\ mapWeight (addRAG st res).(fileMap)
     <= mapWeight st.(fileMap) + res.(SearchResult.Chunk).(TokenCount).
Proof.
  intros Hp Hc. unfold addRAG.
  destruct (st.(fileMap) !! _) as [existing|] eqn:E; simpl.
  - pose proof (map_Forall_lookup_1 _ _ _ _ Hp E) as He. simpl in He. split.
    + apply map_Forall_insert_2; [|done]. unfold positiveChunks in *. simpl.
      apply Forall_app. split; [done|]. by apply Forall_singleton.
    + rewrite (mapWeight_insert_Some _ _ existing) by done.
      unfold tokensOf at 1. simpl.
      destruct (existing.(FileResult.Chunks) ++ _) as [|c0 cs0] eqn:Ea.
      { by apply app_eq_nil in Ea as [_ ?]. }
      rewrite <- Ea, fmap_app, sumZ_app. csimpl.
      unfold tokensOf. unfold positiveChunks in He.
      destruct existing.(FileResult.Chunks) as [|c1 cs1]; csimpl; lia.
  - split.
    + apply map_Forall_insert_2; [|done]. unfold positiveChunks. simpl.
      by apply Forall_singleton.
    + rewrite mapWeight_insert_None by done. unfold tokensOf. csimpl. lia.
Qed.

Lemma addIndexer_weight (st : MergeState) (filePath : string) :
  positiveMap st.(fileMap) ->
  positiveMap (addIndexer st filePath).(fileMap)
  /\ mapWeight (addIndexer st filePath).(fileMap) <= mapWeight st.(fileMap) + 500.
Proof.
  intros Hp. unfold addIndexer.
  destruct (st.(fileMap) !! _) as [existing|] eqn:E; simpl.
  - pose proof (map_Forall_lookup_1 _ _ _ _ Hp E) as He. simpl in He. split.
    + by apply map_Forall_insert_2.
    + rewrite (mapWeight_insert_Some _ _ existing) by done. unfold tokensOf. simpl. lia.
  - split.
    + apply map_Forall_insert_2; [|done]. unfold positiveChunks. simpl. constructor.
    + rewrite mapWeight_insert_None by done. unfold tokensOf. simpl. lia.
Qed.

Definition ragTokens (ragResults : list SearchResult.t) : Z :=
sumZ ((fun res => res.(SearchResult.Chunk).(TokenCount)) <$> ragResults).

Lemma fold_addRAG_weight (ragResults : list SearchResult.t) (st : MergeState) :
  positiveMap st.(fileMap) ->
  Forall (fun res => 1 <= res.(SearchResult.Chunk).(TokenCount)) ragResults ->
  positiveMap (fold_left addRAG ragResults st).(fileMap)
  /\ mapWeight (fold_left addRAG ragResults st).(fileMap)
     <= mapWeight st.(fileMap) + ragTokens ragResults.
Proof.
  intros Hp H. revert st Hp. induction H as [|res l Hres _ IH]; intros st Hp; simpl.
  - split; [done|]. unfold ragTokens. simpl. lia.
  - destruct (addRAG_weight st res Hp Hres) as [Hp' Hw].
    destruct (IH _ Hp') as [Hp'' Hw']. split; [done|].
    unfold ragTokens in *. csimpl. lia.
Qed.

Lemma fold_addIndexer_weight (indexerFiles : list string) (st : MergeState) :
  positiveMap st.(fileMap) ->
  positiveMap (fold_left addIndexer indexerFiles st).(fileMap)
  /\ mapWeight (fold_left addIndexer indexerFiles st).(fileMap)
     <= mapWeight st.(fileMap) + 500 * Z.of_nat (length indexerFiles).
Proof.
  revert st. induction indexerFiles as [|p l IH]; intros st Hp.
  - split; [done|]. simpl. lia.
  - destruct (addIndexer_weight st p Hp) as [Hp' Hw].
    destruct (IH _ Hp') as [Hp'' Hw']. split; [done|].
    cbn [fold_left]. rewrite length_cons. lia.
Qed.

(** ** [Merge] *)

Lemma insertSorted_perm (less : FileResult.t -> FileResult.t -> bool) (x : FileResult.t)
    (l : list FileResult.t) :
  insertSorted less x l ≡ₚ x :: l.
Proof.
  induction l as [|y l IH]; simpl; [done|].
  destruct (less y x); [|done]. rewrite IH. apply Permutation_swap.
Qed.

Lemma insertionSort_perm (less : FileResult.t -> FileResult.t -> bool)
    (l : list FileResult.t) :
  insertionSort less l ≡ₚ l.
Proof.
  induction l as [|x l IH]; simpl; [done|].
  unfold insertionSort in *. simpl. by rewrite insertSorted_perm, IH.
Qed.

Section Budget.

Variable rangeMap : gmap string FileResult.t -> list FileResult.t.
Variable sortSlice :
  (FileResult.t -> FileResult.t -> bool) -> list FileResult.t -> list FileResult.t.

(** [range] visits every value of the map once, and [sort.Slice]
    rearranges its slice. *)
Hypothesis rangeMap_perm : forall fm, rangeMap fm ≡ₚ (map_to_list fm).*2.
Hypothesis sortSlice_perm : forall less l, sortSlice less l ≡ₚ l.

(** C5, amended.  For a budget that is not negative, RAG results whose
    chunks have token estimates of at least one, and inputs whose
    estimates do not add up beyond the range of [int], the files [Merge]
    returns have token counts (the sum of a file's chunk estimates, or
    500 without chunks) that add up to at most the budget, and
    [TotalTokens] is that sum. *)
Theorem merge_within_budget (m : ResultMerger) (ragResults : list SearchResult.t)
    (indexerFiles : list string) :
  0 <= m.(maxTokens) ->
  Forall (fun res => 1 <= res.(SearchResult.Chunk).(TokenCount)) ragResults ->
  ragTokens ragResults + 500 * Z.of_nat (length indexerFiles) <= Int.max_int ->
  withinBudget m (Merge rangeMap sortSlice m ragResults indexerFiles).
Proof.
  intros Hm Hrag Hmax. unfold Merge, truncateToTokenBudget. cbn [HybridResult.Files].
  set (st0 := {| fileMap := ∅; sources := {| Sources.Indexer := 0; Sources.RAG := 0 |} |}).
  destruct (fold_addRAG_weight ragResults st0) as [Hp1 Hw1]; [apply map_Forall_empty | done |].
  destruct (fold_addIndexer_weight indexerFiles (fold_left addRAG ragResults st0) Hp1)
    as [Hp2 Hw2].
  set (st := fold_left addIndexer indexerFiles (fold_left addRAG ragResults st0)) in *.
  set (files := sortSlice _ (rangeMap st.(fileMap))).
  assert (Hperm : files ≡ₚ (map_to_list st.(fileMap)).*2).
  { unfold files. by rewrite sortSlice_perm, rangeMap_perm. }
  assert (Hpos : Forall positiveChunks files).
  { rewrite Hperm. apply Forall_forall. intros f Hf.
    apply list_elem_of_fmap in Hf as ([k f'] & -> & Hin).
    apply elem_of_map_to_list in Hin. exact (map_Forall_lookup_1 _ _ _ _ Hp2 Hin). }
  assert (Hw : weight files <= Int.max_int).
  { rewrite (weight_perm _ _ Hperm). fold (mapWeight st.(fileMap)).
    assert (mapWeight st0.(fileMap) = 0) by done. lia. }
  pose proof (truncateLoop_weight m files [] 0 Hpos eq_refl ltac:(lia) ltac:(lia)) as Ht.
  destruct (truncateLoop m files 0 []) as [truncated total]. simpl in Ht.
  destruct Ht as (H1 & H2 & _). unfold withinBudget. simpl. lia.
Qed.

End Budget.

Definition chunkOf (path : string) (tokens : Z) : Chunk :=
{| ID := ""; FilePath := path; StartLine := 1; EndLine := 40; ChunkType := "function";
   SymbolName := ""; Language := "go"; Content := ""; TokenCount := tokens; Hash := "" |}.

Definition found (path : string) (tokens : Z) (score : float32.t) : SearchResult.t :=
{| SearchResult.Chunk := chunkOf path tokens; SearchResult.Score := score;
   SearchResult.Source := "rag" |}.

(** C5 as stated fails for a negative budget: nothing is returned, and
    the empty sum is above the budget. *)
Lemma negative_budget_exceeded :
  ~ withinBudget (NewResultMerger (-1))
      (Merge rangeByKey insertionSort (NewResultMerger (-1)) [] []).
Proof. unfold withinBudget. vm_compute. intros [H _]. by apply H. Qed.

(** It also fails when the chunks of a file have a token estimate of
    zero: the file is then counted as 500 tokens. *)
Lemma zero_token_chunk_counted_500 :
  let m := NewResultMerger 1000 in
  let r := Merge rangeByKey insertionSort m [found "t.go" 0 (float32.const 1 2)] [] in
  (tokensOf <$> r.(HybridResult.Files)) = [0] /\ r.(HybridResult.TotalTokens) = 500
  /\ ~ withinBudget m r.
Proof.
  split; [by vm_compute|]. split; [by vm_compute|].
  unfold withinBudget. vm_compute. intros [_ H]. discriminate H.
Qed.

Lemma merge_within_budget_witness :
  let m := NewResultMerger 1000 in
  let ragResults := [found "b.go" 500 (float32.const 8 10); found "c.go" 500 (float32.const 6 10)] in
  let indexerFiles := ["a.go"; "b.go"] in
  0 <= m.(maxTokens)
  /\ withinBudget m (Merge rangeByKey insertionSort m ragResults indexerFiles).
Proof.
  intros m ragResults indexerFiles. split; [by vm_compute|].
  apply (merge_within_budget rangeByKey insertionSort).
  - done.
  - apply insertionSort_perm.
  - by vm_compute.
  - repeat constructor; by vm_compute.
  - by vm_compute.
Defined.

End merger_budget.

(* ===================================================================== *)
(** * Facts about [float32] multiplication                                *)
(* ===================================================================== *)

Module float32_facts.

Import float32.

(** A value of the format. *)
Definition valid (x : t) : Prop := valid_binary prec emax x = true.

(** Zero, a positive number, or positive infinity. *)
Definition nonNegative (x : t) : Prop :=
match x with
| S754_zero _ => True
| S754_finite s _ _ => s = false
| S754_infinity s => s = false
| S754_nan => False
end.

Definition le (a b : t) : bool := SFleb a b.

(** ** Digits *)

Lemma digits2_pos_bounds (p : positive) :
  2 ^ (Zpos (digits2_pos p) - 1) <= Zpos p < 2 ^ Zpos (digits2_pos p).
Proof.
  induction p as [p IH|p IH|]; simpl digits2_pos.
  - rewrite Pos2Z.inj_succ. replace (Z.succ (Zpos (digits2_pos p)) - 1) with
      (Z.succ (Zpos (digits2_pos p) - 1)) by lia.
    rewrite !Z.pow_succ_r by lia. lia.
  - rewrite Pos2Z.inj_succ. replace (Z.succ (Zpos (digits2_pos p)) - 1) with
      (Z.succ (Zpos (digits2_pos p) - 1)) by lia.
    rewrite !Z.pow_succ_r by lia. lia.
  - simpl. lia.
Qed.

Lemma Zdigits2_bounds (m : Z) :
  0 < m -> 0 < Zdigits2 m /\ 2 ^ (Zdigits2 m - 1) <= m < 2 ^ Zdigits2 m.
Proof.
  destruct m as [|p|p]; try lia. intros _. simpl. split; [lia|].
  apply digits2_pos_bounds.
Qed.

Lemma Zdigits2_unique (m k : Z) :
  0 < m -> 2 ^ (k - 1) <= m < 2 ^ k -> Zdigits2 m = k.
Proof.
  intros Hm [Hlo Hhi]. destruct (Zdigits2_bounds m Hm) as (Hd & Hl & Hh).
  assert (0 <= k).
  { destruct (Z.lt_ge_cases k 0) as [Hk|Hk]; [|done].
    rewrite (Z.pow_neg_r 2 k) in Hhi by lia. lia. }
  destruct (Z.lt_trichotomy (Zdigits2 m) k) as [Hlt | [Heq | Hgt]]; [|done|].
  - assert (2 ^ Zdigits2 m <= 2 ^ (k - 1)) by (apply Z.pow_le_mono_r; lia). lia.
  - assert (2 ^ k <= 2 ^ (Zdigits2 m - 1)) by (apply Z.pow_le_mono_r; lia). lia.
Qed.

Lemma Zdigits2_mono (m m' : Z) : 0 < m -> m <= m' -> Zdigits2 m <= Zdigits2 m'.
Proof.
  intros Hm Hle. destruct (Zdigits2_bounds m Hm) as (Hd & Hl & Hh).
  destruct (Zdigits2_bounds m') as (Hd' & Hl' & Hh'); [lia|].
  destruct (Z.le_gt_cases (Zdigits2 m) (Zdigits2 m')) as [|Hgt]; [done|].
  assert (2 ^ Zdigits2 m' <= 2 ^ (Zdigits2 m - 1)) by (apply Z.pow_le_mono_r; lia). lia.
Qed.

Lemma Zdigits2_shift (m n : Z) :
  0 < m -> 0 <= n < Zdigits2 m -> Zdigits2 (m / 2 ^ n) = Zdigits2 m - n.
Proof.
  intros Hm Hn. destruct (Zdigits2_bounds m Hm) as (Hd & Hl & Hh).
  assert (Hp : 0 < 2 ^ n) by (apply Z.pow_pos_nonneg; lia).
  assert (Hs1 : 2 ^ (Zdigits2 m - 1) = 2 ^ (Zdigits2 m - n - 1) * 2 ^ n).
  { rewrite <- Z.pow_add_r by lia. f_equal. lia. }
  assert (Hs2 : 2 ^ Zdigits2 m = 2 ^ (Zdigits2 m - n) * 2 ^ n).
  { rewrite <- Z.pow_add_r by lia. f_equal. lia. }
  assert (Hlo : 2 ^ (Zdigits2 m - n - 1) <= m / 2 ^ n).
  { apply Z.div_le_lower_bound; lia. }
  assert (Hhi : m / 2 ^ n < 2 ^ (Zdigits2 m - n)).
  { apply Z.div_lt_upper_bound; lia. }
  apply Zdigits2_unique; [|done].
  assert (0 < 2 ^ (Zdigits2 m - n - 1)) by (apply Z.pow_pos_nonneg; lia). lia.
Qed.

(** ** Shifting and rounding *)

Lemma shr_1_m (mrs : shr_record) : 0 <= shr_m mrs -> shr_m (shr_1 mrs) = shr_m mrs / 2.
Proof.
  destruct mrs as [m r s]. cbn [shr_m]. intros Hm.
  destruct m as [|[p|p|]|p]; unfold shr_1; cbn [shr_m]; try lia; try done.
  - apply (Z.div_unique _ _ _ 1); lia.
  - apply (Z.div_unique _ _ _ 0); lia.
Qed.

Lemma pow2_xO (p : positive) : 2 ^ Zpos p~0 = 2 ^ Zpos p * 2 ^ Zpos p.
Proof. replace (Zpos p~0) with (Zpos p + Zpos p) by lia. by rewrite Z.pow_add_r by lia. Qed.

Lemma pow2_xI (p : positive) : 2 ^ Zpos p~1 = 2 * (2 ^ Zpos p * 2 ^ Zpos p).
Proof.
  replace (Zpos p~1) with (1 + (Zpos p + Zpos p)) by lia.
  by rewrite !Z.pow_add_r by lia.
Qed.

Lemma iter_shr_1_m (p : positive) (mrs : shr_record) :
  0 <= shr_m mrs -> shr_m (SpecFloat.iter_pos shr_1 p mrs) = shr_m mrs / 2 ^ Zpos p.
Proof.
  revert mrs. induction p as [p IH|p IH|]; intros mrs Hm; cbn [SpecFloat.iter_pos].
  - assert (Hp : 0 < 2 ^ Zpos p) by (apply Z.pow_pos_nonneg; lia).
    assert (H1 : 0 <= shr_m (shr_1 mrs)) by (rewrite shr_1_m by done; apply Z.div_pos; lia).
    assert (H2 : 0 <= shr_m (SpecFloat.iter_pos shr_1 p (shr_1 mrs))).
    { rewrite IH by done. by apply Z.div_pos. }
    rewrite IH, IH, shr_1_m by done.
    rewrite !Z.div_div by lia. by rewrite pow2_xI.
  - assert (Hp : 0 < 2 ^ Zpos p) by (apply Z.pow_pos_nonneg; lia).
    assert (H2 : 0 <= shr_m (SpecFloat.iter_pos shr_1 p mrs)).
    { rewrite IH by done. by apply Z.div_pos. }
    rewrite IH, IH by done.
    rewrite !Z.div_div by lia. by rewrite pow2_xO.
  - by rewrite shr_1_m.
Qed.

(** [shr_fexp], on a positive mantissa read exactly: the exponent it
    settles on, and the mantissa shifted to it. *)
Lemma shr_fexp_m (m e : Z) :
  0 < m ->
  let e' := fexp prec emax (Zdigits2 m + e) in
  let r := shr_fexp prec emax m e loc_Exact in
  (e' <= e -> shr_m r.1 = m /\ r.2 = e /\ loc_of_shr_record r.1 = loc_Exact)
  /\ (e < e' -> shr_m r.1 = m / 2 ^ (e' - e) /\ r.2 = e').
Proof.
  intros Hm e' r. subst r. unfold shr_fexp, shr. fold e'.
  destruct (e' - e) as [|p|p] eqn:E; simpl.
  - split; [done | lia].
  - split; [lia|]. intros _. rewrite iter_shr_1_m by (simpl; lia). simpl. split; [done | lia].
  - split; [done | lia].
Qed.

Lemma round_nearest_even_bounds (m : Z) (l : location) :
  m <= round_nearest_even m l <= m + 1.
Proof.
  destruct l as [|[]]; simpl; try lia. destruct (Z.even m); lia.
Qed.

(** What [binary_round_aux] returns for a positive mantissa read
    exactly: the mantissa is shifted to the exponent of the format,
    rounded up by at most one, and shifted once more if rounding added a
    digit. *)
Lemma binary_round_aux_positive (m e : Z) :
  0 < m ->
  let e1 := Z.max e (fexp prec emax (Zdigits2 m + e)) in
  let m1 := m / 2 ^ (e1 - e) in
  0 < m1 ->
  exists m2,
    m1 <= m2 <= m1 + 1
    /\ let e3 := Z.max e1 (fexp prec emax (Zdigits2 m2 + e1)) in
       let m3 := m2 / 2 ^ (e3 - e1) in
       binary_round_aux prec emax false m e loc_Exact
       = match m3 with
         | Z0 => S754_zero false
         | Zpos p => if e3 <=? emax - prec then S754_finite false p e3 else S754_infinity false
         | Zneg _ => S754_nan
         end.
Proof.
  intros Hm e1 m1 Hm1. unfold binary_round_aux.
  pose proof (shr_fexp_m m e Hm) as H1. cbv zeta in H1.
  destruct (shr_fexp prec emax m e loc_Exact) as [mrs1 e1'] eqn:E1. simpl in H1.
  exists (round_nearest_even (shr_m mrs1) (loc_of_shr_record mrs1)).
  assert (Hm1' : shr_m mrs1 = m1 /\ e1' = e1).
  { subst m1 e1. destruct H1 as [Ha Hb].
    destruct (Z.le_gt_cases (fexp prec emax (Zdigits2 m + e)) e) as [Hle|Hgt].
    - destruct (Ha Hle) as (Hx & Hy & _). rewrite Hx, Hy, Z.max_l by lia.
      rewrite Z.sub_diag. simpl. by rewrite Z.div_1_r.
    - destruct (Hb Hgt) as (Hx & Hy). by rewrite Hx, Hy, Z.max_r by lia. }
  destruct Hm1' as [Hs1 He1]. subst e1'.
  pose proof (round_nearest_even_bounds (shr_m mrs1) (loc_of_shr_record mrs1)) as Hr.
  split; [lia|]. cbv zeta.
  set (m2 := round_nearest_even (shr_m mrs1) (loc_of_shr_record mrs1)) in *.
  assert (Hm2 : 0 < m2) by lia.
  pose proof (shr_fexp_m m2 e1 Hm2) as H2. cbv zeta in H2.
  destruct (shr_fexp prec emax m2 e1 loc_Exact) as [mrs2 e2'] eqn:E2. simpl in H2.
  assert (H3 : shr_m mrs2 = m2 / 2 ^ (Z.max e1 (fexp prec emax (Zdigits2 m2 + e1)) - e1)
               /\ e2' = Z.max e1 (fexp prec emax (Zdigits2 m2 + e1))).
  { destruct H2 as [Ha Hb].
    destruct (Z.le_gt_cases (fexp prec emax (Zdigits2 m2 + e1)) e1) as [Hle|Hgt].
    - destruct (Ha Hle) as (Hx & Hy & _). rewrite Hx, Hy, Z.max_l by lia.
      rewrite Z.sub_diag. simpl. by rewrite Z.div_1_r.
    - destruct (Hb Hgt) as (Hx & Hy). by rewrite Hx, Hy, Z.max_r by lia. }
  destruct H3 as [Hx Hy]. by rewrite Hx, Hy.
Qed.

Lemma fexp_eq (e : Z) : fexp prec emax e = Z.max (e - 24) (-149).
Proof. done. Qed.

Lemma Zdigits2_le_pow (m k : Z) : 0 < m -> m <= 2 ^ k -> 0 <= k -> Zdigits2 m <= k + 1.
Proof.
  intros Hm Hle Hk. destruct (Zdigits2_bounds m Hm) as (Hd & Hl & Hh).
  destruct (Z.le_gt_cases (Zdigits2 m) (k + 1)) as [|Hgt]; [done|].
  assert (2 ^ (k + 1) <= 2 ^ (Zdigits2 m - 1)) by (apply Z.pow_le_mono_r; lia).
  rewrite Z.pow_add_r in * by lia. change (2 ^ 1) with 2 in *.
  assert (0 < 2 ^ k) by (apply Z.pow_pos_nonneg; lia). lia.
Qed.

(** A constant between one and two. *)
Definition unitary (c : t) : Prop :=
exists mc, c = S754_finite false mc (-23) /\ 2 ^ 23 <= Zpos mc < 2 ^ 24.

(** Multiplying a number that is not negative by a constant between one
    and two gives a number of the format that is not smaller. *)
Lemma mul_unitary_ge (x c : t) :
  valid x -> nonNegative x -> unitary c ->
  valid (mul x c) /\ nonNegative (mul x c) /\ le x (mul x c) = true.
Proof.
  intros Hv Hn (mc & -> & Hc).
  destruct x as [s|s| |s mx ex]; simpl in Hn; try done; subst; try done.
  unfold mul, SFmul. cbn [xorb].
  unfold valid, valid_binary, bounded, canonical_mantissa in Hv.
  apply andb_true_iff in Hv as [Hcan Hex].
  apply Z.eqb_eq in Hcan. apply Z.leb_le in Hex. rewrite fexp_eq in Hcan.
  change (emax - prec) with 104 in Hex.
  change (Zpos (digits2_pos mx)) with (Zdigits2 (Zpos mx)) in Hcan.
  rewrite Pos2Z.inj_mul.
  set (M := Zpos mx) in *. set (C := Zpos mc) in *.
  assert (HM : 0 < M) by done.
  destruct (Zdigits2_bounds M HM) as (Hdx & Hxl & Hxh).
  set (dx := Zdigits2 M) in *.
  assert (HP : 0 < M * C) by lia.
  destruct (Zdigits2_bounds (M * C) HP) as (HdP & HPl & HPh).
  set (dP := Zdigits2 (M * C)) in *.
  assert (H23 : 2 ^ 23 = 8388608) by done.
  assert (H24 : 2 ^ 24 = 16777216) by done.
  assert (Hpx : 0 < 2 ^ (dx - 1)) by (apply Z.pow_pos_nonneg; lia).
  assert (HdP' : dP = dx + 23 \/ dP = dx + 24).
  { assert (2 ^ (dx + 22) <= M * C).
    { replace (dx + 22) with ((dx - 1) + 23) by lia. rewrite Z.pow_add_r by lia. nia. }
    assert (M * C < 2 ^ (dx + 24)).
    { rewrite Z.pow_add_r by lia. nia. }
    destruct (Z.le_gt_cases dP (dx + 22)) as [Hle|Hgt].
    { assert (2 ^ dP <= 2 ^ (dx + 22)) by (apply Z.pow_le_mono_r; lia). lia. }
    destruct (Z.le_gt_cases (dx + 25) dP) as [Hle|Hgt'].
    { assert (2 ^ (dx + 24) <= 2 ^ (dP - 1)) by (apply Z.pow_le_mono_r; lia). lia. }
    lia. }
  destruct (binary_round_aux_positive (M * C) (ex + -23) HP) as (m2 & Hm2 & Hres).
  { rewrite fexp_eq. apply Z.div_str_pos. split; [apply Z.pow_pos_nonneg; lia|].
    fold dP. etransitivity; [|exact HPl]. apply Z.pow_le_mono_r; lia. }
  cbv zeta in Hres. rewrite Hres. clear Hres.
  rewrite !fexp_eq in *. fold dP in Hm2 |- *.
  set (e1 := Z.max (ex + -23) (Z.max (dP + (ex + -23) - 24) (-149))) in *.
  set (m1 := M * C / 2 ^ (e1 - (ex + -23))) in *.
  assert (He1 : (e1 = ex /\ M <= m1) \/ (e1 = ex + 1 /\ 2 ^ 23 <= m1)).
  { destruct HdP' as [Hd|Hd].
    - left. assert (e1 = ex) as Heq by (unfold e1; lia). split; [done|].
      unfold m1. rewrite Heq. replace (ex - (ex + -23)) with 23 by lia.
      apply Z.div_le_lower_bound; nia.
    - destruct (Z.eq_dec dx 24) as [H24'|Hne].
      + right. assert (e1 = ex + 1) as Heq by (unfold e1; lia). split; [done|].
        unfold m1. rewrite Heq. replace (ex + 1 - (ex + -23)) with 24 by lia.
        apply Z.div_le_lower_bound; [lia|].
        assert (2 ^ 47 <= M * C).
        { etransitivity; [|exact HPl]. apply Z.pow_le_mono_r; lia. }
        change (2 ^ 47) with (2 ^ 24 * 2 ^ 23) in *. lia.
      + left. assert (e1 = ex) as Heq by (unfold e1; lia). split; [done|].
        unfold m1. rewrite Heq. replace (ex - (ex + -23)) with 23 by lia.
        apply Z.div_le_lower_bound; nia. }
  assert (Hm1 : 0 < m1) by lia.
  assert (Hd1 : Zdigits2 m1 = dP - (e1 - (ex + -23))).
  { unfold m1. apply Zdigits2_shift; [done|]. fold dP. lia. }
  assert (Hcanon1 : e1 = -149 \/ Zdigits2 m1 = 24) by (unfold e1 in *; lia).
  assert (Hm2pos : 0 < m2) by lia.
  destruct (Zdigits2_bounds m1 Hm1) as (Hd1p & Hm1l & Hm1h).
  assert (Hd2 : Zdigits2 m1 <= Zdigits2 m2 <= Zdigits2 m1 + 1).
  { split; [apply Zdigits2_mono; lia|]. apply Zdigits2_le_pow; lia. }
  set (d2 := Zdigits2 m2) in *.
  set (e3 := Z.max e1 (Z.max (d2 + e1 - 24) (-149))).
  set (m3 := m2 / 2 ^ (e3 - e1)).
  assert (H3 : 0 < m3 /\ Z.max (Zdigits2 m3 + e3 - 24) (-149) = e3
               /\ (ex < e3 \/ (e3 = ex /\ M <= m3))).
  { destruct (Z.le_gt_cases d2 24) as [Hle|Hgt].
    - assert (e3 = e1) as Heq by (unfold e3; lia).
      assert (m3 = m2) as Hm3.
      { unfold m3. rewrite Heq, Z.sub_diag. apply Z.div_1_r. }
      rewrite Hm3. fold d2. lia.
    - assert (e3 = d2 + e1 - 24) as Heq by (unfold e3; lia).
      assert (Zdigits2 m3 = 24) as Hd3.
      { unfold m3. rewrite Zdigits2_shift; fold d2; lia. }
      assert (0 <= m3).
      { unfold m3. apply Z.div_pos; [lia|]. apply Z.pow_pos_nonneg; lia. }
      assert (m3 <> 0) by (intros H0; rewrite H0 in Hd3; done).
      rewrite Hd3. lia. }
  destruct H3 as (Hm3 & Hcan3 & Hcmp).
  destruct m3 as [|p|p] eqn:Em3; try lia.
  destruct (e3 <=? emax - prec) eqn:Ee3.
  - split; [|split; [done|]].
    + unfold valid, valid_binary, bounded, canonical_mantissa.
      apply andb_true_iff. split; [|done]. apply Z.eqb_eq. rewrite fexp_eq.
      exact Hcan3.
    + unfold le, SFleb, SFcompare.
      destruct Hcmp as [Hlt | [Heq HMp]].
      * by rewrite (proj2 (Z.compare_lt_iff ex e3) Hlt).
      * rewrite Heq, Z.compare_refl.
        change (Pos.compare_cont Eq mx p) with (Pos.compare mx p).
        destruct (Pos.compare_spec mx p); try done. unfold M in HMp. lia.
  - done.
Qed.

(** ** The order on numbers that are not negative *)

Ltac compare_cases :=
  repeat match goal with
         | |- context [Z.compare ?a ?b] => destruct (Z.compare_spec a b)
         | H : context [Z.compare ?a ?b] |- _ => destruct (Z.compare_spec a b)
         | |- context [Pos.compare ?a ?b] => destruct (Pos.compare_spec a b)
         | H : context [Pos.compare ?a ?b] |- _ => destruct (Pos.compare_spec a b)
         end.

Lemma le_refl (x : t) : nonNegative x -> le x x = true.
Proof.
  destruct x as [s|s| |s m e]; simpl; intros H; subst; try done.
  unfold le, SFleb, SFcompare. rewrite Z.compare_refl.
  change (Pos.compare_cont Eq m m) with (Pos.compare m m). by rewrite Pos.compare_refl.
Qed.

Lemma le_trans (x y z : t) :
  nonNegative x -> nonNegative y -> nonNegative z ->
  le x y = true -> le y z = true -> le x z = true.
Proof.
  destruct x as [sx|sx| |sx mx ex], y as [sy|sy| |sy my ey], z as [sz|sz| |sz mz ez];
    simpl; intros Hx Hy Hz; subst; try done.
  unfold le, SFleb, SFcompare.
  change (Pos.compare_cont Eq) with Pos.compare.
  intros H1 H2. compare_cases; try done; try lia.
Qed.

(** [a > b] is false: [a <= b], numbers being comparable. *)
Lemma gt_false_le (a b : t) :
  nonNegative a -> nonNegative b -> gt a b = false -> le a b = true.
Proof.
  destruct a as [sa|sa| |sa ma ea], b as [sb|sb| |sb mb eb];
    simpl; intros Ha Hb; subst; try done.
  unfold gt, le, SFltb, SFleb, SFcompare.
  change (Pos.compare_cont Eq) with Pos.compare.
  intros H. compare_cases; try done; try lia.
Qed.

End float32_facts.

(* ===================================================================== *)
(** * The result merger: relevance of a file found by both sources        *)
(* ===================================================================== *)

Module merger_relevance.

Import rag merger.

(** What one RAG result does to the relevance and source of the entry of
    [path], if there is one. *)
Definition ragStep (path : string) (entry : option (float32.t * string))
    (res : SearchResult.t) : option (float32.t * string) :=
if String.eqb res.(SearchResult.Chunk).(FilePath) path then
  Some match entry with
       | Some (relevance, _) => (float32.mul (max relevance res.(SearchResult.Score)) c1_2, "both")
       | None => (res.(SearchResult.Score), "rag")
       end
else entry.

(** What one path of the indexer does to it. *)
Definition indexerStep (path : string) (entry : option (float32.t * string))
    (filePath : string) : option (float32.t * string) :=
if String.eqb filePath path then
  Some match entry with
       | Some (relevance, _) => (float32.mul relevance c1_3, "both")
       | None => (c0_9, "indexer")
       end
else entry.

(** The relevance and source of the entry a path gets from the RAG
    results alone. *)
Definition ragOnly (path : string) (ragResults : list SearchResult.t)
    : option (float32.t * string) :=
fold_left (ragStep path) ragResults None.

(** A relevance boosted once for every occurrence of [path] among the
    paths of the indexer. *)
Definition boosted (path : string) (indexerFiles : list string) (relevance : float32.t)
    : float32.t :=
fold_left (fun r filePath => if String.eqb filePath path then float32.mul r c1_3 else r)
          indexerFiles relevance.

Definition summary (f : FileResult.t) : float32.t * string :=
(f.(FileResult.Relevance), f.(FileResult.Source)).

(** Entries are filed under their own path. *)
Definition keyedByPath (fm : gmap string FileResult.t) : Prop :=
map_Forall (fun k f => f.(FileResult.Path) = k) fm.

Lemma addRAG_lookup (st : MergeState) (res : SearchResult.t) (path : string) :
  summary <$> (addRAG st res).(fileMap) !! path
  = ragStep path (summary <$> st.(fileMap) !! path) res.
Proof.
  unfold addRAG, ragStep.
  destruct (String.eqb_spec res.(SearchResult.Chunk).(FilePath) path) as [->|Hne].
  - destruct (st.(fileMap) !! path) as [existing|]; simpl; by rewrite lookup_insert_eq.
  - destruct (st.(fileMap) !! _) as [existing|]; simpl; by rewrite lookup_insert_ne.
Qed.

Lemma addIndexer_lookup (st : MergeState) (filePath path : string) :
  summary <$> (addIndexer st filePath).(fileMap) !! path
  = indexerStep path (summary <$> st.(fileMap) !! path) filePath.
Proof.
  unfold addIndexer, indexerStep.
  destruct (String.eqb_spec filePath path) as [->|Hne].
  - destruct (st.(fileMap) !! path) as [existing|]; simpl; by rewrite lookup_insert_eq.
  - destruct (st.(fileMap) !! _) as [existing|]; simpl; by rewrite lookup_insert_ne.
Qed.

Lemma addRAG_keyed (st : MergeState) (res : SearchResult.t) :
  keyedByPath st.(fileMap) -> keyedByPath (addRAG st res).(fileMap).
Proof.
  intros Hk. unfold addRAG.
  destruct (st.(fileMap) !! _) as [existing|] eqn:E; simpl;
    apply map_Forall_insert_2; try done.
  exact (map_Forall_lookup_1 _ _ _ _ Hk E).
Qed.

Lemma addIndexer_keyed (st : MergeState) (filePath : string) :
  keyedByPath st.(fileMap) -> keyedByPath (addIndexer st filePath).(fileMap).
Proof.
  intros Hk. unfold addIndexer.
  destruct (st.(fileMap) !! _) as [existing|] eqn:E; simpl;
    apply map_Forall_insert_2; try done.
  exact (map_Forall_lookup_1 _ _ _ _ Hk E).
Qed.

Lemma fold_addRAG_lookup (ragResults : list SearchResult.t) (st : MergeState) (path : string) :
  summary <$> (fold_left addRAG ragResults st).(fileMap) !! path
  = fold_left (ragStep path) ragResults (summary <$> st.(fileMap) !! path).
Proof.
  revert st. induction ragResults as [|res l IH]; intros st; simpl; [done|].
  by rewrite IH, addRAG_lookup.
Qed.

Lemma fold_addIndexer_lookup (indexerFiles : list string) (st : MergeState) (path : string) :
  summary <$> (fold_left addIndexer indexerFiles st).(fileMap) !! path
  = fold_left (indexerStep path) indexerFiles (summary <$> st.(fileMap) !! path).
Proof.
  revert st. induction indexerFiles as [|p l IH]; intros st; simpl; [done|].
  by rewrite IH, addIndexer_lookup.
Qed.

Lemma fold_addRAG_keyed (ragResults : list SearchResult.t) (st : MergeState) :
  keyedByPath st.(fileMap) -> keyedByPath (fold_left addRAG ragResults st).(fileMap).
Proof.
  revert st. induction ragResults as [|res l IH]; intros st H; simpl; [done|].
  by apply IH, addRAG_keyed.
Qed.

Lemma fold_addIndexer_keyed (indexerFiles : list string) (st : MergeState) :
  keyedByPath st.(fileMap) -> keyedByPath (fold_left addIndexer indexerFiles st).(fileMap).
Proof.
  revert st. induction indexerFiles as [|p l IH]; intros st H; simpl; [done|].
  by apply IH, addIndexer_keyed.
Qed.

(** An entry the RAG results made becomes, or stays, an entry of both
    sources as soon as its path is among the indexer's, and its relevance
    is boosted at each occurrence. *)
Lemma fold_indexerStep_both (path : string) (indexerFiles : list string)
    (relevance : float32.t) (source : string) :
  fold_left (indexerStep path) indexerFiles (Some (relevance, source))
  = Some (boosted path indexerFiles relevance,
          if existsb (fun p => String.eqb p path) indexerFiles then "both" else source).
Proof.
  revert relevance source. induction indexerFiles as [|p l IH]; intros r s; simpl; [done|].
  unfold indexerStep at 2. destruct (String.eqb p path); simpl.
  - rewrite IH. by destruct (existsb _ l).
  - by rewrite IH.
Qed.

(** ** Scores that are numbers and not negative *)

Import float32_facts.

Definition sound (x : float32.t) : Prop := valid x /\ nonNegative x.

Lemma c1_2_unitary : unitary c1_2.
Proof. eexists. split; [reflexivity|]. by vm_compute. Qed.

Lemma c1_3_unitary : unitary c1_3.
Proof. eexists. split; [reflexivity|]. by vm_compute. Qed.

Lemma max_sound (a b : float32.t) :
  sound a -> sound b -> sound (max a b) /\ le a (max a b) = true /\ le b (max a b) = true.
Proof.
  intros [Hva Hna] [Hvb Hnb]. unfold max. destruct (float32.gt a b) eqn:E.
  - split; [done|]. split; [by apply le_refl|].
    assert (float32.gt b a = false) as Hba.
    { revert E. unfold float32.gt, SFltb.
      destruct a as [sa|sa| |sa ma ea], b as [sb|sb| |sb mb eb];
        simpl in *; subst; try done.
      change (Pos.compare_cont Eq) with Pos.compare.
      intros H. compare_cases; try done; try lia. }
    by apply gt_false_le.
  - split; [done|]. split; [by apply gt_false_le | by apply le_refl].
Qed.

Lemma fold_ragStep_Some (path : string) (ragResults : list SearchResult.t)
    (entry : float32.t * string) :
  is_Some (fold_left (ragStep path) ragResults (Some entry)).
Proof.
  revert entry. induction ragResults as [|res l IH]; intros entry; simpl; [done|].
  unfold ragStep at 2. destruct (String.eqb _ path); [|done]. destruct entry. apply IH.
Qed.

(** The relevance the RAG results give a path is a number, not
    negative, and at least each of the path's scores. *)
Lemma fold_ragStep_sound (path : string) (ragResults : list SearchResult.t)
    (entry : option (float32.t * string)) (bound : list float32.t) :
  Forall (fun res => sound res.(SearchResult.Score)) ragResults ->
  match entry with
  | Some (x, _) => sound x /\ Forall (fun s => nonNegative s /\ le s x = true) bound
  | None => bound = []
  end ->
  match fold_left (ragStep path) ragResults entry with
  | Some (x, _) =>
      sound x
      /\ Forall (fun s => nonNegative s /\ le s x = true) bound
      /\ forall res, res ∈ ragResults -> res.(SearchResult.Chunk).(FilePath) = path ->
           le res.(SearchResult.Score) x = true
  | None => forall res, res ∈ ragResults -> res.(SearchResult.Chunk).(FilePath) <> path
  end.
Proof.
  intros H. revert entry bound.
  induction H as [|res l Hres _ IH]; intros entry bound Hentry; simpl.
  - destruct entry as [[x s]|]; [|by intros res Hin; apply elem_of_nil in Hin].
    destruct Hentry. split; [done|]. split; [done|]. intros res Hin. by apply elem_of_nil in Hin.
  - unfold ragStep at 2.
    destruct (String.eqb_spec res.(SearchResult.Chunk).(FilePath) path) as [Heq|Hne].
    + assert (Hnew : match entry with
                     | Some (relevance, _) =>
                         (float32.mul (max relevance res.(SearchResult.Score)) c1_2, "both")
                     | None => (res.(SearchResult.Score), "rag")
                     end = (match entry with
                            | Some (relevance, _) =>
                                float32.mul (max relevance res.(SearchResult.Score)) c1_2
                            | None => res.(SearchResult.Score)
                            end, match entry with Some _ => "both" | None => "rag" end)).
      { by destruct entry as [[? ?]|]. }
      rewrite Hnew. clear Hnew.
      set (x' := match entry with
                 | Some (relevance, _) =>
                     float32.mul (max relevance res.(SearchResult.Score)) c1_2
                 | None => res.(SearchResult.Score)
                 end).
      assert (Hx' : sound x' /\ Forall (fun s => nonNegative s /\ le s x' = true)
                                       (res.(SearchResult.Score) :: bound)).
      { subst x'. destruct entry as [[x s]|].
        - destruct Hentry as [Hx Hb].
          destruct (max_sound x res.(SearchResult.Score) Hx Hres) as ([Hvm Hnm] & Hl & Hr).
          destruct (mul_unitary_ge _ c1_2 Hvm Hnm c1_2_unitary) as (Hv & Hn & Hle).
          split; [done|]. constructor.
          + split; [apply Hres|].
            eapply le_trans; [apply Hres | exact Hnm | exact Hn | exact Hr | exact Hle].
          + eapply Forall_impl; [exact Hb|]. intros s0 [Hs0n Hs0]. split; [done|].
            eapply le_trans; [done | apply Hx | done | exact Hs0 |].
            eapply le_trans; [apply Hx | exact Hnm | done | exact Hl | exact Hle].
        - subst bound. split; [done|]. constructor; [|constructor].
          split; [apply Hres | apply le_refl, Hres]. }
      specialize (IH (Some (x', match entry with Some _ => "both" | None => "rag" end))
                     (res.(SearchResult.Score) :: bound) Hx').
      destruct (fold_ragStep_Some path l
                  (x', match entry with Some _ => "both" | None => "rag" end)) as [[x s] Hsome].
      rewrite Hsome in IH |- *.
      destruct IH as (Hx & Hb & Hrest). apply Forall_cons in Hb as [[_ Hres'] Hb].
      split; [done|]. split; [done|]. intros res' Hin Hp.
      apply elem_of_cons in Hin as [->|Hin]; [done | by apply Hrest].
    + specialize (IH entry bound Hentry).
      destruct (fold_left (ragStep path) l entry) as [[x s]|].
      * destruct IH as (Hx & Hb & Hrest). split; [done|]. split; [done|].
        intros res' Hin Hp. apply elem_of_cons in Hin as [->|Hin]; [done | by apply Hrest].
      * intros res' Hin. apply elem_of_cons in Hin as [->|Hin]; [done | by apply IH].
Qed.

(** Boosting keeps a relevance a number, and does not lower it. *)
Lemma boosted_ge (path : string) (indexerFiles : list string) (x : float32.t) :
  sound x -> sound (boosted path indexerFiles x) /\ le x (boosted path indexerFiles x) = true.
Proof.
  revert x. induction indexerFiles as [|p l IH]; intros x Hx; simpl.
  - split; [done|]. apply le_refl, Hx.
  - destruct (String.eqb p path); [|by apply IH].
    destruct Hx as [Hv Hn].
    destruct (mul_unitary_ge x c1_3 Hv Hn c1_3_unitary) as (Hv' & Hn' & Hle).
    destruct (IH (float32.mul x c1_3) (conj Hv' Hn')) as [Hs Hle'].
    split; [done|]. eapply le_trans; [done | exact Hn' | apply Hs | exact Hle | exact Hle'].
Qed.

(** ** [Merge] *)

Lemma truncateLoop_prefix (m : ResultMerger) (files acc : list FileResult.t) (total : Z) :
  exists rest, acc ++ files = (truncateLoop m files total acc).1 ++ rest.
Proof.
  revert acc total. induction files as [|f files IH]; intros acc total; simpl.
  - by exists [].
  - destruct (m.(maxTokens) <? Int.add total (fileTokens f)); simpl.
    + by exists (f :: files).
    + destruct (IH (acc ++ [f]) (Int.add total (fileTokens f))) as [rest H].
      exists rest. by rewrite <- H, <- app_assoc.
Qed.

(** The property of the specification: a file found by both sources
    has a relevance that is at least each of its RAG scores and at least
    the prior of the indexer. *)
Definition monotone (ragResults : list SearchResult.t) (indexerFiles : list string)
    (r : HybridResult.t) : Prop :=
forall f, f ∈ r.(HybridResult.Files) ->
  (exists res, res ∈ ragResults /\ res.(SearchResult.Chunk).(FilePath) = f.(FileResult.Path)) ->
  f.(FileResult.Path) ∈ indexerFiles ->
  (forall res, res ∈ ragResults ->
     res.(SearchResult.Chunk).(FilePath) = f.(FileResult.Path) ->
     le res.(SearchResult.Score) f.(FileResult.Relevance) = true)
  /\ le c0_9 f.(FileResult.Relevance) = true.

Section Relevance.

Variable rangeMap : gmap string FileResult.t -> list FileResult.t.
Variable sortSlice :
  (FileResult.t -> FileResult.t -> bool) -> list FileResult.t -> list FileResult.t.

Hypothesis rangeMap_perm : forall fm, rangeMap fm ≡ₚ (map_to_list fm).*2.
Hypothesis sortSlice_perm : forall less l, sortSlice less l ≡ₚ l.

(** A file [Merge] returns is the entry of its path in the map the two
    loops built. *)
Lemma Merge_files (m : ResultMerger) (ragResults : list SearchResult.t)
    (indexerFiles : list string) (f : FileResult.t) :
  f ∈ (Merge rangeMap sortSlice m ragResults indexerFiles).(HybridResult.Files) ->
  fold_left (indexerStep f.(FileResult.Path)) indexerFiles
    (ragOnly f.(FileResult.Path) ragResults) = Some (summary f).
Proof.
  unfold Merge, truncateToTokenBudget.
  set (st0 := {| fileMap := ∅; sources := {| Sources.Indexer := 0; Sources.RAG := 0 |} |}).
  set (st := fold_left addIndexer indexerFiles (fold_left addRAG ragResults st0)).
  cbn [HybridResult.Files].
  destruct (truncateLoop_prefix m (sortSlice
              (fun fi fj => float32.gt fi.(FileResult.Relevance) fj.(FileResult.Relevance))
              (rangeMap st.(fileMap))) [] 0) as [rest Hpre].
  destruct (truncateLoop m _ 0 []) as [truncated total]. simpl in *.
  intros Hin.
  assert (Hin' : f ∈ (map_to_list st.(fileMap)).*2).
  { assert (Happ : f ∈ truncated ++ rest) by (apply elem_of_app; by left).
    rewrite <- Hpre in Happ. by rewrite sortSlice_perm, rangeMap_perm in Happ. }
  apply list_elem_of_fmap in Hin' as ([k f'] & -> & Hk). simpl.
  apply elem_of_map_to_list in Hk.
  assert (Hkey : keyedByPath st.(fileMap)).
  { apply fold_addIndexer_keyed, fold_addRAG_keyed, map_Forall_empty. }
  pose proof (map_Forall_lookup_1 _ _ _ _ Hkey Hk) as Hp. simpl in Hp. rewrite Hp.
  pose proof (fold_addIndexer_lookup indexerFiles (fold_left addRAG ragResults st0) k) as H1.
  rewrite fold_addRAG_lookup in H1.
  assert (H0 : summary <$> st0.(fileMap) !! k = None) by (simpl; by rewrite lookup_empty).
  rewrite H0 in H1. fold st in H1. rewrite Hk in H1.
  unfold ragOnly. by rewrite <- H1.
Qed.

(** C4, amended.  A file [Merge] returns whose path is among the RAG
    results and among the paths of the indexer has the source both and
    the relevance of its RAG-only entry multiplied by 1.3 once for each
    occurrence of its path among those of the indexer; when the RAG
    scores are numbers and not negative, that relevance is at least the
    one of the RAG-only entry and at least each RAG score of the path.
    (It need not reach the prior of the indexer.) *)
Theorem both_sources_relevance (m : ResultMerger) (ragResults : list SearchResult.t)
    (indexerFiles : list string) (f : FileResult.t) (x : float32.t) (s : string) :
  f ∈ (Merge rangeMap sortSlice m ragResults indexerFiles).(HybridResult.Files) ->
  ragOnly f.(FileResult.Path) ragResults = Some (x, s) ->
  f.(FileResult.Path) ∈ indexerFiles ->
  f.(FileResult.Source) = "both"
  /\ f.(FileResult.Relevance) = boosted f.(FileResult.Path) indexerFiles x
  /\ (Forall (fun res => sound res.(SearchResult.Score)) ragResults ->
      le x f.(FileResult.Relevance) = true
      /\ forall res, res ∈ ragResults ->
           res.(SearchResult.Chunk).(FilePath) = f.(FileResult.Path) ->
           le res.(SearchResult.Score) f.(FileResult.Relevance) = true).
Proof.
  intros Hin Hrag Hidx. apply Merge_files in Hin.
  rewrite Hrag, fold_indexerStep_both in Hin.
  assert (Hex : existsb (fun p => String.eqb p f.(FileResult.Path)) indexerFiles = true).
  { apply existsb_exists. exists f.(FileResult.Path).
    split; [by apply list_elem_of_In | apply String.eqb_refl]. }
  rewrite Hex in Hin. injection Hin as Hrel Hsrc.
  split; [done|]. split; [done|]. intros Hsound.
  pose proof (fold_ragStep_sound f.(FileResult.Path) ragResults None [] Hsound eq_refl) as Hs.
  fold (ragOnly f.(FileResult.Path) ragResults) in Hs. rewrite Hrag in Hs.
  destruct Hs as (Hx & _ & Hscores).
  destruct (boosted_ge f.(FileResult.Path) indexerFiles x Hx) as [Hb Hle].
  rewrite <- Hrel. split; [done|]. intros res Hres Hp.
  assert (Hr : sound res.(SearchResult.Score)).
  { rewrite Forall_forall in Hsound. by apply Hsound. }
  eapply le_trans; [apply Hr | apply Hx | apply Hb | by apply Hscores | done].
Qed.

End Relevance.

Definition half : float32.t := Eval vm_compute in float32.const 1 2.

(** C4 as stated fails: a file found by both sources with the RAG score
    0.5 gets the relevance 0.5 * 1.3 = 0.65, below the prior 0.9 of the
    indexer. *)
Lemma both_sources_below_prior :
  ~ monotone [merger_budget.found "a.go" 10 half] ["a.go"]
      (Merge rangeByKey insertionSort (NewResultMerger 50000)
         [merger_budget.found "a.go" 10 half] ["a.go"]).
Proof.
  intros H.
  assert (Hf : (Merge rangeByKey insertionSort (NewResultMerger 50000)
                  [merger_budget.found "a.go" 10 half] ["a.go"]).(HybridResult.Files)
               = [ {| FileResult.Path := "a.go"; FileResult.Content := "";
                      FileResult.Relevance := S754_finite false 10905190 (-24);
                      FileResult.Source := "both";
                      FileResult.Highlights := [ {| LineRange.Start := 1; LineRange.End_ := 40 |} ];
                      FileResult.Chunks := [merger_budget.chunkOf "a.go" 10] |} ]).
  { by vm_compute. }
  destruct (H _ ltac:(rewrite Hf; apply list_elem_of_here)) as [_ Hprior].
  - eexists. split; [apply list_elem_of_here | done].
  - apply list_elem_of_here.
  - by vm_compute in Hprior.
Qed.

Lemma both_sources_relevance_witness :
  exists f,
    f ∈ (Merge rangeByKey insertionSort (NewResultMerger 1000)
           [merger_budget.found "b.go" 500 (float32.const 8 10);
            merger_budget.found "c.go" 500 (float32.const 6 10)]
           ["a.go"; "b.go"]).(HybridResult.Files)
    /\ f.(FileResult.Path) = "b.go" /\ f.(FileResult.Source) = "both"
    /\ le (float32.const 8 10) f.(FileResult.Relevance) = true.
Proof.
  set (ragResults := [merger_budget.found "b.go" 500 (float32.const 8 10);
                      merger_budget.found "c.go" 500 (float32.const 6 10)]).
  set (r := Merge rangeByKey insertionSort (NewResultMerger 1000) ragResults ["a.go"; "b.go"]).
  set (f := {| FileResult.Path := "b.go"; FileResult.Content := "";
               FileResult.Relevance := S754_finite false 8724152 (-23);
               FileResult.Source := "both";
               FileResult.Highlights := [ {| LineRange.Start := 1; LineRange.End_ := 40 |} ];
               FileResult.Chunks := [merger_budget.chunkOf "b.go" 500] |}).
  assert (Hin : f ∈ r.(HybridResult.Files)).
  { assert (Hf : head r.(HybridResult.Files) = Some f) by (by vm_compute).
    destruct r.(HybridResult.Files) as [|f0 l]; [done|]. injection Hf as ->.
    apply list_elem_of_here. }
  exists f. split; [exact Hin|]. split; [reflexivity|].
  destruct (both_sources_relevance rangeByKey insertionSort
              (fun fm => reflexivity _) merger_budget.insertionSort_perm
              (NewResultMerger 1000) ragResults ["a.go"; "b.go"] f
              (float32.const 8 10) "rag" Hin)
    as (Hsrc & _ & Hle).
  - by vm_compute.
  - apply list_elem_of_further, list_elem_of_here.
  - split; [exact Hsrc|].
    refine (proj1 (Hle _)). repeat constructor; by vm_compute.
Defined.

End merger_relevance.

(* ===================================================================== *)
(** * The chunker: the oversize split                                     *)
(* ===================================================================== *)

Module chunker_spec.

Import rag chunker.

(** ** Splitting and joining lines *)

(** The byte [sep] does not occur in [s]. *)
Fixpoint free (sep : ascii) (s : string) : bool :=
match s with
| EmptyString => true
| String c s' => negb (Ascii.eqb c sep) && free sep s'
end.

Lemma Split_free (s : string) (sep : ascii) :
  Forall (fun l => free sep l = true) (strings.Split s sep).
Proof.
  induction s as [|c s IH]; simpl.
  - by constructor.
  - destruct (Ascii.eqb c sep) eqn:E.
    + by constructor.
    + destruct (strings.Split s sep) as [|l ls]; [by repeat constructor; simpl; rewrite E|].
      apply Forall_cons in IH as [Hl Hls]. constructor; [|done]. simpl. by rewrite E.
Qed.

Lemma Split_of_free (s : string) (sep : ascii) :
  free sep s = true -> strings.Split s sep = [s].
Proof.
  induction s as [|c s IH]; simpl; [done|].
  intros H. apply andb_true_iff in H as [Hc Hs].
  destruct (Ascii.eqb c sep); [done|]. by rewrite IH.
Qed.

Lemma Split_app_sep (x rest : string) (sep : ascii) :
  free sep x = true ->
  strings.Split (x +:+ String sep rest) sep = x :: strings.Split rest sep.
Proof.
  induction x as [|c x IH]; simpl.
  - intros _. by rewrite Ascii.eqb_refl.
  - intros H. apply andb_true_iff in H as [Hc Hx].
    destruct (Ascii.eqb c sep); [done|]. by rewrite IH.
Qed.

(** Joining lines and splitting again gives the lines back. *)
Lemma Split_Join (ls : list string) (sep : ascii) :
  ls <> [] -> Forall (fun l => free sep l = true) ls ->
  strings.Split (strings.Join ls (String sep "")) sep = ls.
Proof.
  unfold strings.Join. induction ls as [|x ls IH]; [done|].
  intros _ H. apply Forall_cons in H as [Hx Hls].
  destruct ls as [|y ls].
  - simpl. by apply Split_of_free.
  - change (String.concat (String sep "") (x :: y :: ls))
      with (x +:+ String sep (String.concat (String sep "") (y :: ls))).
    rewrite Split_app_sep by done. f_equal. by apply IH.
Qed.

(** ** The loop *)

(** The lines of the [k]-th window: a hundred lines from line [90 k]. *)
Definition window (lines : list string) (k : nat) : list string :=
take 100 (drop (90 * k) lines).

Lemma loopIndices_eq (n : nat) :
  loopIndices n (linesPerChunk - overlapLines)
  = map (fun k => (90 * k)%nat) (seq 0 (Nat.div (n + 89) 90)).
Proof.
  unfold loopIndices. change (linesPerChunk - overlapLines)%nat with 90%nat.
  replace (n + 90 - 1)%nat with (n + 89)%nat by lia.
  apply map_ext. intros k. lia.
Qed.

Section Split.

Variables filePath content chunkType symbolName language : string.
Variables start end_ : Z.

Let lines : list string := strings.Split content "010"%char.

(** The symbol of the [j]-th sub-chunk returned (from 0), cut from the
    [k]-th window: numbered, unless it is the first one returned and its
    window reaches the last line. *)
Definition partSymbol (j k : nat) : string :=
if ((0 <? j)%nat || (90 * k + 100 <? length lines)%nat)%bool
then symbolName +:+ "_part" +:+ strings.itoa (Z.of_nat (S j))
else symbolName.

Definition subChunk (j k : nat) : Chunk :=
NewChunk filePath (strings.Join (window lines k) (String "010" "")) chunkType (partSymbol j k)
  language
  (Int.add start (Z.of_nat (90 * k)))
  (Int.add (Int.add start (Z.of_nat (Nat.min (90 * k + 100) (length lines)))) (-1)).

(** The windows kept are those with enough text. *)
Definition kept (k : nat) : Prop :=
(90 * k < length lines)%nat
/\ 20 <= strings.len (strings.TrimSpace (strings.Join (window lines k) (String "010" ""))).

Definition increasing (ks : list nat) : Prop :=
forall i j a b, ks !! i = Some a -> ks !! j = Some b -> (i < j)%nat -> (a < b)%nat.

(** The state of the loop before the window [t]: the sub-chunks of the
    windows [ks] kept so far. *)
Definition loopInv (t : nat) (st : SplitState) (ks : list nat) : Prop :=
st.(chunks) = imap subChunk ks
/\ st.(partNum) = S (length ks)
/\ increasing ks
/\ Forall (fun k => (k < t)%nat /\ kept k) ks.

Lemma window_slice (t : nat) :
  (90 * t < length lines)%nat ->
  let endIdx := (90 * t + linesPerChunk)%nat in
  let endIdx := if (length lines <? endIdx)%nat then length lines else endIdx in
  take (endIdx - 90 * t) (drop (90 * t) lines) = window lines t
  /\ endIdx = Nat.min (90 * t + 100) (length lines)
  /\ (endIdx <? length lines)%nat = (90 * t + 100 <? length lines)%nat.
Proof.
  intros Ht. change linesPerChunk with 100%nat. cbv zeta. unfold window.
  destruct (length lines <? 90 * t + 100)%nat eqn:E.
  - apply Nat.ltb_lt in E. split; [|split].
    + rewrite !take_ge; [done | rewrite length_drop; lia | rewrite length_drop; lia].
    + lia.
    + rewrite Nat.ltb_irrefl. symmetry. apply Nat.ltb_ge. lia.
  - apply Nat.ltb_ge in E. split; [|split].
    + f_equal. lia.
    + lia.
    + done.
Qed.

Lemma splitStep_inv (t : nat) (st : SplitState) (ks : list nat) :
  (90 * t < length lines)%nat -> loopInv t st ks ->
  exists ks',
    loopInv (S t) (splitStep filePath chunkType symbolName language start lines st (90 * t)) ks'.
Proof.
  intros Ht (Hc & Hp & Hi & Hk).
  assert (Hk' : Forall (fun k => (k < S t)%nat /\ kept k) ks).
  { eapply Forall_impl; [exact Hk|]. intros k [? ?]. split; [lia | done]. }
  unfold splitStep. destruct st.(stopped).
  { exists ks. by repeat split. }
  destruct (window_slice t Ht) as (Hw & He & Hlt). cbv zeta in Hw, He, Hlt.
  rewrite Hw, Hlt, He.
  destruct (strings.len (strings.TrimSpace _) <? 20) eqn:Etiny.
  { exists ks. by repeat split. }
  exists (ks ++ [t]). apply Z.ltb_ge in Etiny.
  split; [|split; [|split]]; cbn [chunks partNum].
  - rewrite imap_app, Hc. f_equal. cbn [imap]. rewrite Nat.add_0_r.
    unfold subChunk, partSymbol. rewrite Hp. reflexivity.
  - rewrite length_app, Hp. simpl. lia.
  - intros i j a b Ha Hb Hij.
    destruct (lookup_app_Some ks [t] j b) as [Hb' _]. destruct (Hb' Hb) as [Hj | [Hj1 Hj2]].
    + rewrite lookup_app_l in Ha by (apply lookup_lt_Some in Hj; lia).
      by apply (Hi i j).
    + apply list_lookup_singleton_Some in Hj2 as [Hj2 <-].
      rewrite lookup_app_l in Ha by lia.
      rewrite Forall_lookup in Hk. destruct (Hk i a Ha). lia.
  - apply Forall_app. split; [done|]. apply Forall_singleton. split; [lia|]. by split.
Qed.

Lemma fold_splitStep_inv (count t : nat) (st : SplitState) (ks : list nat) :
  (forall k, (t <= k < t + count)%nat -> (90 * k < length lines)%nat) ->
  loopInv t st ks ->
  exists ks',
    loopInv (t + count)
      (fold_left (splitStep filePath chunkType symbolName language start lines)
         (map (fun k => (90 * k)%nat) (seq t count)) st) ks'.
Proof.
  revert t st ks. induction count as [|count IH]; intros t st ks Hin Hinv.
  - exists ks. by rewrite Nat.add_0_r.
  - destruct (splitStep_inv t st ks) as [ks1 H1]; [apply Hin; lia | done |].
    destruct (IH (S t) _ ks1 ltac:(intros k Hk; apply Hin; lia) H1) as [ks2 H2].
    exists ks2. replace (t + S count)%nat with (S t + count)%nat by lia. exact H2.
Qed.


End Split.




(** 150 lines of 30 characters. *)
Definition paragraph : string :=
String.concat (String "010" "") (repeat "line of thirty characters long" 150).


Example paragraph_parts :
  (fun c => (c.(SymbolName), c.(StartLine), c.(EndLine)))
    <$> splitLargeChunk "a.go" paragraph "function" "f" "go" 7 156
  = [("f_part1", 7, 106); ("f_part2", 97, 156)].
Proof. by vm_compute. Qed.

End chunker_spec.

(* ===================================================================== *)
(** * The executor: what an action does to the files                     *)
(* ===================================================================== *)

Module executor_files.

Import action executor.

(** The actions that go through [checkPath]. *)
Definition guarded (a : Action) : Prop :=
  a.(Type_) = ActionCreateFile \/ a.(Type_) = ActionEditFile \/ a.(Type_) = ActionDeleteFile.

(** The key under which the file of an action is kept. *)
Definition target (e : Executor) (a : Action) : string :=
  filepath.Clean (abs e a.(Path)).


Section Files.

Variable bash : os.Bash.

Lemma Execute_dryRun (e : Executor) (fs : os.FS) (a : Action) :
  e.(dryRun) = true ->
  (Execute bash e fs a).2 = fs /\ (Execute bash e fs a).1.(FilesChanged) = [].
Proof.
  intros Hd. unfold Execute. rewrite Hd.
  repeat match goal with
         | |- context [if ?b then _ else _] => destruct b
         | |- context [match ?x with _ => _ end] => destruct x
         end; done.
Qed.

Lemma Execute_dryRun_bash (bash' : os.Bash) (e : Executor) (fs : os.FS) (a : Action) :
  e.(dryRun) = true -> Execute bash e fs a = Execute bash' e fs a.
Proof. intros Hd. unfold Execute. by rewrite Hd. Qed.

(** In dry-run no action changes a file or reports a changed file, and
    the shell is never started: the outcome is the same whatever the
    shell would have done. *)
Theorem dry_run_touches_nothing (e : Executor) (fs : os.FS) (a : Action) :
  e.(dryRun) = true ->
  (Execute bash e fs a).2 = fs
  /\ (Execute bash e fs a).1.(FilesChanged) = []
  /\ forall bash' : os.Bash, Execute bash' e fs a = Execute bash e fs a.
Proof.
  intros Hd. destruct (Execute_dryRun e fs a Hd) as [H1 H2].
  split; [done|]. split; [done|]. intros bash'. symmetry. by apply Execute_dryRun_bash.
Qed.




(** Every action but [run_command] changes at most the file it names:
    either the files stay as they are, or the action succeeded, is one
    of the three guarded ones with a path [checkPath] accepts, reports
    exactly its path as changed, and every other file is as before.  A
    failed action reports no changed file. *)
Theorem changes_only_its_file (e : Executor) (fs : os.FS) (a : Action) :
  a.(Type_) <> ActionRunCommand ->
  let r := Execute bash e fs a in
  (r.2 = fs
   \/ (guarded a /\ checkPath e a.(Path) = None /\ r.1.(Success) = true
       /\ r.1.(FilesChanged) = [a.(Path)]
       /\ forall k, k <> target e a -> r.2 !! k = fs !! k))
  /\ (r.1.(Success) = false -> r.1.(FilesChanged) = []).
Proof.
  intros Hrun r. subst r. unfold target, guarded, Execute.
  destruct (String.eqb a.(Type_) ActionReadFile) eqn:E1.
  { destruct (os.ReadFile fs (abs e a.(Path))); simpl; split; auto. }
  destruct (String.eqb a.(Type_) ActionCreateFile) eqn:E2.
  { apply String.eqb_eq in E2.
    destruct (checkPath e a.(Path)) eqn:Hc; [simpl; split; auto|].
    destruct e.(dryRun); simpl; [split; auto|].
    split; [|done]. right. split; [auto|]. split; [done|]. split; [done|]. split; [done|].
    intros k Hk. by rewrite lookup_insert_ne. }
  destruct (String.eqb a.(Type_) ActionEditFile) eqn:E3.
  { apply String.eqb_eq in E3.
    destruct (checkPath e a.(Path)) eqn:Hc; [simpl; split; auto|].
    destruct a.(Edits) as [|ed rest]; [simpl; split; auto|].
    destruct (os.ReadFile fs (abs e a.(Path))); [|simpl; split; auto].
    destruct (applyEdits a.(Path) s (ed :: rest)); [|simpl; split; auto].
    destruct e.(dryRun); simpl; [split; auto|].
    split; [|done]. right. split; [auto|]. split; [done|]. split; [done|]. split; [done|].
    intros k Hk. by rewrite lookup_insert_ne. }
  destruct (String.eqb a.(Type_) ActionDeleteFile) eqn:E4.
  { apply String.eqb_eq in E4.
    destruct (checkPath e a.(Path)) eqn:Hc; [simpl; split; auto|].
    destruct e.(dryRun); simpl; [split; auto|].
    unfold os.Remove. destruct (fs !! filepath.Clean (abs e a.(Path))) eqn:Hf; simpl.
    - split; [|done]. right. split; [auto|]. split; [done|]. split; [done|]. split; [done|].
      intros k Hk. by rewrite lookup_delete_ne.
    - split; auto. }
  destruct (String.eqb a.(Type_) ActionRunCommand) eqn:E5.
  { apply String.eqb_eq in E5. done. }
  repeat match goal with
         | |- context [if ?b then _ else _] => destruct b
         | |- context [match ?x with _ => _ end] => destruct x
         end; simpl; split; auto.
Qed.

End Files.

Definition dryBox : Executor :=
  NewExecutor {| ProjectRoot := "/home/u/proj"; Index := None; DryRun := true;
                 Blocklist := [] |}.

Definition newNote : Action :=
  {| Type_ := ActionCreateFile; Path := "docs/note.txt"; Edits := []; Content := "remember";
     Command := ""; Workdir := ""; Query := ""; Reason := ""; Timeout := 0; Summary := "";
     Question := "" |}.

Definition dropNote : Action :=
  {| Type_ := ActionDeleteFile; Path := "docs/note.txt"; Edits := []; Content := "";
     Command := ""; Workdir := ""; Query := ""; Reason := ""; Timeout := 0; Summary := "";
     Question := "" |}.


Definition noteDisk : os.FS := {[ "/home/u/proj/docs/note.txt" := "old" ]}.

Lemma dry_run_touches_nothing_witness :
  (Execute executor_spec.idleBash dryBox noteDisk dropNote).2 = noteDisk
  /\ (Execute executor_spec.idleBash dryBox noteDisk dropNote).1.(FilesChanged) = []
  /\ forall bash' : os.Bash,
       Execute bash' dryBox noteDisk dropNote
       = Execute executor_spec.idleBash dryBox noteDisk dropNote.
Proof. apply (dry_run_touches_nothing executor_spec.idleBash dryBox noteDisk dropNote). reflexivity. Defined.




Lemma changes_only_its_file_witness :
  ((Execute executor_spec.idleBash executor_spec.sandbox noteDisk newNote).2 = noteDisk
   \/ (guarded newNote /\ checkPath executor_spec.sandbox newNote.(Path) = None
       /\ (Execute executor_spec.idleBash executor_spec.sandbox noteDisk newNote).1.(Success) = true
       /\ (Execute executor_spec.idleBash executor_spec.sandbox noteDisk newNote).1.(FilesChanged)
          = [newNote.(Path)]
       /\ forall k, k <> target executor_spec.sandbox newNote ->
            (Execute executor_spec.idleBash executor_spec.sandbox noteDisk newNote).2 !! k
            = noteDisk !! k))
  /\ ((Execute executor_spec.idleBash executor_spec.sandbox noteDisk newNote).1.(Success) = false ->
      (Execute executor_spec.idleBash executor_spec.sandbox noteDisk newNote).1.(FilesChanged) = []).
Proof.
  apply (changes_only_its_file executor_spec.idleBash executor_spec.sandbox noteDisk newNote).
  by vm_compute.
Defined.

End executor_files.

(* ===================================================================== *)
(** * The task manager: numbering and status updates                      *)
(* ===================================================================== *)

Module tasks_numbering.

Import tasks.


Lemma Split_length (s : string) (sep : ascii) :
  (length (strings.Split s sep) <= S (String.length s))%nat.
Proof.
  induction s as [|c s IH]; simpl; [lia|].
  destruct (Ascii.eqb c sep); simpl; [lia|].
  destruct (strings.Split s sep); simpl in *; lia.
Qed.







(** [setStatus] changes the first task that has the id. *)
Lemma setStatus_Some (l l' : list Task) (id : Z) (st : TaskStatus) :
  setStatus l id st = Some l' ->
  exists i t, l !! i = Some t /\ t.(ID) = id
    /\ (forall j t', (j < i)%nat -> l !! j = Some t' -> t'.(ID) <> id)
    /\ l' = <[i := withStatus t st]> l.
Proof.
  revert l'. induction l as [|t l IH]; intros l'; simpl; [done|].
  destruct (t.(ID) =? id) eqn:E.
  - intros [= <-]. exists 0%nat, t. split; [done|]. split; [lia|]. split; [|done].
    intros j t' Hj. lia.
  - destruct (setStatus l id st) as [l''|]; [|done]. intros [= <-].
    destruct (IH l'' eq_refl) as (i & t0 & Hi & Hid & Hlt & ->).
    exists (S i), t0. split; [done|]. split; [done|]. split; [|done].
    intros [|j] t' Hj Hl; simpl in Hl.
    + injection Hl as <-. lia.
    + apply (Hlt j); [lia | done].
Qed.

Lemma setStatus_None (l : list Task) (id : Z) (st : TaskStatus) :
  setStatus l id st = None -> Forall (fun t => t.(ID) <> id) l.
Proof.
  induction l as [|t l IH]; simpl; [by constructor|].
  destruct (t.(ID) =? id) eqn:E; [done|].
  destruct (setStatus l id st) as [l''|]; [done|]. intros _.
  constructor; [lia | by apply IH].
Qed.

(** [UpdateTaskStatus] changes the status of the first task that has
    the id, and nothing else of any task, the prompt, the summary or
    [TotalTasks]; when no task has the id it returns the error "task
    with ID n not found" and leaves the breakdown as it was. *)
Theorem status_update_hits_first_match (tb : TaskBreakdown) (taskID : Z) (status : TaskStatus) :
  match UpdateTaskStatus tb taskID status with
  | (tb', None) =>
      exists i t,
        tb.(Tasks) !! i = Some t /\ t.(ID) = taskID
        /\ (forall j t', (j < i)%nat -> tb.(Tasks) !! j = Some t' -> t'.(ID) <> taskID)
        /\ tb'.(Tasks) = <[i := withStatus t status]> tb.(Tasks)
        /\ tb'.(UserPrompt) = tb.(UserPrompt) /\ tb'.(Summary) = tb.(Summary)
        /\ tb'.(TotalTasks) = tb.(TotalTasks)
  | (tb', Some err) =>
      tb' = tb
      /\ err = "task with ID " +:+ strings.itoa taskID +:+ " not found"
      /\ Forall (fun t => t.(ID) <> taskID) tb.(Tasks)
  end.
Proof.
  unfold UpdateTaskStatus.
  destruct (setStatus tb.(Tasks) taskID status) as [l'|] eqn:Hs.
  - destruct (setStatus_Some _ _ _ _ Hs) as (i & t & Hi & Hid & Hlt & ->).
    exists i, t. unfold UpdateStats. simpl Tasks.
    destruct (fold_left countTask _ _) as [[c ip] p]. simpl. done.
  - split; [done|]. split; [done|]. by apply (setStatus_None _ _ status).
Qed.

End tasks_numbering.

(* ===================================================================== *)
(** * The runner: what an execution and a run look like                   *)
(* ===================================================================== *)

Module runner_outcomes.

Import action llm_client runner.





Section Executions.

Variable jsonUnmarshal : string -> Action + string.
Variable bash : os.Bash.
Variable a : CodingAgent.




(** ** The files under dry-run *)


(** ** The loop of [Run] *)














(** ** The cost of a run and the files under dry-run *)









End Executions.

(** An agent for the examples: the LLM answers the planning request
    with two tasks, then asks for a file to be created, then for the
    task to be closed. *)
Definition planner : CodingAgent :=
  {| llmClient :=
       {| Chat := fun n _ =>
            inl {| llm_client.Content :=
                     match n with
                     | O => "Here is the plan:
☐ write the note
2. check the note"
                     | S O => "create"
                     | _ => "finish"
                     end;
                   Provider := "test"; Model := "test"; TokensUsed := 0;
                   FinishReason := "stop" |} |};
     indexer := fun _ _ => inl {| indexer.SearchSymbol := fun _ => [];
                                  indexer.FetchContext := fun _ _ => "" |};
     projectPath := "/home/u/proj" |}.

Definition finish : Action :=
  {| Type_ := ActionComplete; Path := ""; Edits := []; action.Content := ""; Command := "";
     Workdir := ""; Query := ""; Reason := ""; Timeout := 0; Summary := "noted";
     Question := "" |}.

Definition decode (text : string) : Action + string :=
  if String.eqb text "create" then inl executor_files.newNote
  else if String.eqb text "finish" then inl finish
  else inr "invalid character".

Definition blank : World := {| files := ∅; calls := 0 |}.




(** The same run outside dry-run: two tasks, the first completed
    after the note is written, the second after one action. *)
Example planner_run :
  match Run decode executor_spec.idleBash planner blank "note it"
          {| DryRun := false; MaxIterations := 0; MaxContextResults := 0 |} with
  | Returned (inl rr, w') =>
      map tasks.Description rr.(Plan).(tasks.Tasks) = ["write the note"; "check the note"]
      /\ map tasks.Status rr.(Plan).(tasks.Tasks)
         = [tasks.TaskStatusCompleted; tasks.TaskStatusCompleted]
      /\ map tasks.Details rr.(Plan).(tasks.Tasks) = ["Ran 2 action(s)"; "Ran 1 action(s)"]
      /\ w'.(files) !! "/home/u/proj/docs/note.txt" = Some "remember"
      /\ w'.(calls) = 4%nat
  | _ => False
  end.
Proof. by vm_compute. Qed.

End runner_outcomes.

(* ===================================================================== *)
(** * Similarity of vectors                                               *)
(* ===================================================================== *)

Module vectors_spec.

Import vectors.

(** A component that is zero, of either sign. *)
Definition isZero (x : float32.t) : Prop := exists s, x = S754_zero s.

(** A component that is a number, not an infinity or a NaN. *)
Definition isNumber (x : float32.t) : Prop :=
  match x with
  | S754_zero _ | S754_finite _ _ _ => True
  | _ => False
  end.

Lemma mul_comm (x y : float32.t) : float32.mul x y = float32.mul y x.
Proof.
  unfold float32.mul, SFmul.
  destruct x as [sx|sx| |sx mx ex], y as [sy|sy| |sy my ey]; try done;
    try (by rewrite xorb_comm).
  by rewrite xorb_comm, Pos.mul_comm, Z.add_comm.
Qed.

Lemma fold_cosineStep_swap (a b : list float32.t) (d na nb : float32.t) :
  fold_left cosineStep (zip b a) (d, nb, na)
  = let '(d', na', nb') := fold_left cosineStep (zip a b) (d, na, nb) in (d', nb', na').
Proof.
  revert b d na nb. induction a as [|x a IH]; intros [|y b] d na nb; simpl; try done.
  rewrite (mul_comm y x). apply IH.
Qed.

Lemma cosineSimilarity_comm (a b : list float32.t) :
  cosineSimilarity a b = cosineSimilarity b a.
Proof.
  unfold cosineSimilarity. rewrite (Nat.eqb_sym (length b) (length a)).
  destruct (length a =? length b)%nat; simpl; [|done].
  rewrite (fold_cosineStep_swap a b zero zero zero).
  destruct (fold_left cosineStep (zip a b) (zero, zero, zero)) as [[d na] nb].
  simpl. by rewrite (orb_comm (SFeqb nb zero) (SFeqb na zero)), (mul_comm (sqrt nb) (sqrt na)).
Qed.

(** [cosineSimilarity] does not depend on the order of its two
    arguments, bit for bit. *)
Theorem cosine_symmetric (a b : list float32.t) :
  cosineSimilarity a b = cosineSimilarity b a.
Proof. apply cosineSimilarity_comm. Qed.

Lemma fold_cosineStep_zero (a b : list float32.t) (d nb : float32.t) :
  Forall isZero a ->
  exists d' nb', fold_left cosineStep (zip a b) (d, zero, nb) = (d', zero, nb').
Proof.
  intros Ha. revert b d nb.
  induction Ha as [|x a [s ->] _ IH]; intros b d nb; [by eexists _, _|].
  destruct b as [|y b]; [by eexists _, _|]. cbn [zip zip_with fold_left cosineStep].
  replace (add zero (float32.mul (S754_zero s) (S754_zero s))) with zero
    by (by destruct s).
  apply IH.
Qed.

Lemma cosineSimilarity_lengths (a b : list float32.t) :
  length a <> length b -> cosineSimilarity a b = zero.
Proof.
  intros Hne. unfold cosineSimilarity.
  destruct (length a =? length b)%nat eqn:E; [by apply Nat.eqb_eq in E | done].
Qed.

(** [cosineSimilarity] is 0 for vectors of different lengths, and
    when one of the two vectors is all zeros (as the vectors of the
    mock embedder are), whatever the other vector holds. *)
Theorem cosine_degenerate (a b : list float32.t) :
  (length a <> length b -> cosineSimilarity a b = zero)
  /\ (Forall isZero a -> cosineSimilarity a b = zero /\ cosineSimilarity b a = zero).
Proof.
  split.
  - intros Hne. unfold cosineSimilarity.
    destruct (length a =? length b)%nat eqn:E; [by apply Nat.eqb_eq in E | done].
  - intros Ha. assert (H : cosineSimilarity a b = zero).
    { unfold cosineSimilarity. destruct (length a =? length b)%nat; simpl; [|done].
      destruct (fold_cosineStep_zero a b zero zero Ha) as (d & nb & ->). done. }
    split; [done|]. by rewrite <- cosineSimilarity_comm.
Qed.

Lemma sub_self (x : float32.t) : isNumber x -> sub x x = zero.
Proof.
  destruct x as [s|s| |s m e]; try done; intros _.
  - by destruct s.
  - unfold sub, SFsub. rewrite Z.min_id. unfold shl_align. by rewrite Z.sub_diag.
Qed.

(** [euclideanDistance] is [math.MaxFloat32] for vectors of different
    lengths, and 0 from a vector of numbers to itself. *)
Theorem euclidean_edge_cases (a b : list float32.t) :
  (length a <> length b -> euclideanDistance a b = math.MaxFloat32)
  /\ (Forall isNumber a -> euclideanDistance a a = zero).
Proof.
  split.
  - intros Hne. unfold euclideanDistance.
    destruct (length a =? length b)%nat eqn:E; [by apply Nat.eqb_eq in E | done].
  - intros Ha. unfold euclideanDistance. rewrite Nat.eqb_refl. simpl.
    assert (H : fold_left (fun sum xy => add sum (float32.mul (sub xy.1 xy.2) (sub xy.1 xy.2)))
                  (zip a a) zero = zero).
    { induction Ha as [|x a Hx _ IH]; [done|]. simpl. by rewrite (sub_self x Hx). }
    rewrite H. done.
Qed.

Definition one : float32.t := Eval vm_compute in float32.const 1 1.
Definition two : float32.t := Eval vm_compute in float32.const 2 1.

(** A vector at a right angle gives 0, the vector itself gives 1. *)
Example cosine_examples :
  cosineSimilarity [one; zero] [zero; two] = zero
  /\ cosineSimilarity [one; two] [one; two] = one
  /\ cosineSimilarity [two; zero] [one; zero] = one.
Proof. by vm_compute. Qed.

End vectors_spec.

(* ===================================================================== *)
(** * The vector store: what is written can be read                       *)
(* ===================================================================== *)

Module store_read_spec.

Import rag store store_search runner.

(** A bit pattern of a [float32]. *)
Definition word (v : Z) : Prop := 0 <= v < 2 ^ 32.

Lemma Uint32_PutUint32 (v : Z) :
  word v ->
  Uint32 (v mod 256) ((v / 256) mod 256) ((v / 65536) mod 256) ((v / 16777216) mod 256) = v.
Proof. unfold word, Uint32. intros H. Z.div_mod_to_equations. lia. Qed.

Lemma decodeWords_encodeEmbedding (vec : list Z) :
  Forall word vec -> decodeWords (encodeEmbedding vec) = vec.
Proof.
  induction 1 as [|v vec Hv _ IH]; [done|].
  unfold encodeEmbedding in *. simpl. by rewrite Uint32_PutUint32, IH.
Qed.

Lemma length_encodeEmbedding (vec : list Z) :
  length (encodeEmbedding vec) = (4 * length vec)%nat.
Proof. induction vec as [|v vec IH]; [done|]. unfold encodeEmbedding in *. simpl. lia. Qed.

Lemma length_decodeWords (data : list Z) (n : nat) :
  length data = (4 * n)%nat -> length (decodeWords data) = n.
Proof.
  revert data. induction n as [|n IH]; intros data Hlen.
  - by destruct data.
  - destruct data as [|b0 [|b1 [|b2 [|b3 rest]]]]; simpl in Hlen; try lia.
    simpl. rewrite IH; [done | lia].
Qed.

Lemma mul4 (dims : Z) : 0 <= dims -> 4 * dims <= maxAlloc -> Int.mul dims 4 = 4 * dims.
Proof.
  unfold maxAlloc. intros H0 H1. unfold Int.mul. rewrite Int_facts.wrap_small; [lia|].
  unfold Int.min_int, Int.max_int. lia.
Qed.

(** What [encodeEmbedding] wrote, [decodeEmbedding] reads back when it
    is asked for as many components as were written, and rejects with
    the length-mismatch error when it is asked for any other number
    (a dimension the runtime can allocate). *)
Theorem embedding_round_trip (vec : list Z) (dims : Z) :
  Forall word vec -> 0 <= dims -> 4 * dims <= maxAlloc ->
  decodeEmbedding (encodeEmbedding vec) dims
  = if decide (dims = Z.of_nat (length vec)) then Returned (inl vec)
    else Returned (inr ("embedding length mismatch: want " +:+ strings.itoa (4 * dims)
                        +:+ " bytes got " +:+ strings.itoa (4 * Z.of_nat (length vec)))).
Proof.
  intros Hvec H0 H1. unfold decodeEmbedding.
  rewrite (mul4 dims H0 H1), length_encodeEmbedding.
  replace (Z.of_nat (4 * length vec)) with (4 * Z.of_nat (length vec)) by lia.
  destruct (decide (dims = Z.of_nat (length vec))) as [->|Hne].
  - rewrite Z.eqb_refl. simpl.
    destruct (Z.of_nat (length vec) <? 0) eqn:E1; [lia|].
    destruct (maxAlloc <? 4 * Z.of_nat (length vec)) eqn:E2; [lia|]. simpl.
    by rewrite decodeWords_encodeEmbedding.
  - destruct (4 * Z.of_nat (length vec) =? 4 * dims) eqn:E; [lia | done].
Qed.

Lemma embedding_round_trip_witness :
  decodeEmbedding (encodeEmbedding [1065353216; 3212836864; 0]) 3
  = Returned (inl [1065353216; 3212836864; 0])
  /\ decodeEmbedding (encodeEmbedding [1065353216; 3212836864; 0]) 4
     = Returned (inr "embedding length mismatch: want 16 bytes got 12").
Proof.
  split.
  - refine (embedding_round_trip [1065353216; 3212836864; 0] 3 _ _ _);
      [repeat constructor; by vm_compute | lia | by vm_compute].
  - refine (embedding_round_trip [1065353216; 3212836864; 0] 4 _ _ _);
      [repeat constructor; by vm_compute | lia | by vm_compute].
Defined.

(** ** [InsertBatch] is all or nothing *)

Definition upsert (m : gmap string Row) (p : Chunk * list Z) : gmap string Row :=
  <[p.1.(ID) := rowOf p.1 (encodeEmbedding p.2)]> m.

Lemma insertAll_inl (f : Faults) (dims : Z) (i : nat) (batch : list (Chunk * list Z))
    (tx tx' : gmap string Row) :
  insertAll f dims i batch tx = inl tx' -> tx' = fold_left upsert batch tx.
Proof.
  revert i tx. induction batch as [|[chunk emb] batch IH]; intros i tx; simpl.
  - by intros [= <-].
  - destruct (Z.of_nat (length emb) =? dims); simpl; [|done].
    destruct (exec_error f i); [done|]. apply IH.
Qed.

Lemma fold_upsert_other (batch : list (Chunk * list Z)) (tx : gmap string Row) (id : string) :
  Forall (fun p => p.1.(ID) <> id) batch -> fold_left upsert batch tx !! id = tx !! id.
Proof.
  revert tx. induction batch as [|p batch IH]; intros tx H; [done|].
  apply Forall_cons in H as [Hp H]. simpl. rewrite IH by done.
  unfold upsert. by rewrite lookup_insert_ne.
Qed.

Lemma fold_upsert_last (pre post : list (Chunk * list Z)) (c : Chunk) (e : list Z)
    (tx : gmap string Row) :
  Forall (fun p => p.1.(ID) <> c.(ID)) post ->
  fold_left upsert (pre ++ (c, e) :: post) tx !! c.(ID) = Some (rowOf c (encodeEmbedding e)).
Proof.
  intros H. rewrite fold_left_app. simpl. rewrite fold_upsert_other by done.
  unfold upsert at 1. simpl. apply lookup_insert_eq.
Qed.

Lemma InsertBatch_cases (f : Faults) (s : SQLiteVectorStore) (chunks : list Chunk)
    (embeddings : list (list Z)) :
  match InsertBatch f s chunks embeddings with
  | (s', Some _) => s' = s
  | (s', None) =>
      length chunks = length embeddings
      /\ s'.(dims) = s.(dims)
      /\ Forall (fun emb => Z.of_nat (length emb) = s.(dims)) embeddings
      /\ s'.(db) = fold_left upsert (zip chunks embeddings) s.(db)
  end.
Proof.
  unfold InsertBatch.
  destruct (length chunks =? length embeddings)%nat eqn:Hlen; simpl; [|done].
  apply Nat.eqb_eq in Hlen.
  destruct (begin_error f); [done|]. destruct (prepare_error f); [done|].
  destruct (insertAll f s.(dims) 0 (zip chunks embeddings) s.(db)) as [tx|err] eqn:Hins; [|done].
  destruct (commit_error f); [done|]. simpl.
  split; [done|]. split; [done|]. split; [|by apply insertAll_inl in Hins].
  apply store_spec.insertAll_dims in Hins. apply Forall_lookup. intros k emb Hk.
  destruct (lookup_lt_is_Some_2 chunks k) as [c Hc].
  { rewrite Hlen. by eapply lookup_lt_Some. }
  rewrite Forall_lookup in Hins. apply (Hins k (c, emb)).
  rewrite lookup_zip_with, Hc. simpl. by rewrite Hk.
Qed.

(** [InsertBatch] is all or nothing, whichever database calls fail:
    when it returns an error the store is the one it was called on;
    when it returns none, every vector had the store's dimension, the
    rows of ids that are not in the batch are as before, and under the
    id of each chunk lies the row of the last chunk of the batch with
    that id, with its vector encoded. *)
Theorem insert_batch_all_or_nothing (f : Faults) (s : SQLiteVectorStore) (chunks : list Chunk)
    (embeddings : list (list Z)) :
  match InsertBatch f s chunks embeddings with
  | (s', Some _) => s' = s
  | (s', None) =>
      length chunks = length embeddings
      /\ s'.(dims) = s.(dims)
      /\ Forall (fun emb => Z.of_nat (length emb) = s.(dims)) embeddings
      /\ (forall id, Forall (fun c => c.(ID) <> id) chunks -> s'.(db) !! id = s.(db) !! id)
      /\ (forall k c emb,
            chunks !! k = Some c -> embeddings !! k = Some emb ->
            (forall j c', (k < j)%nat -> chunks !! j = Some c' -> c'.(ID) <> c.(ID)) ->
            s'.(db) !! c.(ID) = Some (rowOf c (encodeEmbedding emb)))
  end.
Proof.
  pose proof (InsertBatch_cases f s chunks embeddings) as H.
  destruct (InsertBatch f s chunks embeddings) as [s' [err|]]; [done|].
  destruct H as (Hlen & Hdims & Hall & Hdb).
  split; [done|]. split; [done|]. split; [done|]. rewrite Hdb. split.
  - intros id Hid. apply fold_upsert_other. apply Forall_lookup. intros k [c emb] Hk.
    apply lookup_zip_with_Some in Hk as (c' & emb' & [= <- <-] & Hc & _). simpl.
    by apply (Forall_lookup_1 _ _ _ _ Hid Hc).
  - intros k c emb Hc Hemb Hlast.
    assert (Hk : zip chunks embeddings !! k = Some (c, emb)).
    { apply lookup_zip_with_Some. by exists c, emb. }
    rewrite <- (take_drop_middle _ _ _ Hk). apply fold_upsert_last.
    apply Forall_lookup. intros j [c' emb'] Hj. rewrite lookup_drop in Hj.
    apply lookup_zip_with_Some in Hj as (c'' & emb'' & [= <- <-] & Hc' & _). simpl.
    apply (Hlast (S k + j)%nat); [lia | done].
Qed.

(** ** Stored vectors have the store's size *)

(** Every stored vector takes four bytes per dimension. *)
Definition readable (s : SQLiteVectorStore) : Prop :=
  map_Forall (fun _ row => Z.of_nat (length row.(embedding)) = 4 * s.(dims)) s.(db).

Lemma fold_upsert_readable (dims : Z) (batch : list (Chunk * list Z)) (tx : gmap string Row) :
  Forall (fun p => Z.of_nat (length p.2) = dims) batch ->
  map_Forall (fun _ row => Z.of_nat (length row.(embedding)) = 4 * dims) tx ->
  map_Forall (fun _ row => Z.of_nat (length row.(embedding)) = 4 * dims)
             (fold_left upsert batch tx).
Proof.
  revert tx. induction batch as [|[c emb] batch IH]; intros tx Hb Htx; [done|].
  apply Forall_cons in Hb as [Hc Hb]. simpl. apply IH; [done|].
  unfold upsert. apply map_Forall_insert_2; [|done].
  simpl in *. rewrite length_encodeEmbedding. lia.
Qed.

Lemma InsertBatch_readable (f : Faults) (s : SQLiteVectorStore) (chunks : list Chunk)
    (embeddings : list (list Z)) :
  readable s -> readable (InsertBatch f s chunks embeddings).1.
Proof.
  intros Hs. pose proof (InsertBatch_cases f s chunks embeddings) as H.
  destruct (InsertBatch f s chunks embeddings) as [s' [err|]]; simpl; [by subst|].
  destruct H as (Hlen & Hdims & Hall & Hdb). unfold readable. rewrite Hdims, Hdb.
  apply fold_upsert_readable; [|done].
  apply Forall_lookup. intros k [c emb] Hk.
  apply lookup_zip_with_Some in Hk as (c' & emb' & [= <- <-] & _ & Hemb). simpl.
  by apply (Forall_lookup_1 _ _ _ _ Hall Hemb).
Qed.

Lemma Delete_readable (s : SQLiteVectorStore) (filePath : string) :
  readable s -> readable (Delete s filePath).
Proof.
  unfold readable, Delete. simpl. intros Hs id row Hrow.
  apply map_lookup_filter_Some in Hrow as [Hrow _]. by apply (Hs id).
Qed.

(** The size of the stored vectors is an invariant of the store: it
    holds of an empty store and of a cleared one, and [InsertBatch]
    (with any pattern of failing database calls), [Insert] and
    [Delete] keep it. *)
Theorem stored_vectors_keep_their_size :
  (forall dims, readable {| db := ∅; dims := dims |})
  /\ (forall s, readable (Clear s))
  /\ (forall f s chunks embeddings,
        readable s -> readable (InsertBatch f s chunks embeddings).1)
  /\ (forall f s chunk embedding, readable s -> readable (Insert f s chunk embedding).1)
  /\ (forall s filePath, readable s -> readable (Delete s filePath)).
Proof.
  split; [|split; [|split; [|split]]].
  - intros dims. apply map_Forall_empty.
  - intros s. apply map_Forall_empty.
  - intros f s chunks embeddings. apply InsertBatch_readable.
  - intros f s chunk embedding. apply InsertBatch_readable.
  - intros s filePath. apply Delete_readable.
Qed.

(** ** [Search] *)

(** The result [Search] builds from a row. *)
Definition scored (queryEmbedding : list Z) (p : string * Row) : SearchResult.t :=
  {| SearchResult.Chunk := chunkOf p.1 p.2;
     SearchResult.Score :=
       vectors.cosineSimilarity (math.Float32frombits <$> queryEmbedding)
                                (math.Float32frombits <$> decodeWords p.2.(embedding));
     SearchResult.Source := "rag" |}.

Lemma scanRows_readable (dims : Z) (queryEmbedding : list Z) (i : nat)
    (rows : list (string * Row)) (results : list SearchResult.t) :
  0 <= dims -> 4 * dims <= maxAlloc ->
  Forall (fun p => Z.of_nat (length p.2.(embedding)) = 4 * dims) rows ->
  scanRows noReadFaults dims queryEmbedding i rows results
  = Returned (inl (results ++ (scored queryEmbedding <$> rows))).
Proof.
  intros H0 H1 Hrows. revert i results.
  induction Hrows as [|[id row] rows Hrow _ IH]; intros i results; simpl.
  - by rewrite app_nil_r.
  - unfold decodeEmbedding. simpl in Hrow. rewrite (mul4 dims H0 H1), Hrow, Z.eqb_refl. simpl.
    destruct (dims <? 0) eqn:E1; [lia|]. destruct (maxAlloc <? 4 * dims) eqn:E2; [lia|]. simpl.
    rewrite IH. by rewrite <- app_assoc.
Qed.

Section Search.

Variable selectAll : gmap string Row -> list (string * Row).
Variable sortSlice :
  (SearchResult.t -> SearchResult.t -> bool) -> list SearchResult.t -> list SearchResult.t.

Hypothesis selectAll_perm : forall m, selectAll m ≡ₚ map_to_list m.
Hypothesis sortSlice_perm : forall less l, sortSlice less l ≡ₚ l.

(** What [Search] returns on a readable store when no database call
    fails: the first [topK] of some arrangement of the scored rows. *)
Lemma Search_readable (s : SQLiteVectorStore) (queryEmbedding : list Z) (topK : Z) :
  readable s -> 0 <= s.(dims) -> 4 * s.(dims) <= maxAlloc ->
  0 <= topK -> 8 * topK <= maxAlloc ->
  exists arranged,
    arranged ≡ₚ (scored queryEmbedding <$> map_to_list s.(db))
    /\ Search selectAll sortSlice noReadFaults s queryEmbedding topK
       = Returned (inl (take (Z.to_nat topK) arranged)).
Proof.
  intros Hs H0 H1 Hk0 Hk1. unfold Search. simpl.
  destruct (topK <? 0) eqn:E1; [lia|]. destruct (maxAlloc <? 8 * topK) eqn:E2; [lia|]. simpl.
  rewrite scanRows_readable; [|done|done|].
  2: { apply Forall_forall. intros [id row] Hin. simpl.
       rewrite (selectAll_perm s.(db)) in Hin. apply elem_of_map_to_list in Hin.
       by apply (Hs id). }
  simpl. set (rows := scored queryEmbedding <$> selectAll s.(db)).
  assert (Hrows : rows ≡ₚ (scored queryEmbedding <$> map_to_list s.(db))).
  { unfold rows. by rewrite (selectAll_perm s.(db)). }
  destruct (1 <? length rows)%nat.
  - exists (sortSlice (fun ri rj => float32.gt ri.(SearchResult.Score) rj.(SearchResult.Score))
                      rows).
    split; [by rewrite sortSlice_perm|].
    set (sorted := sortSlice _ rows).
    destruct (Z.of_nat (length sorted) <? topK) eqn:E3; [|done].
    rewrite Nat2Z.id. rewrite !take_ge; [done | lia | lia].
  - exists rows. split; [done|].
    destruct (Z.of_nat (length rows) <? topK) eqn:E3; [|done].
    rewrite Nat2Z.id. rewrite !take_ge; [done | lia | lia].
Qed.

Lemma taken (A : Type) (n : nat) (l : list A) (x : A) : x ∈ take n l -> x ∈ l.
Proof. intros H. rewrite <- (take_drop n l). apply elem_of_app. by left. Qed.

Lemma scored_row (s : SQLiteVectorStore) (queryEmbedding : list Z) (arranged : list SearchResult.t)
    (r : SearchResult.t) :
  arranged ≡ₚ (scored queryEmbedding <$> map_to_list s.(db)) -> r ∈ arranged ->
  exists row, s.(db) !! r.(SearchResult.Chunk).(ID) = Some row
              /\ r = scored queryEmbedding (r.(SearchResult.Chunk).(ID), row).
Proof.
  intros Hperm Hin. rewrite Hperm in Hin.
  apply list_elem_of_fmap in Hin as ([id row] & -> & Hin).
  apply elem_of_map_to_list in Hin. by exists row.
Qed.

(** On a readable store, with no failing database call, a dimension
    and a [topK] that are not negative and that the runtime can
    allocate, [Search] returns [topK] results, or as many as the store
    has rows when these are fewer; no row is returned twice; every
    result has source "rag", carries the columns of the row under its
    id, and is scored with the cosine of the query and the decoded
    vector of that row.  A query of another dimension than the store's
    is not rejected: every score is then 0. *)
Theorem search_returns_stored_rows (s : SQLiteVectorStore) (queryEmbedding : list Z)
    (topK : Z) :
  readable s -> 0 <= s.(dims) -> 4 * s.(dims) <= maxAlloc ->
  0 <= topK -> 8 * topK <= maxAlloc ->
  exists results,
    Search selectAll sortSlice noReadFaults s queryEmbedding topK = Returned (inl results)
    /\ Z.of_nat (length results) = Z.min topK (Count s)
    /\ NoDup ((fun r => r.(SearchResult.Chunk).(ID)) <$> results)
    /\ (forall r, r ∈ results ->
          r.(SearchResult.Source) = "rag"
          /\ exists row,
               s.(db) !! r.(SearchResult.Chunk).(ID) = Some row
               /\ r = scored queryEmbedding (r.(SearchResult.Chunk).(ID), row)
               /\ (Z.of_nat (length queryEmbedding) <> s.(dims) ->
                   r.(SearchResult.Score) = vectors.zero)).
Proof.
  intros Hs H0 H1 Hk0 Hk1.
  destruct (Search_readable s queryEmbedding topK Hs H0 H1 Hk0 Hk1) as (arranged & Hperm & ->).
  eexists. split; [done|].
  assert (Hlen : length arranged = size s.(db)).
  { rewrite Hperm, length_fmap. by rewrite length_map_to_list. }
  split; [|split].
  - rewrite length_take. unfold Count. lia.
  - assert (Hnd : NoDup ((fun r => r.(SearchResult.Chunk).(ID)) <$> arranged)).
    { rewrite Hperm. rewrite <- list_fmap_compose.
      apply (NoDup_fst_map_to_list s.(db)). }
    rewrite <- (take_drop (Z.to_nat topK) arranged), fmap_app in Hnd.
    by apply NoDup_app in Hnd as [Hnd _].
  - intros r Hin. apply taken in Hin.
    destruct (scored_row s queryEmbedding arranged r Hperm Hin) as (row & Hrow & Hr).
    split; [by rewrite Hr|]. exists row. split; [done|]. split; [done|].
    intros Hq. rewrite Hr. simpl.
    apply vectors_spec.cosineSimilarity_lengths.
    rewrite !length_fmap. intros Heq.
    rewrite (length_decodeWords row.(embedding) (Z.to_nat s.(dims))) in Heq.
    + lia.
    + specialize (Hs _ row Hrow). simpl in Hs. lia.
Qed.

(** After [Delete], [Search] returns no chunk of the deleted file,
    and [Count] has not grown. *)
Theorem deleted_file_is_not_found (s : SQLiteVectorStore) (filePath : string)
    (queryEmbedding : list Z) (topK : Z) :
  readable s -> 0 <= s.(dims) -> 4 * s.(dims) <= maxAlloc ->
  0 <= topK -> 8 * topK <= maxAlloc ->
  exists results,
    Search selectAll sortSlice noReadFaults (Delete s filePath) queryEmbedding topK
    = Returned (inl results)
    /\ Forall (fun r => r.(SearchResult.Chunk).(FilePath) <> filePath) results
    /\ Count (Delete s filePath) <= Count s.
Proof.
  intros Hs H0 H1 Hk0 Hk1.
  destruct (Search_readable (Delete s filePath) queryEmbedding topK
              (Delete_readable s filePath Hs) H0 H1 Hk0 Hk1) as (arranged & Hperm & ->).
  eexists. split; [done|]. split.
  - apply Forall_forall. intros r Hin. apply taken in Hin.
    destruct (scored_row _ queryEmbedding arranged r Hperm Hin) as (row & Hrow & ->).
    simpl in *. by apply map_lookup_filter_Some in Hrow as [_ Hrow].
  - unfold Count, Delete. simpl.
    pose proof (map_filter_subseteq (fun kv : string * Row => kv.2.(file_path) <> filePath)
                  s.(db)) as Hsub.
    apply map_subseteq_size in Hsub. lia.
Qed.

End Search.

(** One admissible behaviour of the query and of [sort.Slice], to run
    [Search] on examples: rows in the order of their ids, and a merge
    sort. *)
Definition sorter (less : SearchResult.t -> SearchResult.t -> bool) (l : list SearchResult.t)
    : list SearchResult.t :=
  merge_sort (fun x y => Is_true (less x y)) l.

Lemma sorter_perm (less : SearchResult.t -> SearchResult.t -> bool) (l : list SearchResult.t) :
  sorter less l ≡ₚ l.
Proof. apply merge_sort_Permutation. Qed.

Lemma byId_perm (m : gmap string Row) : map_to_list m ≡ₚ map_to_list m.
Proof. done. Qed.

Definition shelf : SQLiteVectorStore :=
  (InsertBatch noFaults store_spec.emptyStore
     [NewChunk "a.go" "func A() {}" "function" "A" "go" 1 1;
      NewChunk "b.go" "func B() {}" "function" "B" "go" 4 4]
     [[1065353216; 0; 0]; [0; 1065353216; 0]]).1.

Lemma shelf_readable : readable shelf.
Proof. apply InsertBatch_readable. apply map_Forall_empty. Qed.

Lemma search_returns_stored_rows_witness :
  exists results,
    Search map_to_list sorter noReadFaults shelf [1065353216; 0; 0] 1 = Returned (inl results)
    /\ Z.of_nat (length results) = Z.min 1 (Count shelf)
    /\ NoDup ((fun r => r.(SearchResult.Chunk).(ID)) <$> results)
    /\ (forall r, r ∈ results ->
          r.(SearchResult.Source) = "rag"
          /\ exists row,
               shelf.(db) !! r.(SearchResult.Chunk).(ID) = Some row
               /\ r = scored [1065353216; 0; 0] (r.(SearchResult.Chunk).(ID), row)
               /\ (Z.of_nat (length [1065353216; 0; 0]) <> shelf.(dims) ->
                   r.(SearchResult.Score) = vectors.zero)).
Proof.
  apply (search_returns_stored_rows map_to_list sorter byId_perm sorter_perm shelf
           [1065353216; 0; 0] 1 shelf_readable); by vm_compute.
Defined.

Lemma deleted_file_is_not_found_witness :
  exists results,
    Search map_to_list sorter noReadFaults (Delete shelf "a.go") [1065353216; 0; 0] 5
    = Returned (inl results)
    /\ Forall (fun r => r.(SearchResult.Chunk).(FilePath) <> "a.go") results
    /\ Count (Delete shelf "a.go") <= Count shelf.
Proof.
  apply (deleted_file_is_not_found map_to_list sorter byId_perm sorter_perm shelf "a.go"
           [1065353216; 0; 0] 5 shelf_readable); by vm_compute.
Defined.

(** The query equal to the vector of the first chunk finds that
    chunk first, with score 1, and the other with score 0. *)
Example search_example :
  match Search map_to_list sorter noReadFaults shelf [1065353216; 0; 0] 2 with
  | Returned (inl results) =>
      map (fun r => (r.(SearchResult.Chunk).(FilePath), r.(SearchResult.Score))) results
      = [("a.go", vectors_spec.one); ("b.go", vectors.zero)]
  | _ => False
  end.
Proof. by vm_compute. Qed.

End store_read_spec.

(* ===================================================================== *)
(** * The MCP server: the execution log of a run                          *)
(* ===================================================================== *)

Module mcp_server_spec.

Import action runner mcp_server.







(** The log of the example run. *)
Example planner_log :
  match Run runner_outcomes.decode executor_spec.idleBash runner_outcomes.planner
          runner_outcomes.blank "note it"
          {| DryRun := true; MaxIterations := 0; MaxContextResults := 0 |} with
  | Returned (inl rr, _) =>
      formatExecutionLog rr.(Executions)
      = Returned "Execution log:
- write the note [done]
  • create_file docs/note.txt -> true
    [dry-run] would create docs/note.txt
  • complete  -> true
    noted
- check the note [done]
  • complete  -> true
    noted
"
  | _ => False
  end.
Proof. by vm_compute. Qed.

End mcp_server_spec.

(* ===================================================================== *)
(** * The result merger: files, labels and counters                       *)
(* ===================================================================== *)

Module merger_files.

Import rag merger.

(** The path of a RAG result. *)
Definition pathOf (res : SearchResult.t) : string := res.(SearchResult.Chunk).(FilePath).

(** How often a path occurs in a list of paths. *)
Definition occurrences (path : string) (paths : list string) : nat :=
  length (List.filter (fun p => String.eqb p path) paths).

(** ** The cut of [truncateToTokenBudget] *)



(** ** The label of a file *)

Lemma fold_ragStep_source (path : string) (ragResults : list SearchResult.t)
    (entry : option (float32.t * string)) :
  snd <$> fold_left (merger_relevance.ragStep path) ragResults entry
  = match occurrences path (pathOf <$> ragResults), snd <$> entry with
    | O, source => source
    | S O, None => Some "rag"
    | _, _ => Some "both"
    end.
Proof.
  revert entry. induction ragResults as [|res l IH]; intros entry.
  - simpl. by destruct entry.
  - cbn [fold_left]. rewrite IH, fmap_cons. unfold merger_relevance.ragStep, occurrences.
    cbn [List.filter]. fold (pathOf res).
    destruct (String.eqb (pathOf res) path); [|done].
    cbn [length].
    destruct entry as [[x s]|]; cbn [fmap option_fmap option_map snd];
      by destruct (length _) as [|[|k]].
Qed.

Lemma fold_indexerStep_source (path : string) (indexerFiles : list string)
    (entry : option (float32.t * string)) :
  snd <$> fold_left (merger_relevance.indexerStep path) indexerFiles entry
  = match occurrences path indexerFiles, snd <$> entry with
    | O, source => source
    | S O, None => Some "indexer"
    | _, _ => Some "both"
    end.
Proof.
  revert entry. induction indexerFiles as [|p l IH]; intros entry.
  - simpl. by destruct entry.
  - cbn [fold_left]. rewrite IH. unfold merger_relevance.indexerStep, occurrences.
    cbn [List.filter].
    destruct (String.eqb p path); [|done].
    cbn [length].
    destruct entry as [[x s]|]; cbn [fmap option_fmap option_map snd];
      by destruct (length _) as [|[|k]].
Qed.

(** The label [Merge] gives a file whose path occurs [nr] times among
    the RAG results and [ni] times among the paths of the indexer. *)
Definition label (nr ni : nat) : string :=
  match nr, ni with
  | S O, O => "rag"
  | O, S O => "indexer"
  | _, _ => "both"
  end.

Section Files.

Variable rangeMap : gmap string FileResult.t -> list FileResult.t.
Variable sortSlice :
  (FileResult.t -> FileResult.t -> bool) -> list FileResult.t -> list FileResult.t.

Hypothesis rangeMap_perm : forall fm, rangeMap fm ≡ₚ (map_to_list fm).*2.
Hypothesis sortSlice_perm : forall less l, sortSlice less l ≡ₚ l.

(** Every file [Merge] returns was found by a source, and its label
    says by how many finds: "rag" for exactly one RAG result, "indexer"
    for exactly one path of the indexer, and "both" for anything more,
    also for two RAG results and no path of the indexer, or for a path
    the indexer lists twice. *)
Theorem label_counts_the_finds (m : ResultMerger) (ragResults : list SearchResult.t)
    (indexerFiles : list string) (f : FileResult.t) :
  f ∈ (Merge rangeMap sortSlice m ragResults indexerFiles).(HybridResult.Files) ->
  let nr := occurrences f.(FileResult.Path) (pathOf <$> ragResults) in
  let ni := occurrences f.(FileResult.Path) indexerFiles in
  (0 < nr + ni)%nat /\ f.(FileResult.Source) = label nr ni.
Proof.
  intros Hin nr ni.
  pose proof (merger_relevance.Merge_files rangeMap sortSlice rangeMap_perm sortSlice_perm
                m ragResults indexerFiles f Hin) as H.
  apply (f_equal (fmap snd)) in H. simpl in H.
  rewrite fold_indexerStep_source in H. unfold merger_relevance.ragOnly in H.
  rewrite fold_ragStep_source in H. fold nr ni in H. simpl in H.
  destruct nr as [|[|nr]], ni as [|[|ni]]; simpl in *; try done;
    injection H as H; split; (lia || done).
Qed.

(** [Merge] returns no file twice: the paths of its files are
    pairwise different. *)
Theorem merged_paths_are_distinct (m : ResultMerger) (ragResults : list SearchResult.t)
    (indexerFiles : list string) :
  NoDup (FileResult.Path <$> (Merge rangeMap sortSlice m ragResults indexerFiles).(HybridResult.Files)).
Proof.
  unfold Merge, truncateToTokenBudget.
  set (st0 := {| fileMap := ∅; sources := {| Sources.Indexer := 0; Sources.RAG := 0 |} |}).
  set (st := fold_left addIndexer indexerFiles (fold_left addRAG ragResults st0)).
  destruct (merger_relevance.truncateLoop_prefix m (sortSlice
              (fun fi fj => float32.gt fi.(FileResult.Relevance) fj.(FileResult.Relevance))
              (rangeMap st.(fileMap))) [] 0) as [rest Hpre].
  destruct (truncateLoop m _ 0 []) as [truncated total]. simpl in *.
  assert (Hkey : merger_relevance.keyedByPath st.(fileMap)).
  { apply merger_relevance.fold_addIndexer_keyed, merger_relevance.fold_addRAG_keyed,
      map_Forall_empty. }
  assert (Hall : NoDup (FileResult.Path <$> (map_to_list st.(fileMap)).*2)).
  { assert (Heq : FileResult.Path <$> (map_to_list st.(fileMap)).*2
                  = (map_to_list st.(fileMap)).*1).
    { rewrite <- list_fmap_compose. apply list_fmap_ext. intros i [k v] Hi. simpl.
      apply list_elem_of_lookup_2, elem_of_map_to_list in Hi.
      exact (map_Forall_lookup_1 _ _ _ _ Hkey Hi). }
    rewrite Heq. apply NoDup_fst_map_to_list. }
  rewrite <- rangeMap_perm, <- (sortSlice_perm
    (fun fi fj => float32.gt fi.(FileResult.Relevance) fj.(FileResult.Relevance))), Hpre,
    fmap_app in Hall.
  by apply NoDup_app in Hall as [Hall _].
Qed.

(** ** The counters of the sources *)

(** The paths of the RAG results, and those only the indexer has. *)
Definition ragPaths (ragResults : list SearchResult.t) : gset string :=
  list_to_set (pathOf <$> ragResults).

Definition indexerOnly (ragResults : list SearchResult.t) (indexerFiles : list string)
    : gset string :=
  list_to_set indexerFiles ∖ ragPaths ragResults.

Lemma size_add (p : string) (D : gset string) : p ∉ D -> size ({[p]} ∪ D) = S (size D).
Proof.
  intros H. rewrite size_union by (by apply disjoint_singleton_l). by rewrite size_singleton.
Qed.

Lemma size_paths (l : list string) : (size (list_to_set l : gset string) <= length l)%nat.
Proof.
  induction l as [|p l IH]; [by rewrite list_to_set_nil, size_empty|].
  rewrite list_to_set_cons. simpl.
  destruct (decide (p ∈ (list_to_set l : gset string))) as [Hin|Hnot].
  - rewrite (subseteq_union_1_L {[p]} (list_to_set l)) by (by apply singleton_subseteq_l). lia.
  - rewrite size_add by done. lia.
Qed.

Lemma addRAG_counters (st : MergeState) (res : SearchResult.t) :
  let st' := addRAG st res in
  dom st'.(fileMap) = {[pathOf res]} ∪ dom st.(fileMap)
  /\ st'.(sources).(Sources.Indexer) = st.(sources).(Sources.Indexer)
  /\ st'.(sources).(Sources.RAG)
     = if decide (pathOf res ∈ dom st.(fileMap)) then st.(sources).(Sources.RAG)
       else Int.add st.(sources).(Sources.RAG) 1.
Proof.
  unfold addRAG, pathOf.
  destruct (st.(fileMap) !! _) as [existing|] eqn:E; simpl; rewrite dom_insert_L.
  - rewrite decide_True; [done|]. apply elem_of_dom. by eexists.
  - rewrite decide_False; [done|]. by apply not_elem_of_dom.
Qed.

Lemma addIndexer_counters (st : MergeState) (filePath : string) :
  let st' := addIndexer st filePath in
  dom st'.(fileMap) = {[filePath]} ∪ dom st.(fileMap)
  /\ st'.(sources).(Sources.RAG) = st.(sources).(Sources.RAG)
  /\ st'.(sources).(Sources.Indexer)
     = if decide (filePath ∈ dom st.(fileMap)) then st.(sources).(Sources.Indexer)
       else Int.add st.(sources).(Sources.Indexer) 1.
Proof.
  unfold addIndexer.
  destruct (st.(fileMap) !! _) as [existing|] eqn:E; simpl; rewrite dom_insert_L.
  - rewrite decide_True; [done|]. apply elem_of_dom. by eexists.
  - rewrite decide_False; [done|]. by apply not_elem_of_dom.
Qed.

Lemma fold_addRAG_counters (ragResults : list SearchResult.t) (st : MergeState) :
  st.(sources).(Sources.RAG) = Z.of_nat (size (dom st.(fileMap))) ->
  Z.of_nat (size (dom st.(fileMap)) + length ragResults) <= Int.max_int ->
  let st' := fold_left addRAG ragResults st in
  dom st'.(fileMap) = dom st.(fileMap) ∪ ragPaths ragResults
  /\ st'.(sources).(Sources.Indexer) = st.(sources).(Sources.Indexer)
  /\ st'.(sources).(Sources.RAG) = Z.of_nat (size (dom st'.(fileMap))).
Proof.
  revert st. induction ragResults as [|res l IH]; intros st Hrag Hb.
  - simpl. unfold ragPaths. simpl. split; [by rewrite (right_id_L ∅ (∪)) | done].
  - cbn [fold_left]. destruct (addRAG_counters st res) as (Hdom & Hidx & Hr).
    destruct (IH (addRAG st res)) as (Hdom' & Hidx' & Hr').
    + rewrite Hr, Hdom. destruct (decide (pathOf res ∈ dom st.(fileMap))) as [Hin|Hnot].
      * rewrite Hrag. f_equal. f_equal. symmetry.
        by apply subseteq_union_1_L, singleton_subseteq_l.
      * rewrite size_add by done. rewrite Hrag. unfold Int.add.
        rewrite Int_facts.wrap_small; [lia|]. unfold Int.min_int. simpl in Hb. lia.
    + rewrite Hdom. simpl in Hb.
      destruct (decide (pathOf res ∈ dom st.(fileMap))) as [Hin|Hnot].
      * rewrite (subseteq_union_1_L {[pathOf res]} (dom st.(fileMap)))
          by (by apply singleton_subseteq_l).
        lia.
      * rewrite size_add by done. lia.
    + split; [|split; [congruence | done]].
      rewrite Hdom', Hdom. unfold ragPaths. rewrite fmap_cons, list_to_set_cons.
      apply set_eq. intros x. rewrite !elem_of_union. tauto.
Qed.

Lemma fold_addIndexer_counters (indexerFiles : list string) (st : MergeState) (base : nat) :
  st.(sources).(Sources.Indexer) + Z.of_nat base = Z.of_nat (size (dom st.(fileMap))) ->
  0 <= st.(sources).(Sources.Indexer) ->
  Z.of_nat (size (dom st.(fileMap)) + length indexerFiles) <= Int.max_int ->
  let st' := fold_left addIndexer indexerFiles st in
  dom st'.(fileMap) = dom st.(fileMap) ∪ list_to_set indexerFiles
  /\ st'.(sources).(Sources.RAG) = st.(sources).(Sources.RAG)
  /\ st'.(sources).(Sources.Indexer) + Z.of_nat base = Z.of_nat (size (dom st'.(fileMap))).
Proof.
  revert st. induction indexerFiles as [|p l IH]; intros st Hidx H0 Hb.
  - simpl. split; [by rewrite (right_id_L ∅ (∪)) | done].
  - cbn [fold_left]. destruct (addIndexer_counters st p) as (Hdom & Hr & Hi).
    destruct (IH (addIndexer st p)) as (Hdom' & Hr' & Hi').
    + rewrite Hi, Hdom. destruct (decide (p ∈ dom st.(fileMap))) as [Hin|Hnot].
      * rewrite Hidx. f_equal. f_equal. symmetry.
        by apply subseteq_union_1_L, singleton_subseteq_l.
      * rewrite size_add by done. unfold Int.add.
        rewrite Int_facts.wrap_small; [lia|]. unfold Int.min_int. simpl in Hb. lia.
    + rewrite Hi. destruct (decide (p ∈ dom st.(fileMap))); [done|].
      unfold Int.add. rewrite Int_facts.wrap_small; [lia|].
      unfold Int.min_int. simpl in Hb. lia.
    + rewrite Hdom. simpl in Hb. destruct (decide (p ∈ dom st.(fileMap))) as [Hin|Hnot].
      * rewrite (subseteq_union_1_L {[p]} (dom st.(fileMap))) by (by apply singleton_subseteq_l).
        lia.
      * rewrite size_add by done. lia.
    + split; [|split; [congruence | done]].
      rewrite Hdom', Hdom, list_to_set_cons.
      apply set_eq. intros x. rewrite !elem_of_union. tauto.
Qed.

(** When the two inputs together have no more entries than an [int]
    can count, the counter [Sources.RAG] of the result is the number of
    different paths among the RAG results and [Sources.Indexer] the
    number of different paths that only the indexer has; they are
    counted before the cut to the token budget, so the files returned
    can be fewer than their sum, never more. *)
Theorem counters_count_distinct_paths (m : ResultMerger) (ragResults : list SearchResult.t)
    (indexerFiles : list string) :
  Z.of_nat (length ragResults + length indexerFiles) <= Int.max_int ->
  let r := Merge rangeMap sortSlice m ragResults indexerFiles in
  r.(HybridResult.Sources).(Sources.RAG) = Z.of_nat (size (ragPaths ragResults))
  /\ r.(HybridResult.Sources).(Sources.Indexer)
     = Z.of_nat (size (indexerOnly ragResults indexerFiles))
  /\ Z.of_nat (length r.(HybridResult.Files))
     <= r.(HybridResult.Sources).(Sources.RAG) + r.(HybridResult.Sources).(Sources.Indexer).
Proof.
  intros Hb r. subst r. unfold Merge, truncateToTokenBudget.
  set (st0 := {| fileMap := ∅; sources := {| Sources.Indexer := 0; Sources.RAG := 0 |} |}).
  destruct (fold_addRAG_counters ragResults st0) as (Hdom1 & Hidx1 & Hrag1).
  { simpl. by rewrite dom_empty_L, size_empty. }
  { simpl. rewrite dom_empty_L, size_empty. lia. }
  set (st1 := fold_left addRAG ragResults st0) in *.
  assert (Hsize1 : (size (dom st1.(fileMap)) <= length ragResults)%nat).
  { rewrite Hdom1. simpl. rewrite dom_empty_L, (left_id_L ∅ (∪)). unfold ragPaths.
    etrans; [apply size_paths|]. by rewrite length_fmap. }
  destruct (fold_addIndexer_counters indexerFiles st1 (size (dom st1.(fileMap))))
    as (Hdom2 & Hrag2 & Hidx2).
  { rewrite Hidx1. simpl. lia. }
  { rewrite Hidx1. simpl. lia. }
  { lia. }
  set (st := fold_left addIndexer indexerFiles st1) in *.
  destruct (merger_relevance.truncateLoop_prefix m (sortSlice
              (fun fi fj => float32.gt fi.(FileResult.Relevance) fj.(FileResult.Relevance))
              (rangeMap st.(fileMap))) [] 0) as [rest Hpre].
  destruct (truncateLoop m _ 0 []) as [truncated total]. simpl in Hpre. cbn.
  assert (Hd1 : dom st1.(fileMap) = ragPaths ragResults).
  { rewrite Hdom1. simpl. by rewrite dom_empty_L, (left_id_L ∅ (∪)). }
  assert (Hsplit : size (dom st.(fileMap))
                   = (size (ragPaths ragResults) + size (indexerOnly ragResults indexerFiles))%nat).
  { rewrite Hdom2, Hd1. unfold indexerOnly.
    rewrite <- size_union by (by apply disjoint_difference_r1). f_equal.
    apply set_eq. intros x. rewrite !elem_of_union, elem_of_difference.
    destruct (decide (x ∈ ragPaths ragResults)); tauto. }
  assert (Hlen : (length truncated <= size (dom st.(fileMap)))%nat).
  { pose proof (f_equal length Hpre) as Hl. rewrite length_app in Hl. simpl in Hl.
    rewrite (Permutation_length (sortSlice_perm _ _)),
      (Permutation_length (rangeMap_perm _)), length_fmap, length_map_to_list in Hl.
    rewrite size_dom. lia. }
  rewrite Hrag2, Hrag1, Hd1. split; [done|].
  assert (Hi : st.(sources).(Sources.Indexer)
               = Z.of_nat (size (indexerOnly ragResults indexerFiles))).
  { rewrite Hd1 in Hidx2. lia. }
  rewrite Hi. split; [done | lia].
Qed.

End Files.

(** Two finds of one file by the RAG search, two files of the indexer,
    one of them also found by the RAG search. *)
Definition finds : list SearchResult.t :=
  [merger_budget.found "a.go" 10 merger_relevance.half;
   merger_budget.found "b.go" 10 merger_relevance.half;
   merger_budget.found "a.go" 20 merger_relevance.half].

Lemma label_counts_the_finds_witness :
  exists f,
    f ∈ (Merge rangeByKey insertionSort (NewResultMerger 1000) finds ["b.go"; "c.go"])
          .(HybridResult.Files)
    /\ f.(FileResult.Path) = "a.go"
    /\ f.(FileResult.Source) = "both".
Proof.
  set (r := Merge rangeByKey insertionSort (NewResultMerger 1000) finds ["b.go"; "c.go"]).
  assert (Hf : exists f, f ∈ r.(HybridResult.Files) /\ f.(FileResult.Path) = "a.go").
  { assert (H : exists f, r.(HybridResult.Files) !! 2%nat = Some f
                          /\ f.(FileResult.Path) = "a.go") by (eexists; by vm_compute).
    destruct H as (f & Hf & Hp). exists f. split; [by eapply list_elem_of_lookup_2 | done]. }
  destruct Hf as (f & Hin & Hp). exists f. split; [exact Hin|]. split; [exact Hp|].
  destruct (label_counts_the_finds rangeByKey insertionSort (fun fm => reflexivity _)
              merger_budget.insertionSort_perm (NewResultMerger 1000) finds ["b.go"; "c.go"]
              f Hin) as [_ Hs].
  rewrite Hs, Hp. reflexivity.
Defined.

Lemma merged_paths_are_distinct_witness :
  NoDup (FileResult.Path
           <$> (Merge rangeByKey insertionSort (NewResultMerger 1000) finds ["b.go"; "c.go"])
                 .(HybridResult.Files)).
Proof.
  apply (merged_paths_are_distinct rangeByKey insertionSort (fun fm => reflexivity _)
           merger_budget.insertionSort_perm).
Defined.

Lemma counters_count_distinct_paths_witness :
  (Merge rangeByKey insertionSort (NewResultMerger 25) finds ["b.go"; "c.go"])
    .(HybridResult.Sources).(Sources.RAG) = Z.of_nat (size (ragPaths finds))
  /\ (Merge rangeByKey insertionSort (NewResultMerger 25) finds ["b.go"; "c.go"])
       .(HybridResult.Sources).(Sources.Indexer)
     = Z.of_nat (size (indexerOnly finds ["b.go"; "c.go"]))
  /\ Z.of_nat (length (Merge rangeByKey insertionSort (NewResultMerger 25) finds
                         ["b.go"; "c.go"]).(HybridResult.Files))
     <= (Merge rangeByKey insertionSort (NewResultMerger 25) finds ["b.go"; "c.go"])
          .(HybridResult.Sources).(Sources.RAG)
        + (Merge rangeByKey insertionSort (NewResultMerger 25) finds ["b.go"; "c.go"])
            .(HybridResult.Sources).(Sources.Indexer).
Proof.
  apply (counters_count_distinct_paths rangeByKey insertionSort (fun fm => reflexivity _)
           merger_budget.insertionSort_perm (NewResultMerger 25) finds ["b.go"; "c.go"]).
  by vm_compute.
Defined.

(** With a budget of 25 tokens the counters say two and one, and no
    file is returned: the most relevant one, which only the indexer
    found, is counted as 500 tokens, and the cut is at the first file
    that does not fit. *)
Example counters_example :
  let r := Merge rangeByKey insertionSort (NewResultMerger 25) finds ["b.go"; "c.go"] in
  r.(HybridResult.Sources) = {| Sources.Indexer := 1; Sources.RAG := 2 |}
  /\ r.(HybridResult.Files) = []
  /\ map FileResult.Path
         (Merge rangeByKey insertionSort (NewResultMerger 1000) finds ["b.go"; "c.go"])
           .(HybridResult.Files)
     = ["c.go"; "b.go"; "a.go"].
Proof. by vm_compute. Qed.

End merger_files.

(* ===================================================================== *)
(** * The query analyzer: what decides the class                          *)
(* ===================================================================== *)

Module query_analyzer_decision.

Import query_analyzer.






End query_analyzer_decision.

(* ===================================================================== *)
(** * The chunkers: every chunk is a range of lines of its file           *)
(* ===================================================================== *)

Module chunkers_spec.

Import rag chunker chunkers runner.

(** The lines [s + 1] to [e] of a file, joined. *)
Definition slice (lines : list string) (s e : nat) : string :=
  strings.Join (take (e - s) (drop s lines)) (String "010" "").

(** The chunk [c] is a range of lines of the file, and says which:
    its content is the text of the lines [StartLine] to [EndLine]. *)
Definition located (filePath : string) (lines : list string) (c : Chunk) : Prop :=
  exists s e : nat,
    (s < e <= length lines)%nat
    /\ c.(StartLine) = Z.of_nat s + 1 /\ c.(EndLine) = Z.of_nat e
    /\ c.(Content) = slice lines s e
    /\ c.(FilePath) = filePath.

Lemma located_extractLines (filePath content : string) (c : Chunk) :
  located filePath (strings.Split content "010"%char) c ->
  1 <= c.(StartLine) <= c.(EndLine)
  /\ c.(EndLine) <= Z.of_nat (length (strings.Split content "010"%char))
  /\ extractLines content c.(StartLine) c.(EndLine) = Returned c.(Content).
Proof.
  intros (s & e & Hse & -> & -> & -> & _). split; [lia|]. split; [lia|].
  unfold extractLines, slice. cbv zeta.
  generalize dependent (strings.Split content "010"%char). intros lines Hse.
  destruct (Z.ltb_spec (Z.of_nat s + 1) 1); [exfalso; lia|].
  destruct (Z.ltb_spec (Z.of_nat (length lines)) (Z.of_nat s + 1)); [exfalso; lia|].
  simpl.
  destruct (Z.ltb_spec (Z.of_nat (length lines)) (Z.of_nat e)); [exfalso; lia|].
  destruct (Z.ltb_spec (Z.of_nat e) (Z.of_nat s + 1 - 1)); [exfalso; lia|].
  replace (Z.to_nat (Z.of_nat e - (Z.of_nat s + 1 - 1))) with (e - s)%nat by lia.
  replace (Z.to_nat (Z.of_nat s + 1 - 1)) with s by lia.
  done.
Qed.

Lemma add1 (i : nat) : Z.of_nat i < 2 ^ 62 -> Int.add (Z.of_nat i) 1 = Z.of_nat i + 1.
Proof.
  intros H. unfold Int.add. apply Int_facts.wrap_small. unfold Int.min_int, Int.max_int. lia.
Qed.

(** ** The sliding window *)

Lemma stride_indices (n : nat) :
  loopIndices n stride = map (fun k => (40 * k)%nat) (seq 0 (Nat.div (n + 39) 40)).
Proof.
  unfold loopIndices. change stride with 40%nat.
  replace (n + 40 - 1)%nat with (n + 39)%nat by lia.
  apply map_ext. intros k. lia.
Qed.

Section Window.

Variables filePath content lang : string.

Let lines : list string := strings.Split content "010"%char.

(** The chunk of the window that starts at line [40 k]. *)
Definition windowChunk (k : nat) : Chunk :=
  NewChunk filePath (slice lines (40 * k) (Nat.min (40 * k + 50) (length lines))) "block" ""
    lang (Z.of_nat (40 * k) + 1) (Z.of_nat (Nat.min (40 * k + 50) (length lines))).

(** The windows kept are those with at least 50 bytes of text. *)
Definition kept (k : nat) : Prop :=
  (40 * k < length lines)%nat
  /\ 50 <= strings.len (strings.TrimSpace
                           (slice lines (40 * k) (Nat.min (40 * k + 50) (length lines)))).

Definition windowInv (t : nat) (st : WindowState) (ks : list nat) : Prop :=
  st.(chunks) = windowChunk <$> ks
  /\ chunker_spec.increasing ks
  /\ Forall (fun k => (k < t)%nat /\ kept k) ks.

Lemma windowStep_inv (t : nat) (st : WindowState) (ks : list nat) :
  Z.of_nat (length lines) < 2 ^ 62 ->
  (40 * t < length lines)%nat -> windowInv t st ks ->
  exists ks', windowInv (S t) (windowStep filePath lang lines st (40 * t)) ks'.
Proof.
  intros Hn Ht (Hc & Hi & Hk).
  assert (Hk' : Forall (fun k => (k < S t)%nat /\ kept k) ks).
  { eapply Forall_impl; [exact Hk|]. intros k [? ?]. split; [lia | done]. }
  unfold windowStep. destruct st.(stopped).
  { exists ks. by repeat split. }
  change chunkSize with 50%nat.
  assert (He : (if (length lines <? 40 * t + 50)%nat then length lines else (40 * t + 50)%nat)
               = Nat.min (40 * t + 50) (length lines)).
  { destruct (length lines <? 40 * t + 50)%nat eqn:E;
      [apply Nat.ltb_lt in E | apply Nat.ltb_ge in E]; lia. }
  rewrite He. fold (slice lines (40 * t) (Nat.min (40 * t + 50) (length lines))).
  destruct (strings.len (strings.TrimSpace _) <? 50) eqn:Etiny.
  { exists ks. by repeat split. }
  exists (ks ++ [t]). apply Z.ltb_ge in Etiny.
  split; [|split]; cbn [chunks].
  - rewrite fmap_app, Hc. f_equal. cbn [fmap list_fmap]. unfold windowChunk.
    by rewrite add1 by lia.
  - intros i j a b Ha Hb Hij.
    destruct (lookup_app_Some ks [t] j b) as [Hb' _]. destruct (Hb' Hb) as [Hj | [Hj1 Hj2]].
    + rewrite lookup_app_l in Ha by (apply lookup_lt_Some in Hj; lia).
      by apply (Hi i j).
    + apply list_lookup_singleton_Some in Hj2 as [Hj2 <-].
      rewrite lookup_app_l in Ha by lia.
      rewrite Forall_lookup in Hk. destruct (Hk i a Ha). lia.
  - apply Forall_app. split; [done|]. apply Forall_singleton. split; [lia|]. by split.
Qed.

Lemma fold_windowStep_inv (count t : nat) (st : WindowState) (ks : list nat) :
  Z.of_nat (length lines) < 2 ^ 62 ->
  (forall k, (t <= k < t + count)%nat -> (40 * k < length lines)%nat) ->
  windowInv t st ks ->
  exists ks',
    windowInv (t + count)
      (fold_left (windowStep filePath lang lines) (map (fun k => (40 * k)%nat) (seq t count)) st)
      ks'.
Proof.
  intros Hn. revert t st ks. induction count as [|count IH]; intros t st ks Hin Hinv.
  - exists ks. by rewrite Nat.add_0_r.
  - destruct (windowStep_inv t st ks Hn) as [ks1 H1]; [apply Hin; lia | done |].
    destruct (IH (S t) _ ks1 ltac:(intros k Hk; apply Hin; lia) H1) as [ks2 H2].
    exists ks2. replace (t + S count)%nat with (S t + count)%nat by lia. exact H2.
Qed.

Lemma genericSlidingChunks_windows :
  Z.of_nat (length lines) < 2 ^ 62 ->
  exists ks : list nat,
    chunker_spec.increasing ks
    /\ Forall kept ks
    /\ genericSlidingChunks filePath content lang = windowChunk <$> ks.
Proof.
  intros Hn. unfold genericSlidingChunks. fold lines. rewrite stride_indices.
  destruct (fold_windowStep_inv (Nat.div (length lines + 39) 40) 0
              {| chunks := []; stopped := false |} [] Hn) as [ks Hinv].
  { intros k [_ Hk].
    assert (H40 : (40 * ((length lines + 39) / 40) <= length lines + 39)%nat).
    { apply Nat.Div0.mul_div_le. }
    lia. }
  { split; [done|]. split; [|constructor].
    intros i j a b Ha. by rewrite lookup_nil in Ha. }
  destruct Hinv as (Hc & Hi & Hk). exists ks. split; [done|]. split; [|done].
  eapply Forall_impl; [exact Hk|]. by intros k [_ ?].
Qed.

Lemma windowChunk_located (k : nat) : kept k -> located filePath lines (windowChunk k).
Proof.
  intros [Hk _]. exists (40 * k)%nat, (Nat.min (40 * k + 50) (length lines)).
  split; [lia|]. done.
Qed.

End Window.

Lemma lines_bound (content : string) :
  strings.len content < 2 ^ 62 - 1 ->
  Z.of_nat (length (strings.Split content "010"%char)) < 2 ^ 62.
Proof.
  unfold strings.len. intros H.
  pose proof (tasks_numbering.Split_length content "010"%char). lia.
Qed.


(** A file of 60 lines of 30 characters. *)
Definition sixty : string :=
  String.concat (String "010" "") (repeat "line of thirty characters long" 60).


Example sixty_windows :
  (fun c => (c.(StartLine), c.(EndLine))) <$> genericSlidingChunks "a.txt" sixty "text"
  = [(1, 50); (41, 60)].
Proof. by vm_compute. Qed.

(** ** The Python chunker *)

Lemma blockEnd_bounds (below : list string) (baseIndent : Z) (j endIdx : nat) :
  (endIdx <= j)%nat ->
  (endIdx <= blockEnd below baseIndent j endIdx <= j + length below)%nat.
Proof.
  revert j endIdx. induction below as [|next rest IH]; intros j endIdx Hje; simpl; [lia|].
  destruct (String.eqb (strings.TrimSpace next) "" || strings.HasPrefix (strings.TrimSpace next) "#")%bool.
  { specialize (IH (S j) endIdx ltac:(lia)). lia. }
  destruct ((leadingIndent next <=? baseIndent)
            && negb (strings.HasPrefix (strings.TrimSpace next) "@"))%bool; [lia|].
  specialize (IH (S j) (S j) ltac:(lia)). lia.
Qed.

Lemma definition_kind (line kind name : string) :
  definition line = Some (kind, name) ->
  kind = "class" \/ kind = "function" \/ kind = "method".
Proof.
  unfold definition.
  destruct (strings.HasPrefix (strings.TrimSpace line) "class "); [intros [= <- _]; auto|].
  destruct (strings.HasPrefix (strings.TrimSpace line) "def "); [|done].
  destruct (0 <? leadingIndent line); intros [= <- _]; auto.
Qed.

Lemma window_of_block (lines : list string) (s m k : nat) :
  (s + m <= length lines)%nat -> (90 * k < m)%nat ->
  chunker_spec.window (take m (drop s lines)) k
  = take (s + Nat.min (90 * k + 100) m - (s + 90 * k)) (drop (s + 90 * k) lines).
Proof.
  intros Hm Hk. unfold chunker_spec.window.
  replace m with (90 * k + (m - 90 * k))%nat at 1 by lia.
  rewrite <- take_drop_commute, take_take, drop_drop. f_equal. lia.
Qed.

(** The chunk is cut from a definition of Python. *)
Definition ofPython (filePath : string) (lines : list string) (c : Chunk) : Prop :=
  located filePath lines c
  /\ c.(Language) = "python"
  /\ (c.(ChunkType) = "class" \/ c.(ChunkType) = "function" \/ c.(ChunkType) = "method").

Lemma splitLargeChunk_located (filePath kind name : string) (lines : list string) (s e : nat) :
  Forall (fun l => chunker_spec.free "010" l = true) lines ->
  (s < e <= length lines)%nat -> Z.of_nat (length lines) < 2 ^ 62 ->
  kind = "class" \/ kind = "function" \/ kind = "method" ->
  Forall (ofPython filePath lines)
    (splitLargeChunk filePath (slice lines s e) kind name "python" (Z.of_nat s + 1) (Z.of_nat e)).
Proof.
  intros Hfree Hse Hn Hkind. unfold splitLargeChunk.
  destruct (strings.len (slice lines s e) <=? maxChunkSize).
  { apply Forall_singleton. split; [|done]. by exists s, e. }
  assert (Hsplit : strings.Split (slice lines s e) "010"%char = take (e - s) (drop s lines)).
  { unfold slice. apply chunker_spec.Split_Join.
    - intros Hnil. apply (f_equal length) in Hnil.
      rewrite length_take, length_drop in Hnil. simpl in Hnil. lia.
    - by apply Forall_take, Forall_drop. }
  rewrite chunker_spec.loopIndices_eq.
  destruct (chunker_spec.fold_splitStep_inv filePath (slice lines s e) kind name "python"
              (Z.of_nat s + 1)
              (Nat.div (length (strings.Split (slice lines s e) "010"%char) + 89) 90) 0
              {| chunker.chunks := []; partNum := 1; chunker.stopped := false |} [])
    as [ks Hinv].
  { intros k [_ Hk].
    assert (H90 : (90 * ((length (strings.Split (slice lines s e) "010"%char) + 89) / 90)
                   <= length (strings.Split (slice lines s e) "010"%char) + 89)%nat).
    { apply Nat.Div0.mul_div_le. }
    lia. }
  { split; [done|]. split; [done|]. split; [|constructor].
    intros i j a b Ha. by rewrite lookup_nil in Ha. }
  destruct Hinv as (Hc & _ & _ & Hk). rewrite Hc.
  apply Forall_lookup. intros j c Hj.
  rewrite list_lookup_imap in Hj.
  destruct (ks !! j) as [k|] eqn:Hjk; [|done]. injection Hj as <-.
  rewrite Forall_lookup in Hk. destruct (Hk j k Hjk) as [_ [Hlt _]].
  rewrite Hsplit in Hlt. rewrite length_take, length_drop in Hlt.
  split; [|done].
  exists (s + 90 * k)%nat, (s + Nat.min (90 * k + 100) (e - s))%nat.
  split; [lia|]. unfold chunker_spec.subChunk. rewrite Hsplit.
  rewrite length_take, length_drop.
  replace (Nat.min (e - s) (length lines - s)) with (e - s)%nat by lia.
  split; [|split; [|split; [|done]]]; simpl.
  - unfold Int.add. rewrite Int_facts.wrap_small; [lia|].
    unfold Int.min_int, Int.max_int. lia.
  - unfold Int.add.
    rewrite (Int_facts.wrap_small (Z.of_nat s + 1 + _));
      [|unfold Int.min_int, Int.max_int; lia].
    rewrite Int_facts.wrap_small; [lia|]. unfold Int.min_int, Int.max_int. lia.
  - unfold slice. f_equal. apply window_of_block; lia.
Qed.

Lemma pythonLoop_located (filePath : string) (lines : list string) :
  Forall (fun l => chunker_spec.free "010" l = true) lines ->
  Z.of_nat (length lines) < 2 ^ 62 ->
  forall (rounds i : nat) (found : list Chunk),
    Forall (ofPython filePath lines) found ->
    Forall (ofPython filePath lines) (pythonLoop rounds filePath lines i found).
Proof.
  intros Hfree Hn. induction rounds as [|rounds IH]; intros i found Hfound; simpl; [done|].
  destruct (lines !! i) as [line|] eqn:Hi; [|done].
  apply lookup_lt_Some in Hi.
  destruct (String.eqb (strings.TrimSpace line) ""); [by apply IH|].
  destruct (definition line) as [[kind name]|] eqn:Hdef; [|by apply IH].
  destruct (strings.len (strings.TrimSpace _) <? 20); [by apply IH|].
  apply IH. apply Forall_app. split; [done|].
  pose proof (blockEnd_bounds (drop (S i) lines) (leadingIndent line) (S i) (S i)
                ltac:(lia)) as He.
  rewrite length_drop in He.
  set (s := (i - decorators (List.rev (take i lines)) (leadingIndent line))%nat) in *.
  set (e := blockEnd (drop (S i) lines) (leadingIndent line) (S i) (S i)) in *.
  assert (Hs : (s <= i)%nat) by (unfold s; lia).
  rewrite add1 by lia.
  apply (splitLargeChunk_located filePath kind name lines s e); [done | lia | done |].
  by apply (definition_kind line kind name).
Qed.

(** Every chunk [PythonChunker.ChunkFile] returns for a file of less
    than 2^62 - 1 bytes is a range of lines of the file and says which:
    its path is the file's, its language is "python", [StartLine] and
    [EndLine] are line numbers of the file, with [StartLine] not after
    [EndLine], and its content is the text of these lines, which is what
    [extractLines] returns for them.  Its kind is "class", "function"
    or "method"; when no definition gave a chunk, the result is that of
    the sliding window instead, of kind "block". *)
Theorem python_chunks_are_line_ranges (filePath content : string) :
  strings.len content < 2 ^ 62 - 1 ->
  let found := PythonChunkFile filePath content in
  Forall (fun c =>
     c.(FilePath) = filePath /\ c.(Language) = "python"
     /\ 1 <= c.(StartLine) <= c.(EndLine)
     /\ c.(EndLine) <= Z.of_nat (length (strings.Split content "010"%char))
     /\ extractLines content c.(StartLine) c.(EndLine) = Returned c.(Content)) found
  /\ (Forall (fun c => c.(ChunkType) = "class" \/ c.(ChunkType) = "function"
                       \/ c.(ChunkType) = "method") found
      \/ found = genericSlidingChunks filePath content "python"
         /\ Forall (fun c => c.(ChunkType) = "block") found).
Proof.
  intros Hlen found.
  pose proof (lines_bound content Hlen) as Hn.
  pose proof (pythonLoop_located filePath (strings.Split content "010"%char)
                (chunker_spec.Split_free content "010"%char) Hn
                (length (strings.Split content "010"%char)) 0 [] ltac:(constructor)) as Hloop.
  subst found. unfold PythonChunkFile.
  destruct (pythonLoop _ filePath _ 0 []) as [|c0 found] eqn:Hfound.
  - destruct (genericSlidingChunks_windows filePath content "python" Hn) as (ks & _ & Hk & ->).
    split.
    + apply Forall_fmap. eapply Forall_impl; [exact Hk|]. intros k Hk'. simpl.
      destruct (located_extractLines filePath content _
                  (windowChunk_located filePath content "python" k Hk')) as (H1 & H2 & H3).
      done.
    + right. split; [done|]. apply Forall_fmap. by apply Forall_true.
  - split.
    + eapply Forall_impl; [exact Hloop|]. intros c (Hloc & Hlang & _).
      destruct (located_extractLines filePath content c Hloc) as (H1 & H2 & H3).
      destruct Hloc as (s & e & _ & _ & _ & _ & Hpath). done.
    + left. eapply Forall_impl; [exact Hloop|]. by intros c (_ & _ & Hkind).
Qed.

Definition script : string :=
  "import os

@cached
def load(path):
    return open(path).read()

class Store:
    def get(self, key):
        return self.data[key]
".

Lemma python_chunks_are_line_ranges_witness :
  strings.len script < 2 ^ 62 - 1
  /\ (Forall (fun c => c.(ChunkType) = "class" \/ c.(ChunkType) = "function"
                       \/ c.(ChunkType) = "method") (PythonChunkFile "s.py" script)
      \/ PythonChunkFile "s.py" script = genericSlidingChunks "s.py" script "python"
         /\ Forall (fun c => c.(ChunkType) = "block") (PythonChunkFile "s.py" script)).
Proof.
  assert (H : strings.len script < 2 ^ 62 - 1) by (by vm_compute).
  split; [exact H|].
  exact (proj2 (python_chunks_are_line_ranges "s.py" script H)).
Defined.

(** The methods of a class are part of the chunk of the class, not
    chunks of their own. *)
Example script_chunks :
  (fun c => (c.(ChunkType), c.(SymbolName), c.(StartLine), c.(EndLine)))
    <$> PythonChunkFile "s.py" script
  = [("function", "load", 3, 5); ("class", "Store", 7, 9)].
Proof. by vm_compute. Qed.

End chunkers_spec.

(* ===================================================================== *)
(** * The indexer of files: what a run leaves in the store                *)
(* ===================================================================== *)

Module rag_indexer_spec.

Import rag chunker chunkers store store_search runner rag_indexer store_read_spec.

Lemma batch_indices (n : nat) :
  loopIndices n batchSize = map (fun k => (10 * k)%nat) (seq 0 (Nat.div (n + 9) 10)).
Proof.
  unfold loopIndices. change batchSize with 10%nat.
  replace (n + 10 - 1)%nat with (n + 9)%nat by lia.
  apply map_ext. intros k. lia.
Qed.

(** The store [s'] is [s] with the first [n] of the chunks written,
    each with a vector of the dimension of the store. *)
Definition holds (s : SQLiteVectorStore) (chunks : list Chunk) (n : nat)
    (s' : SQLiteVectorStore) : Prop :=
  exists embeddings : list (list Z),
    length embeddings = n
    /\ Forall (fun emb => Z.of_nat (length emb) = s.(dims)) embeddings
    /\ s'.(dims) = s.(dims)
    /\ s'.(db) = fold_left upsert (zip (take n chunks) embeddings) s.(db).

Section Indexer.

Variable EmbedBatch : list string -> list (list Z) + string.
Variable faults : nat -> Faults.

(** Before the batch [t]: without a failure the batches before it are
    written; after a failure, the batches before the one that failed. *)
Definition batchInv (s : SQLiteVectorStore) (chunks : list Chunk) (t : nat) (st : IndexState)
    : Prop :=
  exists n : nat,
    holds s chunks n st.(vectorStore)
    /\ match st.(failure) with
       | None => n = Nat.min (10 * t) (length chunks)
       | Some _ => (n < length chunks)%nat /\ exists k, n = (10 * k)%nat
       end.

Lemma indexStep_inv (s : SQLiteVectorStore) (chunks : list Chunk) (t : nat) (st : IndexState) :
  (10 * t < length chunks)%nat -> batchInv s chunks t st ->
  batchInv s chunks (S t) (indexStep EmbedBatch faults chunks st (10 * t)).
Proof.
  intros Ht (n & Hn & Hf). unfold indexStep.
  destruct st.(failure) as [err|] eqn:Hfail.
  { exists n. rewrite Hfail. by split. }
  subst n. replace (Nat.min (10 * t) (length chunks)) with (10 * t)%nat in Hn by lia.
  change batchSize with 10%nat.
  assert (He : (if (length chunks <? 10 * t + 10)%nat then length chunks else (10 * t + 10)%nat)
               = Nat.min (10 * S t) (length chunks)).
  { destruct (length chunks <? 10 * t + 10)%nat eqn:E;
      [apply Nat.ltb_lt in E | apply Nat.ltb_ge in E]; lia. }
  rewrite He. set (e := Nat.min (10 * S t) (length chunks)).
  set (batch := take (e - 10 * t) (drop (10 * t) chunks)).
  destruct (EmbedBatch (Content <$> batch)) as [embeddings|err].
  2: { exists (10 * t)%nat. simpl. split; [done|]. split; [done | by exists t]. }
  pose proof (InsertBatch_cases (faults (10 * t)) st.(vectorStore) batch embeddings) as Hc.
  destruct (InsertBatch (faults (10 * t)) st.(vectorStore) batch embeddings) as [s' [err|]].
  { subst s'. exists (10 * t)%nat. simpl. split; [done|]. split; [done | by exists t]. }
  destruct Hc as (Hlen & Hd & Hdims & Hdb).
  destruct Hn as (embs & Hembs & Hall & Hd0 & Hdb0).
  exists e. simpl. split; [|done].
  assert (Hb : length batch = (e - 10 * t)%nat).
  { unfold batch. rewrite length_take, length_drop. lia. }
  exists (embs ++ embeddings). split; [|split; [|split]].
  - rewrite length_app. lia.
  - apply Forall_app. split; [done|]. by rewrite <- Hd0.
  - congruence.
  - rewrite Hdb, Hdb0, <- fold_left_app. f_equal.
    replace e with (10 * t + (e - 10 * t))%nat at 1 by lia.
    rewrite <- take_take_drop. fold batch.
    rewrite zip_with_app; [done|].
    rewrite length_take. lia.
Qed.

Lemma fold_indexStep_inv (s : SQLiteVectorStore) (chunks : list Chunk) (count t : nat)
    (st : IndexState) :
  (forall k, (t <= k < t + count)%nat -> (10 * k < length chunks)%nat) ->
  batchInv s chunks t st ->
  batchInv s chunks (t + count)
    (fold_left (indexStep EmbedBatch faults chunks) (map (fun k => (10 * k)%nat) (seq t count)) st).
Proof.
  revert t st. induction count as [|count IH]; intros t st Hin Hinv.
  - by rewrite Nat.add_0_r.
  - simpl. replace (t + S count)%nat with (S t + count)%nat by lia.
    apply IH; [intros k Hk; apply Hin; lia|].
    apply indexStep_inv; [apply Hin; lia | done].
Qed.

Lemma holds_nothing (s : SQLiteVectorStore) (chunks : list Chunk) : holds s chunks 0 s.
Proof. exists []. by repeat split. Qed.

Variable goChunkFile : string -> string -> list Chunk.

(** The chunks of the file, when it can be read. *)
Definition chunksOf (fs : os.FS) (filePath : string) : list Chunk :=
  match os.ReadFile fs filePath with
  | inl content => ChunkerFactory goChunkFile filePath filePath content
  | inr _ => []
  end.

Lemma IndexFile_holds (fs : os.FS) (s : SQLiteVectorStore) (filePath : string) :
  let chunks := chunksOf fs filePath in
  exists n : nat,
    holds s chunks n (IndexFile goChunkFile EmbedBatch faults fs s filePath).2
    /\ match (IndexFile goChunkFile EmbedBatch faults fs s filePath).1 with
       | inl found => found = chunks /\ n = length chunks
       | inr err =>
           match os.ReadFile fs filePath with
           | inr why => err = "failed to read file: " +:+ why
           | inl _ => (n < length chunks)%nat /\ exists k, n = (10 * k)%nat
           end
       end.
Proof.
  unfold chunksOf, IndexFile. destruct (os.ReadFile fs filePath) as [content|why]; simpl.
  2: { exists 0%nat. split; [apply holds_nothing | done]. }
  set (chunks := ChunkerFactory goChunkFile filePath filePath content).
  destruct chunks as [|c0 rest] eqn:Hchunks.
  { exists 0%nat. split; [apply holds_nothing | done]. }
  rewrite <- Hchunks. rewrite batch_indices.
  destruct (fold_indexStep_inv s chunks (Nat.div (length chunks + 9) 10) 0
              {| vectorStore := s; failure := None |}) as (n & Hn & Hf).
  { intros k [_ Hk].
    assert (H10 : (10 * ((length chunks + 9) / 10) <= length chunks + 9)%nat).
    { apply Nat.Div0.mul_div_le. }
    lia. }
  { exists 0%nat. split; [apply holds_nothing | simpl; lia]. }
  exists n.
  destruct (failure _) as [err|] eqn:Hfail; cbn [fst snd]; (split; [done|]); [done|].
  split; [done|].
  assert (H10 : (length chunks < 10 * ((length chunks + 9) / 10) + 1)%nat).
  { pose proof (Nat.div_mod_eq (length chunks + 9) 10).
    pose proof (Nat.mod_upper_bound (length chunks + 9) 10). lia. }
  lia.
Qed.

(** [IndexFile] writes the chunks of a file batch by batch and does not
    take a batch back: the store it leaves is the store it found with
    the first [n] chunks of the file written over the rows of their ids,
    in order, each with a vector of the dimension of the store.  When it
    returns the chunks, [n] is their number; when a batch fails, the
    error is returned and [n] is the number of chunks of the batches of
    ten before it, which stay in the store; when the file cannot be
    read, or has no chunk, nothing is written. *)
Theorem index_file_keeps_finished_batches (fs : os.FS) (s : SQLiteVectorStore)
    (filePath : string) :
  exists n : nat,
    holds s (chunksOf fs filePath) n (IndexFile goChunkFile EmbedBatch faults fs s filePath).2
    /\ match (IndexFile goChunkFile EmbedBatch faults fs s filePath).1 with
       | inl found => found = chunksOf fs filePath /\ n = length (chunksOf fs filePath)
       | inr err =>
           match os.ReadFile fs filePath with
           | inr why => err = "failed to read file: " +:+ why
           | inl _ => (n < length (chunksOf fs filePath))%nat /\ exists k, n = (10 * k)%nat
           end
       end.
Proof. apply IndexFile_holds. Qed.


Variable Embed : string -> list Z + string.
Variable selectAll : gmap string Row -> list (string * Row).
Variable sortSlice :
  (SearchResult.t -> SearchResult.t -> bool) -> list SearchResult.t -> list SearchResult.t.

Hypothesis selectAll_perm : forall m, selectAll m ≡ₚ map_to_list m.
Hypothesis sortSlice_perm : forall less l, sortSlice less l ≡ₚ l.




End Indexer.

(** One file of Python, an embedder that answers every text with the
    same vector, and a database that does not fail. *)
Definition disk : os.FS := {[ "s.py" := chunkers_spec.script ]}.




Definition empty2 : SQLiteVectorStore := {| db := ∅; dims := 2 |}.


(** Twelve chunks, and an embedder that fails on the second batch:
    [IndexFile] returns the error, and the ten chunks of the first
    batch stay in the store. *)
Definition twelve (filePath content : string) : list Chunk :=
  (fun k => NewChunk filePath (strings.itoa (Z.of_nat k)) "function" "f" "go" 1 1) <$> seq 0 12.

Definition failsOnShort (texts : list string) : list (list Z) + string :=
  if (length texts <? 10)%nat then inr "connection refused"
  else inl ((fun _ => [1065353216; 0]) <$> texts).

Example partial_index :
  let run := IndexFile twelve failsOnShort (fun _ => noFaults) {[ "a.go" := "package a" ]}
               empty2 "a.go" in
  run.1 = inr "failed to generate embeddings: connection refused"
  /\ Count run.2 = 10.
Proof. by vm_compute. Qed.

End rag_indexer_spec.
